(** * Calendar-Agent: the scheduling and intent-resolution core

    A shallow embedding of the pure logic of
    [src/services/calendarService.ts] and [src/services/openaiService.ts]:
    the time / duration / range parsers, the event resolver, the
    free-slot sweep, the conflict classifier, the statistics reduction,
    the update-payload builder and the function-call dispatcher.

    Conventions of the embedding.
    - An instant is the millisecond count [getTime()] of a JavaScript
      [Date], an integer.  A [Date] is [option Z]: [None] is the
      "Invalid Date" whose time value is NaN.  The +-8.64e15 ms range
      limit of [Date] is modelled where a payload gets its end from an
      instant plus a length ([timeClip], [dateOfNumber]); the clock and
      the instants of the events lie far inside the range, and so does
      the day arithmetic around them.
    - A timestamp string held by an event ([start.dateTime]) is kept as
      the instant [new Date(s).getTime()] it denotes: the code reads such
      a field only through its truthiness and through [new Date(s)].
    - Minute counts obtained by dividing milliseconds are rationals;
      the length of the event that an update keeps is rounded at every
      step as the doubles of the code are ([fl]), and so is a number
      read off a text ([toNumber]).
    - A string is a sequence of Latin-1 characters, one [ascii] each.
    - The host (time zone, [Date] text parser, JSON parser, calendar
      backend) is a record of parameters. *)

From Stdlib Require Import ZArith QArith Qround Qabs List String Ascii Bool Lia Arith Sorted.
From Stdlib Require Import Permutation Decimal DecimalString DecimalNat.
Import ListNotations.
Local Open Scope string_scope.
Local Open Scope Z_scope.

(** ** JavaScript primitives the services rely on *)

Module JS.

(** What a throwing expression raises. *)
Inductive error := TypeError | RangeError | SyntaxError.

(** A computation that either returns or throws. *)
Inductive result (A : Type) :=
| Ok (a : A)
| Throw (e : error).
Arguments Ok {A} a.
Arguments Throw {A} e.

Definition bind {A B} (r : result A) (f : A -> result B) : result B :=
  match r with
  | Ok a => f a
  | Throw e => Throw e
  end.

(** Truthiness of an optional string field: [undefined] and [""] are
    falsy. *)
Definition truthy (v : option string) : bool :=
  match v with
  | Some (String _ _) => true
  | _ => false
  end.

(** [a || b] on optional strings. *)
Definition or_else (a b : option string) : option string :=
  if truthy a then a else b.

(** [a || d] where [d] is a string literal. *)
Definition or_default (a : option string) (d : string) : string :=
  match a with
  | Some (String c s) => String c s
  | _ => d
  end.

(** The value of a field that is read under a truthiness guard. *)
Definition guarded (a : option string) : option string :=
  if truthy a then a else None.

(** Truthiness of an optional array or object: every array is truthy. *)
Definition present {A} (v : option A) : bool :=
  match v with
  | Some _ => true
  | None => false
  end.

Definition is_digit (a : ascii) : bool :=
  let n := nat_of_ascii a in (48 <=? n)%nat && (n <=? 57)%nat.

(** The class [\s] restricted to Latin-1: TAB, LF, VT, FF, CR, SP, NBSP. *)
Definition is_space (a : ascii) : bool :=
  let n := nat_of_ascii a in
  ((9 <=? n)%nat && (n <=? 13)%nat) || (n =? 32)%nat || (n =? 160)%nat.

(** Lower case of a Latin-1 character: [A-Z], and the accented capitals
    from 192 to 222 but for the multiplication sign 215. *)
Definition lower_ascii (a : ascii) : ascii :=
  let n := nat_of_ascii a in
  if ((65 <=? n)%nat && (n <=? 90)%nat)
     || ((192 <=? n)%nat && (n <=? 222)%nat && negb (n =? 215)%nat)
  then ascii_of_nat (n + 32) else a.

Fixpoint toLowerCase (s : string) : string :=
  match s with
  | EmptyString => EmptyString
  | String a s' => String (lower_ascii a) (toLowerCase s')
  end.

(** [s.startsWith(p)] *)
Definition startsWith (s p : string) : bool := String.prefix p s.

(** [s.includes(sub)] *)
Fixpoint includes (s sub : string) : bool :=
  String.prefix sub s ||
  match s with
  | EmptyString => false
  | String _ s' => includes s' sub
  end.

Definition digit_value (a : ascii) : Z := Z.of_nat (nat_of_ascii a) - 48.

Fixpoint digits_prefix (acc : option Z) (s : string) : option Z :=
  match s with
  | String a s' =>
      if is_digit a
      then digits_prefix
             (Some (10 * match acc with Some v => v | None => 0 end
                    + digit_value a)) s'
      else acc
  | EmptyString => acc
  end.

(** [xs.sort((a, b) => key(a) - key(b))]: the sort is stable, so an
    element goes in front of the first one whose key is not smaller. *)
Section Sort.
Context {A : Type} (key : A -> Z).

Fixpoint insertByKey (x : A) (sorted : list A) : list A :=
  match sorted with
  | [] => [x]
  | y :: rest =>
      if key x <=? key y then x :: y :: rest
      else y :: insertByKey x rest
  end.

Definition sortByKey (xs : list A) : list A := fold_right insertByKey [] xs.

Definition keyOrdered (a b : A) : Prop := key a <= key b.
End Sort.

(** *** Dates in a host of fixed UTC offset *)

Definition msPerMinute : Z := 60 * 1000.
Definition msPerHour : Z := 60 * msPerMinute.
Definition msPerDay : Z := 24 * msPerHour.

(** [tz] is local time minus UTC, in minutes. *)
Definition localTime (tz t : Z) : Z := t + tz * msPerMinute.

Definition getHours (tz t : Z) : Z := (localTime tz t mod msPerDay) / msPerHour.
Definition getMinutes (tz t : Z) : Z := (localTime tz t mod msPerHour) / msPerMinute.

(** [d.setHours(h, m, 0, 0)]: same local day, the given clock time;
    hours past 23 roll over into the following days.  A NaN argument
    invalidates the date. *)
Definition setHours (tz : Z) (d : option Z) (h m : option Z) : option Z :=
  match d, h, m with
  | Some t, Some h, Some m =>
      let l := localTime tz t in
      Some (l - l mod msPerDay + h * msPerHour + m * msPerMinute - tz * msPerMinute)
  | _, _, _ => None
  end.

(** [d.setDate(d.getDate() + n)] *)
Definition addDays (d : option Z) (n : Z) : option Z :=
  option_map (fun t => t + n * msPerDay) d.

(** Civil date of a day count since 1970-01-01 (proleptic Gregorian). *)
Definition civil_from_days (days : Z) : Z * Z * Z :=
  let z := days + 719468 in
  let era := z / 146097 in
  let doe := z - era * 146097 in
  let yoe := (doe - doe / 1460 + doe / 36524 - doe / 146096) / 365 in
  let doy := doe - (365 * yoe + yoe / 4 - yoe / 100) in
  let mp := (5 * doy + 2) / 153 in
  let d := doy - (153 * mp + 2) / 5 + 1 in
  let m := if mp <? 10 then mp + 3 else mp - 9 in
  let y := yoe + era * 400 + (if m <=? 2 then 1 else 0) in
  (y, m, d).

Definition isLeapYear (y : Z) : bool :=
  (y mod 4 =? 0) && (negb (y mod 100 =? 0) || (y mod 400 =? 0)).

Definition daysInMonth (y m : Z) : Z :=
  if m =? 2 then (if isLeapYear y then 29 else 28)
  else if (m =? 4) || (m =? 6) || (m =? 9) || (m =? 11) then 30
  else 31.

(** Midnight of the local day of [t]. *)
Definition localMidnight (tz t : Z) : Z :=
  let l := localTime tz t in l - l mod msPerDay - tz * msPerMinute.

(** [new Date(now.getFullYear(), now.getMonth() + 1, 0)]: midnight of the
    last day of the local month of [now]. *)
Definition endOfMonth (tz now : Z) : Z :=
  let '(y, m, d) := civil_from_days (localTime tz now / msPerDay) in
  localMidnight tz now + (daysInMonth y m - d) * msPerDay.

Definition digit_char (d : Z) : ascii := ascii_of_nat (48 + Z.to_nat (d mod 10)).

Fixpoint pad (width : nat) (n : Z) (acc : string) : string :=
  match width with
  | O => acc
  | S w => pad w (n / 10) (String (digit_char n) acc)
  end.

(** The year field of [toISOString]: four digits, or a sign and six
    digits outside 0..9999. *)
Definition isoYear (y : Z) : string :=
  if (0 <=? y) && (y <=? 9999) then pad 4 y ""
  else if y <? 0 then "-" ++ pad 6 (- y) ""
  else "+" ++ pad 6 y "".

(** The [YYYY-MM-DD] text of the calendar day holding millisecond
    count [t]. *)
Definition dateText (t : Z) : string :=
  let '(y, m, d) := civil_from_days (t / msPerDay) in
  isoYear y ++ "-" ++ pad 2 m "" ++ "-" ++ pad 2 d "".

(** [d.toISOString()] kept as the instant it denotes. *)
Definition toISOString (d : option Z) : result Z :=
  match d with
  | Some t => Ok t
  | None => Throw RangeError
  end.

(** *** The range of dates *)

(** The largest time value of a [Date]: 100,000,000 days either side
    of the epoch, in milliseconds. *)
Definition maxTime : Z := 8640000000000000.

(** [new Date(x)] on a whole number of milliseconds: the invalid date
    outside the range.  Where [x] is a sum or a product of whole
    numbers that the source computes in double precision, the exact [x]
    decides the same way: every whole number up to [2^53], so every
    time value in range, is a double, and rounding is monotone, so a
    number past the range stays past it. *)
Definition timeClip (x : Z) : option Z :=
  if Z.abs x <=? maxTime then Some x else None.

(** *** Double-precision numbers

    A number of the source is kept as the rational it is.  [fl q] is
    the double nearest to [q]: 53 significant bits, a tie going to the
    even significand.  The exponent is left unbounded; the magnitudes
    rounded here lie between [2^-16] and [2^55]. *)

(** [q * 2^k] *)
Definition scale2 (q : Q) (k : Z) : Q :=
  if 0 <=? k then (q * inject_Z (2 ^ k))%Q else (q / inject_Z (2 ^ (- k)))%Q.

(** The place of the leading bit of [q <> 0]: the [l] with
    [2^l <= |q| < 2^(l+1)]. *)
Definition ilog2 (q : Q) : Z :=
  let l := Z.log2 (Z.abs (Qnum q)) - Z.log2 (Zpos (Qden q)) in
  if Qle_bool (scale2 1 l) (Qabs q) then l else l - 1.

(** The nearest whole number, a tie going to the even one. *)
Definition roundEven (x : Q) : Z :=
  let f := Qfloor x in
  match Qcompare (x - inject_Z f) (1 # 2) with
  | Lt => f
  | Gt => f + 1
  | Eq => if Z.even f then f else f + 1
  end.

Definition fl (q : Q) : Q :=
  if Qeq_bool q 0 then 0%Q
  else let e := ilog2 q - 52 in
       scale2 (inject_Z (roundEven (scale2 q (- e)))) e.

(** [Number.MAX_SAFE_INTEGER], [2^53 - 1]: up to it a double holds
    every whole number exactly. *)
Definition MAX_SAFE_INTEGER : Z := 9007199254740991.

(** The Number value of a whole number: the double nearest to it.  A
    number past the largest double, which the source holds as
    [Infinity], is kept at its rounded finite value; the sums that use
    it are past the range of dates either way. *)
Definition toNumber (n : Z) : Z := Qfloor (fl (inject_Z n)).

(** [parseInt(v)] on what a capture group holds: the Number value of
    the leading decimal digits, NaN ([None]) when there is none or
    when the group is [undefined]. *)
Definition parseInt (v : option string) : option Z :=
  match v with
  | Some s => option_map toNumber (digits_prefix None s)
  | None => None
  end.

(** [new Date(x)] on a number: the invalid date outside the range,
    else the instant with the fraction dropped. *)
Definition dateOfNumber (x : Q) : option Z :=
  if Qle_bool (Qabs x) (inject_Z maxTime)
  then Some (if Qle_bool 0 x then Qfloor x else Qceiling x)
  else None.

End JS.

Import JS.

(** ** A backtracking matcher for the regular expressions of the source

    The matcher follows the priorities of the JavaScript engine: a
    quantifier is greedy, an alternation tries its branches from left to
    right, and a failure further on returns to the latest choice.
    Captures are threaded through the continuation, so a choice that is
    abandoned leaves no capture behind. *)

Module Regex.

Inductive re :=
| Eps
| Eos                                  (* [$] *)
| Chr (p : ascii -> bool)              (* one character of a class *)
| Seq (r1 r2 : re)
| Alt (r1 r2 : re)                     (* [r1|r2] *)
| Opt (r : re)                         (* [r?] *)
| Star (p : ascii -> bool)             (* [c*] on a character class *)
| Group (n : nat) (r : re).            (* the n-th capture group *)

Definition caps := nat -> option string.

Definition no_caps : caps := fun _ => None.

Definition set_cap (n : nat) (v : string) (c : caps) : caps :=
  fun i => if Nat.eqb i n then Some v else c i.

(** The text between position [s] and the later position [s']. *)
Definition consumed (s s' : string) : string :=
  substring 0 (String.length s - String.length s') s.

Section Matcher.
Context {A : Type}.

Fixpoint star (p : ascii -> bool) (s : string) (k : string -> option A)
  : option A :=
  match s with
  | String a s' =>
      if p a
      then match star p s' k with
           | Some x => Some x
           | None => k s
           end
      else k s
  | EmptyString => k s
  end.

Fixpoint m (r : re) (s : string) (c : caps)
           (k : string -> caps -> option A) : option A :=
  match r with
  | Eps => k s c
  | Eos => match s with EmptyString => k s c | String _ _ => None end
  | Chr p =>
      match s with
      | String a s' => if p a then k s' c else None
      | EmptyString => None
      end
  | Seq r1 r2 => m r1 s c (fun s1 c1 => m r2 s1 c1 k)
  | Alt r1 r2 =>
      match m r1 s c k with
      | Some x => Some x
      | None => m r2 s c k
      end
  | Opt r1 =>
      match m r1 s c k with
      | Some x => Some x
      | None => k s c
      end
  | Star p => star p s (fun s1 => k s1 c)
  | Group n r1 => m r1 s c (fun s1 c1 => k s1 (set_cap n (consumed s s1) c1))
  end.
End Matcher.

(** What a successful run of [m] went through, read off the
    expression alone: [matches r s c s' c'] when [r] can take the
    matcher from position [s] with captures [c] to position [s'] with
    captures [c'].  Priorities are left out. *)
Fixpoint matches (r : re) (s : string) (c : caps) (s' : string) (c' : caps)
  : Prop :=
  match r with
  | Eps => s' = s /\ c' = c
  | Eos => s = EmptyString /\ s' = s /\ c' = c
  | Chr p => exists a, s = String a s' /\ p a = true /\ c' = c
  | Seq r1 r2 =>
      exists s1 c1, matches r1 s c s1 c1 /\ matches r2 s1 c1 s' c'
  | Alt r1 r2 => matches r1 s c s' c' \/ matches r2 s c s' c'
  | Opt r1 => matches r1 s c s' c' \/ (s' = s /\ c' = c)
  | Star p => c' = c /\ (String.length s' <= String.length s)%nat
  | Group n r1 =>
      exists c1, matches r1 s c s' c1 /\ c' = set_cap n (consumed s s') c1
  end.

(** An expression without capture groups. *)
Fixpoint groupless (r : re) : bool :=
  match r with
  | Eps | Eos | Chr _ | Star _ => true
  | Seq r1 r2 | Alt r1 r2 => groupless r1 && groupless r2
  | Opt r1 => groupless r1
  | Group _ _ => false
  end.

(** An expression whose every match begins with a digit. *)
Fixpoint opensWithDigit (r : re) : Prop :=
  match r with
  | Chr p => p = is_digit
  | Seq r1 _ => opensWithDigit r1
  | Group _ r1 => opensWithDigit r1
  | _ => False
  end.

(** A text without digits. *)
Definition digitless (s : string) : Prop :=
  forall a, In a (list_ascii_of_string s) -> is_digit a = false.

Definition startsWithDigit (v : string) : Prop :=
  match v with
  | String a _ => is_digit a = true
  | EmptyString => False
  end.

(** A match anchored at the start of [s]. *)
Definition match_here (r : re) (s : string) : option caps :=
  m r s no_caps (fun _ c => Some c).

(** [s.match(r)] for a regular expression without the [g] flag: the
    leftmost match; only the capture groups are kept. *)
Fixpoint exec (r : re) (s : string) : option caps :=
  match match_here r s with
  | Some c => Some c
  | None =>
      match s with
      | String _ s' => exec r s'
      | EmptyString => None
      end
  end.

(** Building blocks. *)
Definition digit : re := Chr is_digit.
Definition spaces : re := Star is_space.

(** A literal character under the [i] flag. *)
Definition ci (a : ascii) : re :=
  Chr (fun b => Ascii.eqb (lower_ascii b) (lower_ascii a)).

Definition chr (a : ascii) : re := Chr (Ascii.eqb a).

(** A literal word under the [i] flag. *)
Fixpoint word (w : string) : re :=
  match w with
  | EmptyString => Eps
  | String a EmptyString => ci a
  | String a w' => Seq (ci a) (word w')
  end.

Definition seq (rs : list re) : re := fold_right Seq Eps rs.

Fixpoint alt (rs : list re) : re :=
  match rs with
  | [] => Eps
  | [r] => r
  | r :: rs' => Alt r (alt rs')
  end.

(** [(\d{1,2})(?::(\d{2}))?\s*(am|pm)?] with its groups numbered from
    [g]. *)
Definition clock (g : nat) : re :=
  seq [ Group g (Seq digit (Opt digit));
        Opt (Seq (chr ":") (Group (g + 1) (Seq digit digit)));
        spaces;
        Opt (Group (g + 2) (Alt (word "am") (word "pm"))) ].

(** [/(\d{1,2})(?::(\d{2}))?\s*(am|pm)?/i] *)
Definition timePattern : re := clock 1.

(** [/(\d{1,2})(?::(\d{2}))?\s*(am|pm)?\s*-\s*(\d{1,2})(?::(\d{2}))?\s*(am|pm)?/i] *)
Definition rangePattern : re :=
  seq [ clock 1; spaces; chr "-"; spaces; clock 4 ].

(** [/(\d+)\s*(minutes?|hours?|mins?|hrs?|h|m)/i] *)
Definition durationPattern : re :=
  seq [ Group 1 (Seq digit (Star is_digit));
        spaces;
        Group 2 (alt [ Seq (word "minute") (Opt (ci "s"));
                       Seq (word "hour") (Opt (ci "s"));
                       Seq (word "min") (Opt (ci "s"));
                       Seq (word "hr") (Opt (ci "s"));
                       ci "h";
                       ci "m" ]) ].

Definition not_space_at (a : ascii) : bool :=
  negb (is_space a) && negb (Ascii.eqb a "@").

(** [/^[^\s@]+@[^\s@]+\.[^\s@]+$/] *)
Definition emailPattern : re :=
  seq [ Chr not_space_at; Star not_space_at; chr "@";
        Chr not_space_at; Star not_space_at; chr ".";
        Chr not_space_at; Star not_space_at; Eos ].

End Regex.

Import Regex.

(** ** [calendarService.ts] *)

(** [start] and [end] of an event: a precise instant ([dateTime]) or a
    whole-day date ([date]), each kept as the instant it denotes. *)
Record EventTime := {
  dateTime : option Z;
  date : option Z
}.

Record Attendee := {
  email : string;
  displayName : option string
}.

Record CalendarEvent := {
  id : string;
  summary : string;
  description : option string;
  start : EventTime;
  end_ : EventTime;
  attendees : option (list Attendee);
  location : option string
}.

Record CalendarStats := {
  totalMeetings : Z;
  totalHours : Q;
  averageMeetingDuration : Q;
  meetingsByDay : list (string * Z)
}.

Module CalendarService.

(** [(b - a) / (1000 * 60)]: the minutes from [a] to [b]. *)
Definition minutesBetween (a b : Z) : Q :=
  (inject_Z (b - a) / inject_Z (1000 * 60))%Q.

(** [meetingsByDay[dayKey] = (meetingsByDay[dayKey] || 0) + 1] on an
    object whose keys keep their insertion order. *)
Fixpoint bump (dayKey : string) (byDay : list (string * Z)) : list (string * Z) :=
  match byDay with
  | [] => [(dayKey, 0 + 1)]
  | (k, n) :: rest =>
      if String.eqb k dayKey then (k, n + 1) :: rest
      else (k, n) :: bump dayKey rest
  end.

(** The body of the [forEach] callback on the pair
    [(meetingsByDay, totalMinutes)]. *)
Definition visit (acc : list (string * Z) * Q) (event : CalendarEvent)
  : list (string * Z) * Q :=
  let '(byDay, totalMinutes) := acc in
  match dateTime (start event), dateTime (end_ event) with
  | Some startDate, Some endDate =>
      let duration := minutesBetween startDate endDate in
      let dayKey := dateText startDate in
      (bump dayKey byDay, (totalMinutes + duration)%Q)
  | _, _ => acc
  end.

Definition calculateMeetingStats (events : list CalendarEvent) : CalendarStats :=
  let '(byDay, totalMinutes) := fold_left visit events ([], 0%Q) in
  let total := Z.of_nat (List.length events) in
  {| totalMeetings := total;
     totalHours := (totalMinutes / 60)%Q;
     averageMeetingDuration :=
       if 0 <? total then (totalMinutes / inject_Z total)%Q else 0%Q;
     meetingsByDay := byDay |}.

(** An event with a precise start and end, as the guard of the
    statistics loop reads it. *)
Definition isTimed (event : CalendarEvent) : bool :=
  present (dateTime (start event)) && present (dateTime (end_ event)).

(** A whole-day event: neither its start nor its end is a precise
    instant. *)
Definition isWholeDay (event : CalendarEvent) : bool :=
  negb (present (dateTime (start event)))
  && negb (present (dateTime (end_ event))).

(** The calendar date of an instant in a host whose local time is
    [tz] minutes ahead of UTC, formatted [YYYY-MM-DD]. *)
Definition localDateKey (tz t : Z) : string := dateText (localTime tz t).

End CalendarService.

Import CalendarService.

(** ** [openaiService.ts] *)

(** The argument bag of a function call, with the fields the operations
    read, typed as the tool schema declares them. *)
Module Args.
Record t := {
  recipients : option (list string);
  avoidMornings : option bool;
  timeframe : option string;
  focusArea : option string;
  filter : option string;
  duration : option string;
  preferredDate : option string;
  preferredTimeRange : option string;
  summary : option string;
  description : option string;
  startTime : option string;
  endTime : option string;
  attendees : option (list string);
  location : option string;
  reminder : option Z;
  eventId : option string;
  eventTitle : option string
}.

(** [{}] *)
Definition empty : t :=
  {| recipients := None; avoidMornings := None; timeframe := None;
     focusArea := None; filter := None; duration := None;
     preferredDate := None; preferredTimeRange := None; summary := None;
     description := None; startTime := None; endTime := None;
     attendees := None; location := None; reminder := None;
     eventId := None; eventTitle := None |}.
End Args.

(** A free period [{ start, end }]. *)
Module Slot.
Record t := { start : Z; end_ : Z }.
End Slot.

(** A busy period of the sweep: [start] is valid, [end] is the invalid
    date when the event has no [end.dateTime]. *)
Module Span.
Record t := { start : Z; end_ : option Z }.
End Span.

(** The environment of the service. *)
Record Host := {
  (** local time minus UTC, in minutes *)
  tz : Z;
  (** [new Date(text).getTime()], [None] for NaN *)
  Date_parse : string -> option Z;
  (** [JSON.parse(text)]: [None] when it throws a SyntaxError,
      [Some None] when the text spells [null], else the properties that
      the operations read off the value (none for a number, a string, a
      boolean or an array) *)
  JSON_parse : string -> option (option Args.t);
  (** [gapi.client.calendar.events.get], [None] when the call is rejected *)
  events_get : string -> option CalendarEvent
}.

(** What [resolveEvent] returns.  The rendered message of
    [multiple_found] is [formatEventOptions(options, matchType)]; it is
    kept as its two arguments. *)
Inductive NotFoundMessage :=
| PleaseSpecify
| NoEventsMatching (searchQuery : string).

Inductive Resolution :=
| found (eventId : string) (title : string)
| multiple_found (options : list CalendarEvent) (matchType : string)
| not_found (message : NotFoundMessage).

(** The payload sent to [events.update]; an absent [start] or [end] is a
    property that was never assigned. *)
Module EventData.
Record t := {
  summary : string;
  description : option string;
  attendees : option (list Attendee);
  location : option string;
  start : option EventTime;
  end_ : option EventTime
}.
End EventData.

(** The payload that [createCalendarEvent] hands to [events.insert];
    an absent field is a property that was never assigned.  The
    reminder stands for the two overrides built from it. *)
Module NewEvent.
Record t := {
  summary : option string;
  description : string;
  start : EventTime;
  end_ : EventTime;
  attendees : option (list Attendee);
  location : option string;
  reminder : option Z
}.
End NewEvent.

(** An event of the conflict finder: [{ ...event, start, end }] with the
    two times as dates. *)
Record TimedEvent := {
  original : CalendarEvent;
  startDate : Z;
  endDate : Z
}.

Record Conflict := {
  event1 : TimedEvent;
  event2 : TimedEvent;
  overlapDuration : Q;
  conflictType : string
}.

(** The text an operation returns, kept as the data it is rendered
    from.  A [...Submitted] reply stands for the call of the calendar
    backend with the data it carries, whatever the backend answers; a
    [...Failed] reply is the failure text of the [catch] block when
    the operation throws before that call. *)
Inductive Reply :=
| EmailDrafts (recipients : list string)
| MeetingAnalysis (timeframe : string)
| Recommendations (focusArea : option string)
| ConflictReport (timeframe : string) (conflicts : list Conflict)
| SlotReport (slots : list Slot.t)
| Clarification (missing : list string)
| ResolutionMessage (r : Resolution)
| CreateSubmitted (eventData : NewEvent.t)
| CreateFailed
| UpdateSubmitted (eventId : string) (eventData : EventData.t)
| UpdateFailed
| DeleteSubmitted (eventId : string)
| DeleteFailed
| EventList (filteredEvents : list CalendarEvent)
| DontKnow
| ServiceTrouble.

Module OpenAIService.

Section Parsers.
Variable host : Host.

(** The two meridiem adjustments that follow every clock match:
    [if (period?.toLowerCase() === 'pm' && hour !== 12) hour += 12;
     if (period?.toLowerCase() === 'am' && hour === 12) hour = 0;] *)
Definition periodIs (period : option string) (p : string) : bool :=
  match period with
  | Some s => String.eqb (toLowerCase s) p
  | None => false
  end.

Definition isTwelve (hour : option Z) : bool :=
  match hour with
  | Some h => h =? 12
  | None => false
  end.

Definition meridiem (period : option string) (hour : option Z) : option Z :=
  let hour1 :=
    if periodIs period "pm" && negb (isTwelve hour)
    then option_map (fun h => h + 12) hour else hour in
  if periodIs period "am" && isTwelve hour1 then Some 0 else hour1.

(** [minutes ? parseInt(minutes) : 0] *)
Definition minuteOf (minutes : option string) : option Z :=
  if truthy minutes then parseInt minutes else Some 0.

Definition parseTimeForDate (dateTimeStr : string) (baseDate : option Z)
  : option Z :=
  match exec timePattern dateTimeStr with
  | Some timeMatch =>
      let hour := meridiem (timeMatch 3%nat) (parseInt (timeMatch 1%nat)) in
      let minute := minuteOf (timeMatch 2%nat) in
      setHours (tz host) baseDate hour minute
  | None => baseDate
  end.

(** [now] is the clock reading of [getLocalNow()]. *)
Definition parseDateTime (now : Z) (dateTimeStr : string) : option Z :=
  if includes (toLowerCase dateTimeStr) "today"
  then parseTimeForDate dateTimeStr (Some now)
  else if includes (toLowerCase dateTimeStr) "tomorrow"
  then parseTimeForDate dateTimeStr (addDays (Some now) 1)
  else match Date_parse host dateTimeStr with
       | Some parsed => Some parsed
       | None =>
           match exec timePattern dateTimeStr with
           | Some _ => parseTimeForDate dateTimeStr (Some now)
           | None => Some now
           end
       end.

(** [unit.toLowerCase()] throws when the second group is
    [undefined]. *)
Definition parseDurationToMinutes (duration : string) : result (option Z) :=
  match exec durationPattern duration with
  | None => Ok (Some 60)
  | Some matched =>
      let value := parseInt (matched 1%nat) in
      match matched 2%nat with
      | None => Throw TypeError
      | Some unit =>
          if startsWith (toLowerCase unit) "h"
          then Ok (option_map (fun v => toNumber (v * 60)) value)
          else Ok value
      end
  end.

Definition parseTimeRange (timeRange : string) (date : option Z)
  : option Z * option Z :=
  match exec rangePattern timeRange with
  | Some rangeMatch =>
      let startHour := meridiem (rangeMatch 3%nat) (parseInt (rangeMatch 1%nat)) in
      let startMinute := minuteOf (rangeMatch 2%nat) in
      let endHour := meridiem (rangeMatch 6%nat) (parseInt (rangeMatch 4%nat)) in
      let endMinute := minuteOf (rangeMatch 5%nat) in
      (setHours (tz host) date startHour startMinute,
       setHours (tz host) date endHour endMinute)
  | None =>
      let lowered := toLowerCase timeRange in
      let '(startHour, endHour) :=
        if String.eqb lowered "morning" then (8, 12)
        else if String.eqb lowered "afternoon" then (12, 17)
        else if String.eqb lowered "evening" then (17, 21)
        else (9, 17) in
      (setHours (tz host) date (Some startHour) (Some 0),
       setHours (tz host) date (Some endHour) (Some 0))
  end.

(** [new Date(now.getFullYear(), now.getMonth(), now.getDate())] *)
Definition getLocalToday (now : Z) : option Z :=
  setHours (tz host) (Some now) (Some 0) (Some 0).

Definition getTargetDate (now : Z) (preferredDate : string) : option Z :=
  if includes (toLowerCase preferredDate) "today" then getLocalToday now
  else if includes (toLowerCase preferredDate) "tomorrow"
  then addDays (getLocalToday now) 1
  else match Date_parse host preferredDate with
       | Some parsed => Some parsed
       | None => getLocalToday now
       end.

End Parsers.

(** *** The free-slot sweep *)

(** [events.filter(e => e.start.dateTime).map(e => ({ start, end }))] *)
Definition timedSpans (events : list CalendarEvent) : list Span.t :=
  flat_map
    (fun event =>
       match dateTime (start event) with
       | Some s => [ {| Span.start := s; Span.end_ := dateTime (end_ event) |} ]
       | None => []
       end)
    events.

(** [.sort((a, b) => a.start.getTime() - b.start.getTime())] *)
Definition sortByStart (spans : list Span.t) : list Span.t :=
  sortByKey Span.start spans.

(** [(to - from) / (1000 * 60) >= durationMinutes]; a comparison with
    NaN is false. *)
Definition fits (from_ to_ : option Z) (durationMinutes : option Z) : bool :=
  match from_, to_, durationMinutes with
  | Some a, Some b, Some d => Qle_bool (inject_Z d) (minutesBetween a b)
  | _, _, _ => false
  end.

(** The slot pushed at [currentTime]. *)
Definition slotAt (currentTime : option Z) (durationMinutes : option Z)
  : list Slot.t :=
  match currentTime, durationMinutes with
  | Some c, Some d => [ {| Slot.start := c; Slot.end_ := c + d * 60 * 1000 |} ]
  | _, _ => []
  end.

(** [new Date(Math.max(currentTime.getTime(), event.end.getTime()))] *)
Definition later (currentTime eventEnd : option Z) : option Z :=
  match currentTime, eventEnd with
  | Some c, Some e => Some (Z.max c e)
  | _, _ => None
  end.

(** The [for] loop over the sorted events followed by the check after
    the last event; the slots appear in the order they are pushed. *)
Fixpoint sweep (sortedEvents : list Span.t) (currentTime dayEnd : option Z)
               (durationMinutes : option Z) : list Slot.t :=
  match sortedEvents with
  | event :: rest =>
      (if fits currentTime (Some (Span.start event)) durationMinutes
       then slotAt currentTime durationMinutes else [])
      ++ sweep rest (later currentTime (Span.end_ event)) dayEnd durationMinutes
  | [] =>
      if fits currentTime dayEnd durationMinutes
      then slotAt currentTime durationMinutes else []
  end.

Definition findFreeSlots (events : list CalendarEvent)
                         (dayStart dayEnd : option Z)
                         (durationMinutes : option Z) : list Slot.t :=
  sweep (sortByStart (timedSpans events)) dayStart dayEnd durationMinutes.

(** [a.toDateString() === b.toDateString()] *)
Definition sameLocalDay (tz : Z) (a b : option Z) : bool :=
  match a, b with
  | Some x, Some y => localTime tz x / msPerDay =? localTime tz y / msPerDay
  | None, None => true
  | _, _ => false
  end.

(** [new Date(t.dateTime || t.date || '')] *)
Definition eventDate (t : EventTime) : option Z :=
  match dateTime t with
  | Some x => Some x
  | None => date t
  end.

Definition findAvailableTimeSlots (host : Host) (now : Z) (args : Args.t)
                                  (events : list CalendarEvent) : result Reply :=
  let duration := or_default (Args.duration args) "1 hour" in
  let preferredDate := or_default (Args.preferredDate args) "today" in
  let preferredTimeRange := or_default (Args.preferredTimeRange args) "9am-5pm" in
  bind (parseDurationToMinutes duration) (fun durationMinutes =>
    let targetDate := getTargetDate host now preferredDate in
    let '(startTime, endTime) := parseTimeRange host preferredTimeRange targetDate in
    let dayEvents :=
      List.filter (fun event => sameLocalDay (tz host) (eventDate (start event)) targetDate)
                  events in
    Ok (SlotReport (findFreeSlots dayEvents startTime endTime durationMinutes))).

(** *** Conflict severity *)

Definition getConflictType (overlapDuration : Q) : string :=
  if Qle_bool 60 overlapDuration then "Major Conflict (1+ hour overlap)"
  else if Qle_bool 30 overlapDuration then "Significant Conflict (30+ minutes)"
  else if Qle_bool 15 overlapDuration then "Moderate Conflict (15+ minutes)"
  else "Minor Conflict (< 15 minutes)".

(** *** Event resolution *)

(** The hour and minute a query asks for, when it holds a clock
    time. *)
Definition searchClock (searchQuery : string) : option (option Z * option Z) :=
  match exec timePattern searchQuery with
  | None => None
  | Some timeMatch =>
      Some (meridiem (timeMatch 3%nat) (parseInt (timeMatch 1%nat)),
            minuteOf (timeMatch 2%nat))
  end.

(** [eventDate.getHours() === searchHour &&
     eventDate.getMinutes() === searchMinute], false on NaN. *)
Definition startsAt (tz : Z) (searchHour searchMinute : option Z)
                    (event : CalendarEvent) : bool :=
  match dateTime (start event), searchHour, searchMinute with
  | Some eventDate, Some h, Some m =>
      (getHours tz eventDate =? h) && (getMinutes tz eventDate =? m)
  | _, _, _ => false
  end.

Definition findEventsByTime (tz : Z) (searchQuery : string)
                            (events : list CalendarEvent) : list CalendarEvent :=
  match searchClock searchQuery with
  | None => []
  | Some (searchHour, searchMinute) =>
      List.filter (startsAt tz searchHour searchMinute) events
  end.

(** The two outcomes shared by the three stages once a stage has
    matches. *)
Definition settle (matches : list CalendarEvent) (matchType : string)
                  (otherwise : Resolution) : Resolution :=
  match matches with
  | [] => otherwise
  | [only] => found (id only) (summary only)
  | _ :: _ :: _ => multiple_found matches matchType
  end.

Definition exactMatches (searchLower : string) (events : list CalendarEvent) :=
  List.filter (fun event => String.eqb (toLowerCase (summary event)) searchLower)
              events.

Definition partialMatches (searchLower : string) (events : list CalendarEvent) :=
  List.filter
    (fun event =>
       includes (toLowerCase (summary event)) searchLower
       || includes searchLower (toLowerCase (summary event)))
    events.

Definition resolveEvent (tz : Z) (searchQuery : option string)
                        (events : list CalendarEvent) : Resolution :=
  match searchQuery with
  | None | Some EmptyString => not_found PleaseSpecify
  | Some query =>
      let searchLower := toLowerCase query in
      settle (exactMatches searchLower events) "exact title matches"
        (settle (partialMatches searchLower events) "partial title matches"
           (settle (findEventsByTime tz query events) "time matches"
              (not_found (NoEventsMatching query))))
  end.

(** The same event under another identifier, and a resolution read
    through such a renaming. *)
Definition withId (f : string -> string) (event : CalendarEvent) : CalendarEvent :=
  {| id := f (id event); summary := summary event;
     description := description event; start := start event;
     end_ := end_ event; attendees := attendees event;
     location := location event |}.

Definition relabel (f : string -> string) (r : Resolution) : Resolution :=
  match r with
  | found eventId title => found (f eventId) title
  | multiple_found options matchType =>
      multiple_found (map (withId f) options) matchType
  | not_found message => not_found message
  end.

(** *** Validation *)

Definition meetingKeywords : list string :=
  [ "meeting"; "meet"; "call"; "conference"; "discussion"; "review"; "standup";
    "sync"; "check-in"; "checkin"; "interview"; "presentation"; "demo";
    "workshop"; "training"; "brainstorm"; "planning"; "retrospective";
    "1:1"; "one-on-one"; "team"; "client"; "customer"; "stakeholder" ].

Definition seemsLikeMeeting (summary : string) : bool :=
  let lowerSummary := toLowerCase summary in
  existsb (fun keyword => includes lowerSummary keyword) meetingKeywords.

Definition isValidEmail (email : string) : bool :=
  match match_here emailPattern email with
  | Some _ => true
  | None => false
  end.

(** The validators return [{ isValid, message }]; the message lists
    the entries of [missing], and [isValid] is [missing.length === 0]. *)
Definition validateEventCreation (args : Args.t) : list string :=
  (if truthy (Args.summary args) then []
   else ["event title (what's the event called?)"])
  ++ (if truthy (Args.startTime args) then []
      else ["start time (when should the event begin?)"])
  ++ (if truthy (Args.endTime args) || truthy (Args.duration args) then []
      else ["end time or duration (how long should it last?)"])
  ++ (match Args.summary args with
      | Some (String c s) =>
          if seemsLikeMeeting (String c s) && negb (present (Args.attendees args))
          then ["attendee emails (who should be invited to this meeting?)"]
          else []
      | _ => []
      end)
  ++ (match Args.attendees args with
      | Some emails =>
          match List.filter (fun e => negb (isValidEmail e)) emails with
          | [] => []
          | invalidEmails =>
              ["valid email addresses for attendees (invalid: "
                 ++ String.concat ", " invalidEmails ++ ")"]
          end
      | None => []
      end).

Definition validateEventUpdate (args : Args.t) : list string :=
  let hasUpdateFields :=
    truthy (Args.summary args) || truthy (Args.description args)
    || truthy (Args.startTime args) || truthy (Args.endTime args)
    || present (Args.attendees args) || truthy (Args.location args)
    || truthy (Args.duration args) in
  (if truthy (Args.eventId args) || truthy (Args.eventTitle args)
      || truthy (Args.summary args)
   then [] else ["event identification (which event do you want to update?)"])
  ++ (if hasUpdateFields then []
      else ["update details (what do you want to change?)"]).

Definition validateEventDelete (args : Args.t) : list string :=
  if truthy (Args.eventId args) || truthy (Args.eventTitle args)
     || truthy (Args.summary args)
  then [] else ["event identification (which event do you want to delete?)"].

(** [args.eventId || args.eventTitle || args.summary] *)
Definition identification (args : Args.t) : option string :=
  or_else (or_else (Args.eventId args) (Args.eventTitle args)) (Args.summary args).

(** *** Building the update payload *)

(** [{ dateTime: d.toISOString(), timeZone }] *)
Definition preciseTime (d : option Z) : result EventTime :=
  bind (toISOString d) (fun t => Ok {| dateTime := Some t; date := None |}).

(** [(endTime.getTime() - startTime.getTime()) / (1000 * 60)] in
    double precision, [60] without a precise span. *)
Definition existingDurationMinutes (existingEvent : CalendarEvent) : Q :=
  match dateTime (start existingEvent), dateTime (end_ existingEvent) with
  | Some startTime, Some endTime =>
      fl (fl (inject_Z (endTime - startTime)) / inject_Z (1000 * 60))
  | _, _ => 60%Q
  end.

(** [new Date(newStartTime.getTime() + existingDurationMinutes * 60 * 1000)],
    each operation rounded. *)
Definition preservedEnd (newStartTime : Z) (existingDurationMinutes : Q)
  : option Z :=
  dateOfNumber
    (fl (inject_Z newStartTime + fl (fl (existingDurationMinutes * 60) * 1000))).

(** The [start] and [end] properties after the "Handle time updates"
    block. *)
Definition timeUpdates (host : Host) (now : Z) (args : Args.t)
                       (existingEvent : CalendarEvent)
  : result (option EventTime * option EventTime) :=
  match guarded (Args.startTime args) with
  | Some startTime =>
      let newStartTime := parseDateTime host now startTime in
      bind (preciseTime newStartTime) (fun newStart =>
        if negb (truthy (Args.endTime args)) && negb (truthy (Args.duration args))
        then
          let newEndTime :=
            match newStartTime with
            | Some t => preservedEnd t (existingDurationMinutes existingEvent)
            | None => None
            end in
          bind (preciseTime newEndTime) (fun newEnd =>
            Ok (Some newStart, Some newEnd))
        else Ok (Some newStart, None))
  | None =>
      match guarded (Args.endTime args) with
      | Some endTime =>
          bind (preciseTime (parseDateTime host now endTime)) (fun newEnd =>
            Ok (Some (start existingEvent), Some newEnd))
      | None => Ok (Some (start existingEvent), Some (end_ existingEvent))
      end
  end.

(** The "Handle duration override" block; [now'] is the clock at its
    call of [parseDateTime]. *)
Definition durationOverride (host : Host) (now' : Z) (args : Args.t)
                            (endSoFar : option EventTime)
  : result (option EventTime) :=
  match guarded (Args.duration args), guarded (Args.startTime args) with
  | Some duration, Some startTime =>
      let startDate := parseDateTime host now' startTime in
      bind (parseDurationToMinutes duration) (fun durationMinutes =>
        let endDate :=
          match startDate, durationMinutes with
          | Some t, Some d => timeClip (t + d * 60 * 1000)
          | _, _ => None
          end in
        bind (preciseTime endDate) (fun newEnd => Ok (Some newEnd)))
  | _, _ => Ok endSoFar
  end.

(** [eventData] as it is handed to [events.update]. *)
Definition updateEventData (host : Host) (now now' : Z) (args : Args.t)
                           (existingEvent : CalendarEvent)
  : result EventData.t :=
  bind (timeUpdates host now args existingEvent) (fun '(newStart, endSoFar) =>
  bind (durationOverride host now' args endSoFar) (fun newEnd =>
    Ok {| EventData.summary := or_default (Args.summary args) (summary existingEvent);
          EventData.description :=
            or_else (Args.description args) (description existingEvent);
          EventData.attendees :=
            match Args.attendees args with
            | Some emails =>
                Some (map (fun e => {| email := e; displayName := None |}) emails)
            | None => attendees existingEvent
            end;
          EventData.location :=
            if truthy (Args.location args) then Args.location args
            else if truthy (location existingEvent) then location existingEvent
            else None;
          EventData.start := newStart;
          EventData.end_ := newEnd |})).

(** *** The operations and the dispatcher *)

(** The calls on [window.gapi] sit in a [try] block whose [catch]
    returns the failure text; validation and resolution come before
    it. *)
Definition updateCalendarEvent (host : Host) (now now' : Z) (args : Args.t)
                               (events : list CalendarEvent) : Reply :=
  match validateEventUpdate args with
  | (_ :: _) as missing => Clarification missing
  | [] =>
      match resolveEvent (tz host) (identification args) events with
      | found eventId _ =>
          match events_get host eventId with
          | Some existingEvent =>
              match updateEventData host now now' args existingEvent with
              | Ok eventData => UpdateSubmitted eventId eventData
              | Throw _ => UpdateFailed
              end
          | None => UpdateFailed
          end
      | unresolved => ResolutionMessage unresolved
      end
  end.

Definition deleteCalendarEvent (host : Host) (args : Args.t)
                               (events : list CalendarEvent) : Reply :=
  match validateEventDelete args with
  | (_ :: _) as missing => Clarification missing
  | [] =>
      match resolveEvent (tz host) (identification args) events with
      | found eventId _ =>
          match events_get host eventId with
          | Some _ => DeleteSubmitted eventId
          | None => DeleteFailed
          end
      | unresolved => ResolutionMessage unresolved
      end
  end.

(** [d.toISOString()] as the text it is: [YYYY-MM-DDTHH:mm:ss.sssZ]. *)
Definition isoText (t : Z) : string :=
  dateText t ++ "T" ++ pad 2 ((t mod msPerDay) / msPerHour) ""
  ++ ":" ++ pad 2 ((t mod msPerHour) / msPerMinute) ""
  ++ ":" ++ pad 2 ((t mod msPerMinute) / 1000) ""
  ++ "." ++ pad 3 (t mod 1000) "" ++ "Z".


(** [this.parseDateTime(v)] on a field of the request:
    [dateTimeStr.toLowerCase()] throws on [undefined]. *)
Definition parseDateTimeOf (host : Host) (now : Z) (v : option string)
  : result (option Z) :=
  match v with
  | Some text => Ok (parseDateTime host now text)
  | None => Throw TypeError
  end.

(** The value of [args.endTime || (() => { ... })()]: the end as the
    request spells it, else the ISO text of the start, read again at
    [now2], plus the duration; then what [parseDateTime] makes of it.
    The clock is read at [now2] for the first [parseDateTime] of this
    step and at [now3] for the one that reads the ISO text; the sum is
    a date only inside the range of dates, and [toISOString] throws on
    the invalid date. *)
Definition createdEnd (host : Host) (now2 now3 : Z) (args : Args.t)
  : result (option Z) :=
  if truthy (Args.endTime args)
  then parseDateTimeOf host now2 (Args.endTime args)
  else
    bind (parseDateTimeOf host now2 (Args.startTime args)) (fun startDate =>
    bind (match guarded (Args.duration args) with
          | Some duration => parseDurationToMinutes duration
          | None => Ok (Some 60)
          end) (fun durationMinutes =>
    bind (toISOString
            (match startDate, durationMinutes with
             | Some t, Some d => timeClip (t + d * 60 * 1000)
             | _, _ => None
             end)) (fun endInstant =>
    Ok (parseDateTime host now3 (isoText endInstant))))).

(** [eventData] of [createCalendarEvent], built inside its [try]
    block; [now1] is the clock at the [parseDateTime] of the start. *)
Definition createEventData (host : Host) (now1 now2 now3 : Z) (args : Args.t)
  : result NewEvent.t :=
  bind (parseDateTimeOf host now1 (Args.startTime args)) (fun startDate =>
  bind (preciseTime startDate) (fun newStart =>
  bind (createdEnd host now2 now3 args) (fun endDate =>
  bind (preciseTime endDate) (fun newEnd =>
    Ok {| NewEvent.summary := Args.summary args;
          NewEvent.description := or_default (Args.description args) "";
          NewEvent.start := newStart;
          NewEvent.end_ := newEnd;
          NewEvent.attendees :=
            option_map (map (fun e => {| email := e; displayName := None |}))
                       (Args.attendees args);
          NewEvent.location := guarded (Args.location args);
          NewEvent.reminder :=
            match Args.reminder args with
            | Some minutes => if minutes =? 0 then None else Some minutes
            | None => None
            end |})))).

(** The payload is built inside the [try] block whose [catch]
    returns the failure text; validation comes before it. *)
Definition createCalendarEvent (host : Host) (now1 now2 now3 : Z) (args : Args.t)
  : Reply :=
  match validateEventCreation args with
  | (_ :: _) as missing => Clarification missing
  | [] =>
      match createEventData host now1 now2 now3 args with
      | Ok eventData => CreateSubmitted eventData
      | Throw _ => CreateFailed
      end
  end.

(** [recipients.forEach(...)] throws on [undefined]. *)
Definition generateEmailDrafts (recipients : option (list string)) : result Reply :=
  match recipients with
  | Some people => Ok (EmailDrafts people)
  | None => Throw TypeError
  end.

(** [timeframe: string = 'month'] *)
Definition analyzeMeetingTime (stats : CalendarStats) (timeframe : option string)
  : result Reply :=
  Ok (MeetingAnalysis (match timeframe with Some t => t | None => "month" end)).

(** The body is one [try] whose [catch] returns the fallback text. *)
Definition provideRecommendations (stats : CalendarStats) (focusArea : option string)
  : result Reply :=
  Ok (Recommendations focusArea).

(** [getLocalEventTime]: the precise time, else the whole-day date,
    else the current time. *)
Definition getLocalEventTime (now : Z) (eventTime : EventTime) : Z :=
  match dateTime eventTime with
  | Some t => t
  | None =>
      match date eventTime with
      | Some d => d
      | None => now
      end
  end.

(** The [switch (timeframe.toLowerCase())] that both the conflict finder
    and the event list filter with; [now] is the clock of the call. *)
Definition inTimeframe (tz now : Z) (timeframe : string) (event : CalendarEvent)
  : bool :=
  let today := localMidnight tz now in
  let eventDate := getLocalEventTime now (start event) in
  let lowered := toLowerCase timeframe in
  if String.eqb lowered "today"
  then sameLocalDay tz (Some eventDate) (Some today)
  else if String.eqb lowered "tomorrow"
  then sameLocalDay tz (Some eventDate) (Some (today + msPerDay))
  else if String.eqb lowered "week" || String.eqb lowered "this week"
  then (today <=? eventDate) && (eventDate <=? today + 7 * msPerDay)
  else if String.eqb lowered "month"
  then (today <=? eventDate) && (eventDate <=? endOfMonth tz now)
  else true.

(** The inner loop: [event1] against each later event. *)
Definition overlapsWith (first : TimedEvent) (laterEvents : list TimedEvent)
  : list Conflict :=
  flat_map
    (fun second =>
       let overlapStart := Z.max (startDate first) (startDate second) in
       let overlapEnd := Z.min (endDate first) (endDate second) in
       if overlapStart <? overlapEnd
       then
         let minutes := minutesBetween overlapStart overlapEnd in
         [ {| event1 := first; event2 := second;
              overlapDuration := minutes;
              conflictType := getConflictType minutes |} ]
       else [])
    laterEvents.

(** The outer loop over the sorted events. *)
Fixpoint allOverlaps (sortedEvents : list TimedEvent) : list Conflict :=
  match sortedEvents with
  | [] => []
  | first :: rest => overlapsWith first rest ++ allOverlaps rest
  end.

(** [timeframe.toLowerCase()] throws on [undefined]. *)
Definition findConflicts (tz now : Z) (timeframe : option string)
                         (events : list CalendarEvent) : result Reply :=
  match timeframe with
  | None => Throw TypeError
  | Some period =>
      let timeframeEvents := List.filter (inTimeframe tz now period) events in
      let sortedEvents :=
        sortByKey startDate
          (map (fun e => {| original := e;
                            startDate := getLocalEventTime now (start e);
                            endDate := getLocalEventTime now (end_ e) |})
               (List.filter (fun e => present (dateTime (start e))) timeframeEvents)) in
      Ok (ConflictReport period (allOverlaps sortedEvents))
  end.

(** Both filters are guarded, [if (timeframe)] and [if (filter)]. *)
Definition listUpcomingEvents (tz now : Z) (events : list CalendarEvent)
                              (timeframe filter : option string) : result Reply :=
  let inPeriod :=
    match guarded timeframe with
    | Some period => List.filter (inTimeframe tz now period) events
    | None => events
    end in
  let filteredEvents :=
    match guarded filter with
    | Some keyword =>
        List.filter
          (fun e =>
             includes (toLowerCase (summary e)) (toLowerCase keyword)
             || match guarded (description e) with
                | Some text => includes (toLowerCase text) (toLowerCase keyword)
                | None => false
                end)
          inPeriod
    | None => inPeriod
    end in
  Ok (EventList filteredEvents).

(** [functionCall.arguments]: a string still to be parsed, or a value
    that needs no parsing ([undefined] included). *)
Inductive Arguments :=
| Text (json : string)
| Parsed (bag : option Args.t).

(** [parsedArgs]: [None] when it is [null], on which every property
    access throws. *)
Definition parseArguments (host : Host) (args : Arguments) : option Args.t :=
  match args with
  | Text json =>
      match JSON_parse host json with
      | Some parsedArgs => parsedArgs
      | None => Some Args.empty
      end
  | Parsed (Some bag) => Some bag
  | Parsed None => Some Args.empty
  end.

(** The names that the [switch] knows; each of their branches reads a
    property of [parsedArgs] first. *)
Definition knownOperations : list string :=
  [ "generate_email_drafts"; "analyze_meeting_time"; "provide_recommendations";
    "find_conflicts"; "find_available_time_slots"; "create_calendar_event";
    "update_calendar_event"; "delete_calendar_event"; "list_upcoming_events" ].

(** [now] is the first reading of the clock by the operation that is
    called and [now'] stands for its later readings. *)
Definition handleFunctionCall (host : Host) (now now' : Z)
                              (name : string) (args : Arguments)
                              (events : list CalendarEvent) (stats : CalendarStats)
  : result Reply :=
  match parseArguments host args with
  | None =>
      if existsb (String.eqb name) knownOperations
      then Throw TypeError else Ok DontKnow
  | Some parsedArgs =>
      if String.eqb name "generate_email_drafts"
      then generateEmailDrafts (Args.recipients parsedArgs)
      else if String.eqb name "analyze_meeting_time"
      then analyzeMeetingTime stats (Args.timeframe parsedArgs)
      else if String.eqb name "provide_recommendations"
      then provideRecommendations stats (Args.focusArea parsedArgs)
      else if String.eqb name "find_conflicts"
      then findConflicts (tz host) now (Args.timeframe parsedArgs) events
      else if String.eqb name "find_available_time_slots"
      then findAvailableTimeSlots host now parsedArgs events
      else if String.eqb name "create_calendar_event"
      then Ok (createCalendarEvent host now now' now' parsedArgs)
      else if String.eqb name "update_calendar_event"
      then Ok (updateCalendarEvent host now now' parsedArgs events)
      else if String.eqb name "delete_calendar_event"
      then Ok (deleteCalendarEvent host parsedArgs events)
      else if String.eqb name "list_upcoming_events"
      then listUpcomingEvents (tz host) now events
                              (Args.timeframe parsedArgs) (Args.filter parsedArgs)
      else Ok DontKnow
  end.

(** The call of the dispatcher in [processCalendarQuery]: it sits in
    a [try] whose [catch] answers that the AI services cannot be
    reached. *)
Definition answerToolCall (host : Host) (now now' : Z)
                          (name : string) (args : Arguments)
                          (events : list CalendarEvent) (stats : CalendarStats)
  : Reply :=
  match handleFunctionCall host now now' name args events stats with
  | Ok reply => reply
  | Throw _ => ServiceTrouble
  end.

End OpenAIService.

Import OpenAIService.

(** ** Further functions of the services *)

(** The events handed to the two loops of [findConflicts]: those of the
    period that have a precise start, with their two times as dates,
    before they are sorted. *)
Definition conflictCandidates (tz now : Z) (period : string)
                              (events : list CalendarEvent) : list TimedEvent :=
  map (fun e => {| original := e;
                   startDate := getLocalEventTime now (start e);
                   endDate := getLocalEventTime now (end_ e) |})
      (List.filter (fun e => present (dateTime (start e)))
                   (List.filter (inTimeframe tz now period) events)).

(** Two events whose time spans share more than an instant, as the
    loops test it. *)
Definition intersect (a b : TimedEvent) : Prop :=
  Z.max (startDate a) (startDate b) < Z.min (endDate a) (endDate b).

(** The record pushed for a pair. *)
Definition conflictOf (first second : TimedEvent) : Conflict :=
  let overlapStart := Z.max (startDate first) (startDate second) in
  let overlapEnd := Z.min (endDate first) (endDate second) in
  {| event1 := first; event2 := second;
     overlapDuration := minutesBetween overlapStart overlapEnd;
     conflictType := getConflictType (minutesBetween overlapStart overlapEnd) |}.

(** The start of an event that has passed the filter on
    [start.dateTime]; the other branch is never reached behind it. *)
Definition startOf (e : CalendarEvent) : Z :=
  match dateTime (start e) with
  | Some t => t
  | None => 0
  end.

(** [events.filter(e => e.start.dateTime)
          .filter(e => new Date(e.start.dateTime) < time)
          .sort((a, b) => start(b) - start(a))], then the first element
    or [null]. *)
Definition findEventBeforeTime (events : list CalendarEvent) (time : Z)
  : option CalendarEvent :=
  let beforeEvents :=
    sortByKey (fun e => - startOf e)
      (List.filter (fun e => startOf e <? time)
         (List.filter (fun e => present (dateTime (start e))) events)) in
  match beforeEvents with
  | first :: _ => Some first
  | [] => None
  end.

(** The same with [>] and the ascending sort. *)
Definition findEventAfterTime (events : list CalendarEvent) (time : Z)
  : option CalendarEvent :=
  let afterEvents :=
    sortByKey startOf
      (List.filter (fun e => time <? startOf e)
         (List.filter (fun e => present (dateTime (start e))) events)) in
  match afterEvents with
  | first :: _ => Some first
  | [] => None
  end.

(** Two free periods in a row: the first has ended when the second
    starts. *)
Definition slotBefore (a b : Slot.t) : Prop := Slot.end_ a <= Slot.start b.

(** [String(n)]: the decimal text of a natural number. *)
Definition decimal (n : nat) : string :=
  NilEmpty.string_of_uint (Nat.to_uint n).

(** A text made of characters of one class. *)
Definition allOf (p : ascii -> bool) (s : string) : Prop :=
  forall a, In a (list_ascii_of_string s) -> p a = true.

(** An expression whose every match takes at least one character. *)
Fixpoint takesOne (r : re) : Prop :=
  match r with
  | Chr _ => True
  | Seq r1 _ => takesOne r1
  | Alt r1 r2 => takesOne r1 /\ takesOne r2
  | Group _ r1 => takesOne r1
  | _ => False
  end.

(** One or two digits. *)
Definition hourDigits (hd : string) : Prop :=
  exists d1, is_digit d1 = true /\
    (hd = String d1 EmptyString \/ exists d2, is_digit d2 = true /\ hd = String d1 (String d2 EmptyString)).

(** [meetingsByDay[dayKey] || 0] *)
Definition countOn (dayKey : string) (byDay : list (string * Z)) : Z :=
  match find (fun entry => String.eqb (fst entry) dayKey) byDay with
  | Some (_, n) => n
  | None => 0
  end.

(** A timed event whose start falls on the UTC day [dayKey]. *)
Definition startsOnDay (dayKey : string) (event : CalendarEvent) : bool :=
  match dateTime (start event), dateTime (end_ event) with
  | Some startDate, Some _ => String.eqb (dateText startDate) dayKey
  | _, _ => false
  end.

(** The minutes of a timed event, none for any other. *)
Definition meetingMinutes (event : CalendarEvent) : Q :=
  match dateTime (start event), dateTime (end_ event) with
  | Some startDate, Some endDate => CalendarService.minutesBetween startDate endDate
  | _, _ => 0%Q
  end.

(** [d.getDay()]: 0 for Sunday; 1970-01-01 was a Thursday. *)
Definition getDay (tz t : Z) : Z := (localTime tz t / msPerDay + 4) mod 7.

(** [{ start: new Date(y, m, d, h, 0), end: new Date(y, m, d, h, 30) }]
    for the local calendar day of [targetDate]. *)
Definition emailSlot (tz targetDate h : Z) : Slot.t :=
  {| Slot.start := localMidnight tz targetDate + h * msPerHour;
     Slot.end_ := localMidnight tz targetDate + h * msPerHour + 30 * msPerMinute |}.

(** One round of the loop over the next seven days; the two flags are
    the truthiness of [preferences?.avoidMornings] and of
    [preferences?.includeWeekends]. *)
Definition slotsOfDay (tz now : Z) (avoidMornings includeWeekends : bool) (i : Z)
  : list Slot.t :=
  let targetDate := now + i * msPerDay in
  if ((getDay tz targetDate =? 0) || (getDay tz targetDate =? 6))
     && negb includeWeekends
  then []
  else if avoidMornings
  then map (emailSlot tz targetDate) [11; 14; 16]
  else map (emailSlot tz targetDate) [9; 11; 14; 16].

Definition getAvailableTimeSlotsForEmail (tz now : Z)
                                         (avoidMornings includeWeekends : bool)
  : list Slot.t :=
  sortByKey Slot.start
    (flat_map (slotsOfDay tz now avoidMornings includeWeekends)
              [1; 2; 3; 4; 5; 6; 7]).

(** What may stand behind a number for the number to be passed over:
    neither a digit, nor white space, nor the start of a unit. *)
Definition breaksNumber (c : ascii) : Prop :=
  is_digit c = false /\ is_space c = false
  /\ lower_ascii c <> "m"%char /\ lower_ascii c <> "h"%char.

(** ** Sample data: Monday 2024-01-15 in a host five hours behind UTC *)

Module Samples.

(** The instant of the local clock time [h:m] on 2024-01-15 at UTC-5;
    local midnight is 2024-01-15T05:00:00Z. *)
Definition jan15 (h m : Z) : Z := 1705294800000 + h * msPerHour + m * msPerMinute.

Definition timedEvent (i title : string) (from_ to_ : Z) : CalendarEvent :=
  {| id := i; summary := title; description := None;
     start := {| dateTime := Some from_; date := None |};
     end_ := {| dateTime := Some to_; date := None |};
     attendees := None; location := None |}.

(** A whole-day event on 2024-01-15; its dates denote UTC midnights. *)
Definition wholeDayEvent (i title : string) : CalendarEvent :=
  {| id := i; summary := title; description := None;
     start := {| dateTime := None; date := Some 1705276800000 |};
     end_ := {| dateTime := None; date := Some 1705363200000 |};
     attendees := None; location := None |}.

Definition teamSync : CalendarEvent :=
  timedEvent "evt_7f3k" "Team Sync" (jan15 10 0) (jan15 10 30).
Definition syncWithBob : CalendarEvent :=
  timedEvent "evt_q9zd" "Sync with Bob" (jan15 13 0) (jan15 14 0).
Definition sync : CalendarEvent :=
  timedEvent "evt_sync" "Sync" (jan15 9 0) (jan15 9 30).
Definition holiday : CalendarEvent := wholeDayEvent "evt_hday" "Company Holiday".
Definition workBlock : CalendarEvent :=
  timedEvent "evt_work" "Focus block" (jan15 9 0) (jan15 16 30).
Definition dinner : CalendarEvent :=
  timedEvent "evt_dine" "Dinner" (jan15 18 0) (jan15 19 0).
Definition eveningCall : CalendarEvent :=
  timedEvent "evt_call" "Evening call" (jan15 20 0) (jan15 21 0).

Definition standup : CalendarEvent :=
  timedEvent "evt_stnd" "Daily Standup" (jan15 9 0) (jan15 9 15).
Definition clientCall : CalendarEvent :=
  timedEvent "evt_clnt" "Client Call" (jan15 9 10) (jan15 9 40).

(** A host at UTC-5 whose [Date] constructor and JSON parser accept no
    text at all, and whose calendar holds [teamSync]. *)
Definition host : Host :=
  {| tz := -300;
     Date_parse := fun _ => None;
     JSON_parse := fun _ => None;
     events_get := fun i => if String.eqb i "evt_7f3k" then Some teamSync else None |}.

(** The clock reads 08:00 local on 2024-01-15. *)
Definition now : Z := jan15 8 0.

(** An update request that names its event by title. *)
Definition request (title newStart newEnd newDuration : option string) : Args.t :=
  {| Args.recipients := None; Args.avoidMornings := None; Args.timeframe := None;
     Args.focusArea := None; Args.filter := None; Args.duration := newDuration;
     Args.preferredDate := None; Args.preferredTimeRange := None;
     Args.summary := None; Args.description := None;
     Args.startTime := newStart; Args.endTime := newEnd;
     Args.attendees := None; Args.location := None; Args.reminder := None;
     Args.eventId := None; Args.eventTitle := title |}.

(** A delete request that names its event by identifier. *)
Definition byId (i : string) : Args.t :=
  {| Args.recipients := None; Args.avoidMornings := None; Args.timeframe := None;
     Args.focusArea := None; Args.filter := None; Args.duration := None;
     Args.preferredDate := None; Args.preferredTimeRange := None;
     Args.summary := None; Args.description := None;
     Args.startTime := None; Args.endTime := None;
     Args.attendees := None; Args.location := None; Args.reminder := None;
     Args.eventId := Some i; Args.eventTitle := None |}.

(** A request for a free hour today between 9am and 5pm. *)
Definition freeHour : Args.t :=
  {| Args.recipients := None; Args.avoidMornings := None; Args.timeframe := None;
     Args.focusArea := None; Args.filter := None; Args.duration := Some "1 hour";
     Args.preferredDate := Some "today"; Args.preferredTimeRange := Some "9am-5pm";
     Args.summary := None; Args.description := None;
     Args.startTime := None; Args.endTime := None;
     Args.attendees := None; Args.location := None; Args.reminder := None;
     Args.eventId := None; Args.eventTitle := None |}.





(** An event without a title, at 15:00. *)
Definition untitled : CalendarEvent :=
  timedEvent "evt_none" "" (jan15 15 0) (jan15 16 0).


(** 10:00 local on 2024-01-31, the last day of its month, and a review
    at 14:00 that day. *)
Definition jan31 : Z := jan15 10 0 + 16 * msPerDay.
Definition monthEndReview : CalendarEvent :=
  timedEvent "evt_rev" "Month-end review"
             (jan15 14 0 + 16 * msPerDay) (jan15 15 0 + 16 * msPerDay).


(** A host whose [Date] constructor reads the ISO text of the epoch,
    and whose calendar holds an event of 115 milliseconds. *)
Definition blink : CalendarEvent :=
  timedEvent "evt_blnk" "Blink" (jan15 10 0) (jan15 10 0 + 115).
Definition epochHost : Host :=
  {| tz := -300;
     Date_parse := fun text =>
       if String.eqb text "1970-01-01T00:00:00.000Z" then Some 0 else None;
     JSON_parse := fun _ => None;
     events_get := fun i => if String.eqb i "evt_blnk" then Some blink else None |}.
End Samples.

(** * Properties *)

(** ** Double precision *)

Section DoubleFacts.

Lemma roundEven_integer (x : Q) (j : Z) : (x == inject_Z j)%Q -> roundEven x = j.
Proof.
  intro H. unfold roundEven.
  rewrite (Qfloor_comp _ _ H), Qfloor_Z.
  assert (E : (x - inject_Z j == 0)%Q) by (rewrite H; ring).
  rewrite (Qcompare_comp _ _ E (1 # 2)%Q (1 # 2)%Q (Qeq_refl _)). reflexivity.
Qed.

Lemma inject_pow2_pos (k : Z) : 0 <= k -> (0 < inject_Z (2 ^ k))%Q.
Proof.
  intro H. change 0%Q with (inject_Z 0). rewrite <- Zlt_Qlt.
  apply Z.pow_pos_nonneg; lia.
Qed.

(** [2^x / 2^y] is [2^(x - y)]. *)
Lemma scale2_quotient (x y : Z) :
  0 <= x -> 0 <= y ->
  (scale2 1 (x - y) == inject_Z (2 ^ x) / inject_Z (2 ^ y))%Q.
Proof.
  intros Hx Hy. pose proof (inject_pow2_pos y Hy) as Py.
  unfold scale2. destruct (Z.leb_spec 0 (x - y)) as [L|L].
  - replace x with ((x - y) + y) at 2 by lia.
    rewrite Z.pow_add_r, inject_Z_mult by lia.
    field. intro E. rewrite E in Py. discriminate Py.
  - pose proof (inject_pow2_pos (- (x - y)) ltac:(lia)) as Pd.
    replace y with (- (x - y) + x) at 2 by lia.
    rewrite Z.pow_add_r, inject_Z_mult by lia.
    pose proof (inject_pow2_pos x Hx) as Px.
    field. split; intro E; [rewrite E in Px; discriminate Px
                           |rewrite E in Pd; discriminate Pd].
Qed.

(** A number below [2^53] in magnitude has its leading bit at place 52
    at most. *)
Lemma ilog2_small (q : Q) :
  ~ (q == 0)%Q -> (Qabs q < inject_Z (2 ^ 53))%Q -> ilog2 q <= 52.
Proof.
  intros N B. unfold ilog2.
  set (a := Z.log2 (Z.abs (Qnum q))). set (b := Z.log2 (Zpos (Qden q))).
  assert (Ha : 0 <= a) by apply Z.log2_nonneg.
  assert (Hb : 0 <= b) by apply Z.log2_nonneg.
  assert (Big : forall x, 53 <= x -> (inject_Z (2 ^ 53) <= scale2 1 x)%Q).
  { intros x Hx. unfold scale2. rewrite (proj2 (Z.leb_le 0 x)) by lia.
    rewrite Qmult_1_l. rewrite <- Zle_Qle.
    apply Z.pow_le_mono_r; lia. }
  destruct (Qle_bool (scale2 1 (a - b)) (Qabs q)) eqn:T.
  - apply Qle_bool_iff in T.
    destruct (Z.le_gt_cases (a - b) 52) as [L|L]; [exact L|exfalso].
    apply (Qlt_irrefl (Qabs q)).
    eapply Qlt_le_trans; [exact B|].
    eapply Qle_trans; [apply (Big (a - b)); lia|exact T].
  - destruct (Z.le_gt_cases (a - b - 1) 52) as [L|L]; [exact L|exfalso].
    assert (Hn : Z.abs (Qnum q) <> 0).
    { intro E. apply N. destruct q as [n d]. simpl in E.
      unfold Qeq. simpl. lia. }
    assert (Sa : 2 ^ a <= Z.abs (Qnum q)).
    { apply Z.log2_spec. lia. }
    assert (Sb : Zpos (Qden q) < 2 ^ (b + 1)).
    { replace (b + 1) with (Z.succ b) by lia. apply Z.log2_spec. lia. }
    assert (Low : (scale2 1 (a - (b + 1)) < Qabs q)%Q).
    { rewrite scale2_quotient by lia.
      apply Qlt_shift_div_r; [apply inject_pow2_pos; lia|].
      destruct q as [n d]. simpl in *.
      unfold Qabs, Qlt, Qmult, inject_Z. simpl.
      assert (P : 0 < 2 ^ a) by (apply Z.pow_pos_nonneg; lia).
      nia. }
    apply (Qlt_irrefl (Qabs q)).
    eapply Qlt_le_trans; [exact B|].
    eapply Qle_trans; [apply (Big (a - (b + 1))); lia|].
    apply Qlt_le_weak. exact Low.
Qed.

(** Rounding leaves a whole number below [2^53] in magnitude as it is. *)
Lemma fl_integer (q : Q) (k : Z) :
  (q == inject_Z k)%Q -> Z.abs k < 2 ^ 53 -> (fl q == inject_Z k)%Q.
Proof.
  intros H B. unfold fl.
  destruct (Qeq_bool q 0) eqn:Z0.
  - apply Qeq_bool_eq in Z0. rewrite <- H. now symmetry.
  - apply Qeq_bool_neq in Z0.
    assert (L : ilog2 q <= 52).
    { apply ilog2_small; [exact Z0|].
      rewrite (Qabs_wd _ _ H).
      assert (A : (Qabs (inject_Z k) == inject_Z (Z.abs k))%Q).
      { unfold inject_Z. symmetry. apply Zabs_Qabs. }
      rewrite A, <- Zlt_Qlt. exact B. }
    set (e := ilog2 q - 52) in *.
    assert (He : 0 <= - e) by lia.
    assert (S1 : (scale2 q (- e) == inject_Z (k * 2 ^ (- e)))%Q).
    { unfold scale2. rewrite (proj2 (Z.leb_le 0 (- e)) He).
      rewrite inject_Z_mult, H. reflexivity. }
    rewrite (roundEven_integer _ _ S1).
    pose proof (inject_pow2_pos (- e) He) as P.
    unfold scale2. destruct (Z.leb_spec 0 e) as [G|G].
    + assert (e = 0) as -> by lia. simpl. rewrite Z.mul_1_r. ring.
    + rewrite inject_Z_mult. field.
      intro E. rewrite E in P. discriminate P.
Qed.

Lemma dateOfNumber_integer (x : Q) (k : Z) :
  (x == inject_Z k)%Q -> Z.abs k <= maxTime -> dateOfNumber x = Some k.
Proof.
  intros H B. unfold dateOfNumber.
  assert (A : (Qabs x == inject_Z (Z.abs k))%Q).
  { rewrite (Qabs_wd _ _ H). unfold inject_Z. symmetry. apply Zabs_Qabs. }
  assert (T : Qle_bool (Qabs x) (inject_Z maxTime) = true).
  { apply Qle_bool_iff. rewrite A, <- Zle_Qle. exact B. }
  rewrite T, (Qfloor_comp _ _ H), (Qceiling_comp _ _ H), Qfloor_Z, Qceiling_Z.
  now destruct (Qle_bool 0 x).
Qed.

(** Up to [MAX_SAFE_INTEGER] in magnitude a whole number is its own
    Number value. *)
Lemma toNumber_exact (n : Z) : Z.abs n <= MAX_SAFE_INTEGER -> toNumber n = n.
Proof.
  intro B. unfold toNumber.
  rewrite (Qfloor_comp _ (inject_Z n)); [apply Qfloor_Z|].
  apply fl_integer; [reflexivity|].
  unfold MAX_SAFE_INTEGER in B. change (2 ^ 53) with 9007199254740992. lia.
Qed.

Lemma roundEven_nonneg (x : Q) : (0 <= x)%Q -> 0 <= roundEven x.
Proof.
  intro H. unfold roundEven.
  assert (F : 0 <= Qfloor x).
  { change 0 with (Qfloor 0). now apply Qfloor_resp_le. }
  destruct (Qcompare (x - inject_Z (Qfloor x)) (1 # 2)); [|lia|lia].
  destruct (Z.even (Qfloor x)); lia.
Qed.

Lemma scale2_nonneg (q : Q) (k : Z) : (0 <= q)%Q -> (0 <= scale2 q k)%Q.
Proof.
  intro H. unfold scale2. destruct (Z.leb_spec 0 k) as [L|L].
  - apply Qmult_le_0_compat; [exact H|].
    apply Qlt_le_weak, inject_pow2_pos, L.
  - apply Qle_shift_div_l; [apply inject_pow2_pos; lia|].
    now rewrite Qmult_0_l.
Qed.

Lemma toNumber_nonneg (n : Z) : 0 <= n -> 0 <= toNumber n.
Proof.
  intro H. unfold toNumber. change 0 with (Qfloor 0) at 1.
  apply Qfloor_resp_le. unfold fl.
  destruct (Qeq_bool (inject_Z n) 0); [apply Qle_refl|].
  apply scale2_nonneg. change 0%Q with (inject_Z 0). rewrite <- Zle_Qle.
  apply roundEven_nonneg, scale2_nonneg.
  change 0%Q with (inject_Z 0). now rewrite <- Zle_Qle.
Qed.

End DoubleFacts.

(** ** The matcher *)

Section MatcherFacts.

Lemma star_sound {A} (p : ascii -> bool) (s : string) :
  forall (k : string -> option A) (x : A),
    star p s k = Some x ->
    exists s', (String.length s' <= String.length s)%nat /\ k s' = Some x.
Proof.
  induction s as [|a s IH]; intros k x H; simpl in H.
  - exists EmptyString. split; [simpl; lia|exact H].
  - destruct (p a).
    + destruct (star p s k) as [y|] eqn:E.
      * inversion H; subst y. destruct (IH k x E) as (s' & L & K).
        exists s'. split; [simpl; lia|exact K].
      * exists (String a s). split; [lia|exact H].
    + exists (String a s). split; [lia|exact H].
Qed.

(** Every result of the matcher comes from a run that [matches]
    describes. *)
Lemma m_sound {A} (r : re) :
  forall (s : string) (c : caps) (k : string -> caps -> option A) (x : A),
    m r s c k = Some x ->
    exists s' c', matches r s c s' c' /\ k s' c' = Some x.
Proof.
  induction r as [| |p|r1 IH1 r2 IH2|r1 IH1 r2 IH2|r1 IH1|p|n r1 IH1];
    intros s c k x H; simpl in H.
  - exists s, c. simpl. auto.
  - destruct s; [|discriminate]. exists EmptyString, c. simpl. auto.
  - destruct s as [|a s]; [discriminate|].
    destruct (p a) eqn:E; [|discriminate].
    exists s, c. simpl. split; [exists a; auto|exact H].
  - destruct (IH1 _ _ _ _ H) as (s1 & c1 & M1 & H1).
    destruct (IH2 _ _ _ _ H1) as (s2 & c2 & M2 & H2).
    exists s2, c2. split; [simpl; exists s1, c1; auto|exact H2].
  - destruct (m r1 s c k) as [y|] eqn:E.
    + inversion H; subst y.
      destruct (IH1 _ _ _ _ E) as (s1 & c1 & M1 & H1).
      exists s1, c1. simpl. auto.
    + destruct (IH2 _ _ _ _ H) as (s2 & c2 & M2 & H2).
      exists s2, c2. simpl. auto.
  - destruct (m r1 s c k) as [y|] eqn:E.
    + inversion H; subst y.
      destruct (IH1 _ _ _ _ E) as (s1 & c1 & M1 & H1).
      exists s1, c1. simpl. auto.
    + exists s, c. simpl. auto.
  - destruct (star_sound p s _ x H) as (s' & L & K).
    exists s', c. simpl. auto.
  - destruct (IH1 _ _ _ _ H) as (s1 & c1 & M1 & H1).
    exists s1, (set_cap n (consumed s s1) c1). split; [simpl; exists c1; auto|exact H1].
Qed.

Lemma matches_length (r : re) :
  forall s c s' c', matches r s c s' c' -> (String.length s' <= String.length s)%nat.
Proof.
  induction r as [| |p|r1 IH1 r2 IH2|r1 IH1 r2 IH2|r1 IH1|p|n r1 IH1];
    intros s c s' c' H; simpl in H.
  - destruct H as [-> _]. lia.
  - destruct H as (_ & -> & _). lia.
  - destruct H as (a & -> & _). simpl. lia.
  - destruct H as (s1 & c1 & H1 & H2).
    apply IH1 in H1. apply IH2 in H2. lia.
  - destruct H as [H|H]; eauto.
  - destruct H as [H|[-> _]]; [eauto|lia].
  - tauto.
  - destruct H as (c1 & H & _). eauto.
Qed.

Lemma exec_sound (r : re) (s : string) :
  forall c, exec r s = Some c -> exists s0 s', matches r s0 no_caps s' c.
Proof.
  induction s as [|a s IH]; intros c H; simpl in H.
  - destruct (match_here r EmptyString) as [y|] eqn:E; [|discriminate].
    inversion H; subst y. unfold match_here in E.
    destruct (m_sound r _ _ _ _ E) as (s' & c' & M & K).
    inversion K; subst c'. eauto.
  - destruct (match_here r (String a s)) as [y|] eqn:E.
    + inversion H; subst y. unfold match_here in E.
      destruct (m_sound r _ _ _ _ E) as (s' & c' & M & K).
      inversion K; subst c'. eauto.
    + eauto.
Qed.

(** A pattern that opens with a digit fails where no digit stands, so
    it matches nowhere in a text without digits. *)
Lemma m_needs_digit {A} (r : re) :
  opensWithDigit r ->
  forall (s : string) (c : caps) (k : string -> caps -> option A),
    match s with
    | String a _ => is_digit a = false
    | EmptyString => True
    end ->
    m r s c k = None.
Proof.
  induction r as [| |p|r1 IH1 r2 IH2|r1 IH1 r2 IH2|r1 IH1|p|n r1 IH1];
    simpl; intros O s c k H; try contradiction.
  - subst p. destruct s as [|a s]; [reflexivity|]. now rewrite H.
  - now apply IH1.
  - now apply IH1.
Qed.

Lemma exec_digitless (r : re) (s : string) :
  opensWithDigit r -> digitless s -> exec r s = None.
Proof.
  intro O. induction s as [|a s IH]; intro D; simpl; unfold match_here.
  - now rewrite (m_needs_digit r O).
  - rewrite (m_needs_digit r O) by (apply D; now left).
    apply IH. intros b Hb. apply D. now right.
Qed.

Lemma consumed_head (a : ascii) (s s' : string) :
  (String.length s' <= String.length s)%nat ->
  consumed (String a s) s' = String a (consumed s s').
Proof.
  intro L. unfold consumed. simpl String.length.
  replace (S (String.length s) - String.length s')%nat
    with (S (String.length s - String.length s'))%nat by lia.
  reflexivity.
Qed.

Lemma groupless_keeps_captures (r : re) :
  groupless r = true ->
  forall s c s' c', matches r s c s' c' -> c' = c.
Proof.
  induction r as [| |p|r1 IH1 r2 IH2|r1 IH1 r2 IH2|r1 IH1|p|n r1 IH1];
    simpl; intros G s c s' c' H.
  - tauto.
  - tauto.
  - destruct H as (a & _ & _ & ->). reflexivity.
  - apply andb_prop in G. destruct G as [G1 G2].
    destruct H as (s1 & c1 & H1 & H2).
    apply (IH1 G1) in H1. apply (IH2 G2) in H2. congruence.
  - apply andb_prop in G. destruct G as [G1 G2].
    destruct H as [H|H]; eauto.
  - destruct H as [H|[_ ->]]; eauto.
  - tauto.
  - discriminate.
Qed.

Lemma group_captures (n : nat) (r : re) (s : string) (c : caps) (s' : string) (c' : caps) :
  groupless r = true ->
  matches (Group n r) s c s' c' -> exists v, c' = set_cap n v c.
Proof.
  intros G (c1 & M & ->).
  apply (groupless_keeps_captures r G) in M. subst c1. eauto.
Qed.

(** A group that opens with a digit captures a text that opens with
    that digit. *)
Lemma digit_group (n : nat) (r : re) (s : string) (c : caps) (s' : string) (c' : caps) :
  groupless r = true ->
  matches (Group n (Seq digit r)) s c s' c' ->
  exists v, c' = set_cap n v c /\ startsWithDigit v.
Proof.
  intros G (c1 & M & ->).
  assert (E : c1 = c) by (apply (groupless_keeps_captures (Seq digit r) G) in M; exact M).
  subst c1. exists (consumed s s'). split; [reflexivity|].
  destruct M as (s1 & c2 & (a & -> & Da & ->) & M2).
  apply matches_length in M2.
  rewrite consumed_head by exact M2. exact Da.
Qed.

(** What the clock pattern leaves in its three groups: the hour
    group holds digits, the minute group holds digits when it is set,
    and no other group is touched. *)
Lemma clock_captures (g : nat) (s : string) (c : caps) (s' : string) (c' : caps) :
  matches (clock g) s c s' c' ->
  (exists v, c' g = Some v /\ startsWithDigit v) /\
  (c' (g + 1)%nat = c (g + 1)%nat
   \/ exists v, c' (g + 1)%nat = Some v /\ startsWithDigit v) /\
  (forall i, (i < g \/ g + 2 < i)%nat -> c' i = c i).
Proof.
  unfold clock, seq; simpl fold_right.
  intros (s1 & c1 & H1 & s2 & c2 & H2 & s3 & c3 & H3 & s4 & c4 & H4 & H5).
  apply digit_group in H1; [|reflexivity]. destruct H1 as (v1 & -> & D1).
  destruct H3 as [-> _]. destruct H5 as [_ ->].
  assert (E4 : c4 = c2 \/ exists v, c4 = set_cap (g + 2) v c2).
  { destruct H4 as [H4|[_ ->]]; [right|now left].
    apply group_captures in H4; [exact H4|reflexivity]. }
  assert (E2 : c2 = set_cap g v1 c
               \/ exists v, startsWithDigit v
                            /\ c2 = set_cap (g + 1) v (set_cap g v1 c)).
  { destruct H2 as [(sx & cx & (a & _ & _ & ->) & H2)|[_ ->]]; [right|now left].
    apply digit_group in H2; [|reflexivity].
    destruct H2 as (v & -> & D). eauto. }
  assert (N1 : forall v k, set_cap (g + 2) v k g = k g).
  { intros. unfold set_cap. destruct (Nat.eqb_spec g (g + 2)); [lia|reflexivity]. }
  assert (N2 : forall v k, set_cap (g + 2) v k (g + 1)%nat = k (g + 1)%nat).
  { intros. unfold set_cap. destruct (Nat.eqb_spec (g + 1) (g + 2)); [lia|reflexivity]. }
  assert (N3 : forall v k, set_cap (g + 1) v k g = k g).
  { intros. unfold set_cap. destruct (Nat.eqb_spec g (g + 1)); [lia|reflexivity]. }
  assert (N4 : forall v k, set_cap g v k (g + 1)%nat = k (g + 1)%nat).
  { intros. unfold set_cap. destruct (Nat.eqb_spec (g + 1) g); [lia|reflexivity]. }
  assert (S1 : forall n v k, set_cap n v k n = Some v).
  { intros. unfold set_cap. now rewrite Nat.eqb_refl. }
  assert (F : forall n v k i, i <> n -> set_cap n v k i = k i).
  { intros n v k i Hi. unfold set_cap. destruct (Nat.eqb_spec i n); [contradiction|reflexivity]. }
  repeat split.
  - exists v1. split; [|exact D1].
    destruct E4 as [->|(v4 & ->)]; rewrite ?N1;
      destruct E2 as [->|(v2 & _ & ->)]; rewrite ?N3; apply S1.
  - destruct E4 as [->|(v4 & ->)]; rewrite ?N2;
      destruct E2 as [->|(v2 & D2 & ->)]; rewrite ?N4, ?S1; eauto.
  - intros i Hi.
    destruct E4 as [->|(v4 & ->)]; rewrite ?F by lia;
      destruct E2 as [->|(v2 & _ & ->)]; rewrite ?F by lia; reflexivity.
Qed.

End MatcherFacts.

(** ** The parsers *)

Section ParserFacts.
Variable host : Host.

(** [setHours] lands on the asked clock time of the same local day. *)
Lemma setHours_clock (zone t h mi t' : Z) :
  0 <= h < 24 -> 0 <= mi < 60 ->
  setHours zone (Some t) (Some h) (Some mi) = Some t' ->
  getHours zone t' = h /\ getMinutes zone t' = mi /\
  localTime zone t' / msPerDay = localTime zone t / msPerDay.
Proof.
  intros Hh Hm E. injection E as <-.
  unfold getHours, getMinutes, localTime, msPerDay, msPerHour, msPerMinute.
  change (24 * (60 * (60 * 1000))) with 86400000.
  change (60 * (60 * 1000)) with 3600000.
  change (60 * 1000) with 60000.
  set (l := t + zone * 60000).
  replace (l - l mod 86400000 + h * 3600000 + mi * 60000
           - zone * 60000 + zone * 60000)
    with (l - l mod 86400000 + h * 3600000 + mi * 60000) by lia.
  pose proof (Z.div_mod l 86400000 ltac:(lia)) as D.
  pose proof (Z.mod_pos_bound l 86400000 ltac:(lia)) as B.
  replace (l - l mod 86400000 + h * 3600000 + mi * 60000)
    with ((h * 3600000 + mi * 60000) + (l / 86400000) * 86400000) by lia.
  repeat split.
  - rewrite Z.mod_add by lia. rewrite Z.mod_small by lia.
    symmetry. apply (Z.div_unique _ _ h (mi * 60000)); lia.
  - replace (h * 3600000 + mi * 60000 + l / 86400000 * 86400000)
      with (mi * 60000 + (h + l / 86400000 * 24) * 3600000) by lia.
    rewrite Z.mod_add by lia. rewrite Z.mod_small by lia.
    apply Z.div_mul. lia.
  - rewrite Z.div_add by lia. rewrite Z.div_small by lia. lia.
Qed.

Lemma digit_value_nonneg (a : ascii) : is_digit a = true -> 0 <= digit_value a.
Proof.
  unfold is_digit, digit_value. generalize (nat_of_ascii a). intros n D.
  apply andb_prop in D. destruct D as [D _]. apply Nat.leb_le in D. lia.
Qed.

Lemma digits_prefix_some (s : string) :
  forall acc, 0 <= acc ->
              exists n, digits_prefix (Some acc) s = Some n /\ 0 <= n.
Proof.
  induction s as [|a s IH]; intros acc Hacc; cbn [digits_prefix].
  - eauto.
  - destruct (is_digit a) eqn:D; [|eauto].
    apply IH. pose proof (digit_value_nonneg a D). lia.
Qed.

Lemma parseInt_digits (v : string) :
  startsWithDigit v -> exists n, parseInt (Some v) = Some n /\ 0 <= n.
Proof.
  destruct v as [|a v]; cbn [startsWithDigit parseInt digits_prefix]; [tauto|].
  intro D. rewrite D.
  destruct (digits_prefix_some v (10 * 0 + digit_value a)) as (n & -> & Hn).
  { pose proof (digit_value_nonneg a D). lia. }
  exists (toNumber n). split; [reflexivity|now apply toNumber_nonneg].
Qed.

Lemma meridiem_some (period : option string) (h : Z) :
  exists h', meridiem period (Some h) = Some h'.
Proof.
  unfold meridiem.
  destruct (periodIs period "pm" && negb (isTwelve (Some h))); simpl;
    match goal with
    | |- context [if ?b then _ else _] => destruct b
    end; eauto.
Qed.

Lemma minuteOf_some (minutes : option string) :
  minutes = None \/ (exists v, minutes = Some v /\ startsWithDigit v) ->
  exists m, minuteOf minutes = Some m.
Proof.
  intros [->|(v & -> & D)]; unfold minuteOf.
  - simpl. eauto.
  - destruct (parseInt_digits v D) as (n & E & _).
    destruct (truthy (Some v)); eauto.
Qed.

(** The hour and the minute read off a clock match are numbers. *)
Lemma clock_reading (g : nat) (s : string) (s' : string) (c : caps) (c' : caps) :
  c (g + 1)%nat = None ->
  matches (clock g) s c s' c' ->
  exists h m,
    meridiem (c' (g + 2)%nat) (parseInt (c' g)) = Some h
    /\ minuteOf (c' (g + 1)%nat) = Some m.
Proof.
  intros Hc M. apply clock_captures in M.
  destruct M as ((v & Ev & Dv) & Em & _).
  destruct (parseInt_digits v Dv) as (n & En & _).
  rewrite Ev, En.
  destruct (meridiem_some (c' (g + 2)%nat) n) as (h & Eh).
  destruct (minuteOf_some (c' (g + 1)%nat)) as (mi & Emi).
  { destruct Em as [Em|Em]; [left; congruence|right; exact Em]. }
  eauto.
Qed.

Lemma parseTimeForDate_valid (dateTimeStr : string) (baseDate : Z) :
  exists t, parseTimeForDate host dateTimeStr (Some baseDate) = Some t.
Proof.
  unfold parseTimeForDate.
  destruct (exec timePattern dateTimeStr) as [c|] eqn:E; [|eauto].
  apply exec_sound in E. destruct E as (s0 & s' & M).
  destruct (clock_reading 1 s0 s' no_caps c eq_refl M) as (h & mi & Eh & Emi).
  simpl in Eh, Emi. rewrite Eh, Emi. simpl. eauto.
Qed.

Lemma parseDateTime_valid (now : Z) (dateTimeStr : string) :
  exists t, parseDateTime host now dateTimeStr = Some t.
Proof.
  unfold parseDateTime.
  destruct (includes (toLowerCase dateTimeStr) "today");
    [apply parseTimeForDate_valid|].
  destruct (includes (toLowerCase dateTimeStr) "tomorrow");
    [apply parseTimeForDate_valid|].
  destruct (Date_parse host dateTimeStr); [eauto|].
  destruct (exec timePattern dateTimeStr); [apply parseTimeForDate_valid|eauto].
Qed.

Lemma parseDurationToMinutes_total (duration : string) :
  exists n, parseDurationToMinutes duration = Ok (Some n) /\ 0 <= n.
Proof.
  unfold parseDurationToMinutes.
  destruct (exec durationPattern duration) as [c|] eqn:E;
    [|exists 60; split; [reflexivity|lia]].
  apply exec_sound in E. destruct E as (s0 & s' & M).
  unfold durationPattern, seq in M; simpl fold_right in M.
  destruct M as (s1 & c1 & H1 & s2 & c2 & H2 & s3 & c3 & H3 & H4).
  apply digit_group in H1; [|reflexivity]. destruct H1 as (v & -> & D).
  destruct H2 as [-> _]. destruct H4 as [_ ->].
  apply group_captures in H3; [|reflexivity]. destruct H3 as (u & ->).
  destruct (parseInt_digits v D) as (n & En & Hn).
  change (set_cap 2 u (set_cap 1 v no_caps) 1%nat) with (Some v).
  change (set_cap 2 u (set_cap 1 v no_caps) 2%nat) with (Some u).
  rewrite En. cbn [option_map].
  destruct (startsWith (toLowerCase u) "h"); eexists; split; try reflexivity;
    [apply toNumber_nonneg; lia|exact Hn].
Qed.


Lemma parseDateTime_default (now : Z) (text : string) :
  includes (toLowerCase text) "today" = false ->
  includes (toLowerCase text) "tomorrow" = false ->
  Date_parse host text = None ->
  exec timePattern text = None ->
  parseDateTime host now text = Some now.
Proof.
  intros H1 H2 H3 H4. unfold parseDateTime. now rewrite H1, H2, H3, H4.
Qed.

Lemma parseDurationToMinutes_default (text : string) :
  exec durationPattern text = None ->
  parseDurationToMinutes text = Ok (Some 60).
Proof. intro H. unfold parseDurationToMinutes. now rewrite H. Qed.

Lemma parseTimeRange_default (text : string) (date : Z) :
  exec rangePattern text = None ->
  toLowerCase text <> "morning" ->
  toLowerCase text <> "afternoon" ->
  toLowerCase text <> "evening" ->
  parseTimeRange host text (Some date)
  = (setHours (tz host) (Some date) (Some 9) (Some 0),
     setHours (tz host) (Some date) (Some 17) (Some 0)).
Proof.
  intros H Hm Ha He. unfold parseTimeRange. rewrite H.
  apply String.eqb_neq in Hm, Ha, He. now rewrite Hm, Ha, He.
Qed.

(** A text without digits that names no day and that the host cannot
    read as a date gets every default. *)
Lemma digitless_text_defaults (now date : Z) (text : string) :
  digitless text ->
  includes (toLowerCase text) "today" = false ->
  includes (toLowerCase text) "tomorrow" = false ->
  Date_parse host text = None ->
  parseDateTime host now text = Some now /\
  parseDurationToMinutes text = Ok (Some 60) /\
  (toLowerCase text <> "morning" ->
   toLowerCase text <> "afternoon" ->
   toLowerCase text <> "evening" ->
   parseTimeRange host text (Some date)
   = (setHours (tz host) (Some date) (Some 9) (Some 0),
      setHours (tz host) (Some date) (Some 17) (Some 0))).
Proof.
  intros D H1 H2 H3.
  split; [apply parseDateTime_default; auto; now apply exec_digitless|].
  split; [apply parseDurationToMinutes_default; now apply exec_digitless|].
  apply parseTimeRange_default. now apply exec_digitless.
Qed.

End ParserFacts.

(** ** Conflict severity *)

Lemma Qle_bool_false (x y : Q) : Qle_bool x y = false <-> (y < x)%Q.
Proof.
  split; intro H.
  - apply Qnot_le_lt. intro L. apply Qle_bool_iff in L. congruence.
  - destruct (Qle_bool x y) eqn:E; [|reflexivity].
    apply Qle_bool_iff in E. exfalso. exact (Qlt_not_le _ _ H E).
Qed.

(** C5: the severity label is chosen by inclusive lower bounds tried
    from the highest down: 60 and more is major, 30 up to 60 is
    significant, 15 up to 30 is moderate, less than 15 is minor; the six
    boundary values fall where the bounds put them. *)
Theorem getConflictType_thresholds (overlap : Q) :
  ((60 <= overlap)%Q ->
     getConflictType overlap = "Major Conflict (1+ hour overlap)") /\
  ((30 <= overlap)%Q -> (overlap < 60)%Q ->
     getConflictType overlap = "Significant Conflict (30+ minutes)") /\
  ((15 <= overlap)%Q -> (overlap < 30)%Q ->
     getConflictType overlap = "Moderate Conflict (15+ minutes)") /\
  ((overlap < 15)%Q ->
     getConflictType overlap = "Minor Conflict (< 15 minutes)") /\
  getConflictType 60 = "Major Conflict (1+ hour overlap)" /\
  getConflictType 59 = "Significant Conflict (30+ minutes)" /\
  getConflictType 30 = "Significant Conflict (30+ minutes)" /\
  getConflictType 29 = "Moderate Conflict (15+ minutes)" /\
  getConflictType 15 = "Moderate Conflict (15+ minutes)" /\
  getConflictType 14 = "Minor Conflict (< 15 minutes)".
Proof.
  unfold getConflictType.
  repeat split; try reflexivity.
  - intro H. apply Qle_bool_iff in H. now rewrite H.
  - intros H30 H60. apply Qle_bool_iff in H30. apply Qle_bool_false in H60.
    now rewrite H60, H30.
  - intros H15 H30. apply Qle_bool_iff in H15. apply Qle_bool_false in H30.
    assert (H60 : Qle_bool 60 overlap = false).
    { apply Qle_bool_false. apply Qle_bool_false in H30.
      eapply Qlt_trans; [exact H30|reflexivity]. }
    now rewrite H60, H30, H15.
  - intro H15. 
    assert (H30 : Qle_bool 30 overlap = false).
    { apply Qle_bool_false. eapply Qlt_trans; [exact H15|reflexivity]. }
    assert (H60 : Qle_bool 60 overlap = false).
    { apply Qle_bool_false. eapply Qlt_trans; [exact H15|reflexivity]. }
    apply Qle_bool_false in H15.
    now rewrite H60, H30, H15.
Qed.

(** The standup from 09:00 to 09:15 and the client call from 09:10 to
    09:40 make one conflict today, of five minutes, a minor one. *)
Example findConflicts_standup_and_call :
  exists conflict,
    findConflicts (-300) Samples.now (Some "today")
                  [Samples.clientCall; Samples.standup]
    = Ok (ConflictReport "today" [conflict]) /\
    summary (original (event1 conflict)) = "Daily Standup" /\
    summary (original (event2 conflict)) = "Client Call" /\
    (overlapDuration conflict == 5)%Q /\
    conflictType conflict = "Minor Conflict (< 15 minutes)".
Proof. eexists. repeat split. Qed.

(** An overlap of 44.5 minutes is significant. *)
Lemma getConflictType_thresholds_witness :
  getConflictType (89 # 2) = "Significant Conflict (30+ minutes)".
Proof.
  apply (proj1 (proj2 (getConflictType_thresholds (89 # 2)))).
  - unfold Qle; simpl; lia.
  - unfold Qlt; simpl; lia.
Defined.

(** ** Statistics *)

Section Statistics.

(** The statistics loop passes over an event without both precise
    times. *)
Lemma visit_untimed (acc : list (string * Z) * Q) (event : CalendarEvent) :
  isTimed event = false -> visit acc event = acc.
Proof.
  unfold isTimed, visit. destruct acc as [byDay totalMinutes].
  destruct (dateTime (start event)), (dateTime (end_ event)); simpl;
    intro H; congruence.
Qed.

Lemma fold_visit_kept (keep : CalendarEvent -> bool) (events : list CalendarEvent) :
  (forall event, isTimed event = true -> keep event = true) ->
  forall acc,
    fold_left visit (List.filter keep events) acc = fold_left visit events acc.
Proof.
  intro K. induction events as [|event rest IH]; intro acc; simpl; [reflexivity|].
  destruct (keep event) eqn:E; simpl.
  - apply IH.
  - rewrite (visit_untimed acc event); [apply IH|].
    destruct (isTimed event) eqn:T; [|reflexivity].
    rewrite (K event T) in E. discriminate.
Qed.

Lemma length_filter_split {A} (f : A -> bool) (l : list A) :
  List.length l
  = (List.length (List.filter f l)
     + List.length (List.filter (fun x => negb (f x)) l))%nat.
Proof.
  induction l as [|x l IH]; simpl; [reflexivity|].
  destruct (f x); simpl; lia.
Qed.

End Statistics.

(** C3, as the code has it: removing whole-day events, or any events
    among those without both precise times, leaves the total hours and
    the per-day counts unchanged, while the total meeting count is the
    number of all events and so drops by the number of events removed. *)
Theorem wholeDay_events_only_counted
        (events : list CalendarEvent) (keep : CalendarEvent -> bool) :
  (forall event, isTimed event = true -> keep event = true) ->
  let all := calculateMeetingStats events in
  let kept := calculateMeetingStats (List.filter keep events) in
  totalHours all = totalHours kept /\
  meetingsByDay all = meetingsByDay kept /\
  totalMeetings all = Z.of_nat (List.length events) /\
  totalMeetings all
  = totalMeetings kept
    + Z.of_nat (List.length (List.filter (fun e => negb (keep e)) events)).
Proof.
  intro K. unfold calculateMeetingStats.
  rewrite (fold_visit_kept keep events K ([], 0%Q)).
  destruct (fold_left visit events ([], 0%Q)) as [byDay totalMinutes]; simpl.
  pose proof (length_filter_split keep events) as L.
  repeat split. lia.
Qed.

(** The average is the total minutes over the number of all events. *)
Lemma average_over_all_events (events : list CalendarEvent) :
  events <> [] ->
  (averageMeetingDuration (calculateMeetingStats events)
   * inject_Z (Z.of_nat (List.length events))
   == totalHours (calculateMeetingStats events) * 60)%Q.
Proof.
  intro N. unfold calculateMeetingStats.
  destruct (fold_left visit events ([], 0%Q)) as [byDay totalMinutes]; simpl.
  assert (P : 0 < Z.of_nat (List.length events)) by (destruct events; [contradiction|simpl; lia]).
  apply Z.ltb_lt in P. rewrite P. apply Z.ltb_lt in P.
  field. intro E. unfold Qeq in E. simpl in E. lia.
Qed.

(** A one-hour meeting and a whole-day event: one hour in all, one day
    counted, with or without the whole-day event. *)
Lemma wholeDay_events_only_counted_witness :
  totalHours (calculateMeetingStats [Samples.syncWithBob; Samples.holiday])
  = totalHours (calculateMeetingStats
                  (List.filter (fun e => negb (isWholeDay e))
                               [Samples.syncWithBob; Samples.holiday])) /\
  meetingsByDay (calculateMeetingStats [Samples.syncWithBob; Samples.holiday])
  = meetingsByDay (calculateMeetingStats
                     (List.filter (fun e => negb (isWholeDay e))
                                  [Samples.syncWithBob; Samples.holiday])).
Proof.
  destruct (wholeDay_events_only_counted
              [Samples.syncWithBob; Samples.holiday]
              (fun e => negb (isWholeDay e))) as (H1 & H2 & _).
  - intros event T. unfold isTimed in T. unfold isWholeDay.
    destruct (dateTime (start event)); [reflexivity|discriminate].
  - split; [exact H1|exact H2].
Defined.

(** C3 as stated fails: with a one-hour meeting and a whole-day event,
    the count is 2 and the average 30 minutes; without the whole-day
    event they are 1 and 60. *)
Lemma wholeDay_event_changes_count_and_average :
  totalMeetings (calculateMeetingStats [Samples.syncWithBob; Samples.holiday]) = 2 /\
  totalMeetings
    (calculateMeetingStats
       (List.filter (fun e => negb (isWholeDay e))
                    [Samples.syncWithBob; Samples.holiday])) = 1 /\
  (averageMeetingDuration (calculateMeetingStats [Samples.syncWithBob; Samples.holiday])
   == 30)%Q /\
  (averageMeetingDuration
     (calculateMeetingStats
        (List.filter (fun e => negb (isWholeDay e))
                     [Samples.syncWithBob; Samples.holiday]))
   == 60)%Q.
Proof. repeat split. Qed.

(** The key under which the statistics count a timed event is the UTC
    calendar date of its start. *)
Lemma bump_has_key (dayKey : string) (byDay : list (string * Z)) :
  In dayKey (map fst (bump dayKey byDay)).
Proof.
  induction byDay as [|[k n] rest IH]; simpl; [now left|].
  destruct (String.eqb k dayKey) eqn:E; simpl.
  - left. now apply String.eqb_eq.
  - now right.
Qed.

Lemma bump_keeps_keys (dayKey k : string) (byDay : list (string * Z)) :
  In k (map fst byDay) -> In k (map fst (bump dayKey byDay)).
Proof.
  induction byDay as [|[k' n] rest IH]; simpl; [tauto|].
  destruct (String.eqb k' dayKey); simpl; tauto.
Qed.

Lemma bump_keys_from (dayKey k : string) (byDay : list (string * Z)) :
  In k (map fst (bump dayKey byDay)) -> k = dayKey \/ In k (map fst byDay).
Proof.
  induction byDay as [|[k' n] rest IH]; simpl.
  - intros [H|[]]; auto.
  - destruct (String.eqb k' dayKey); simpl; intros [H|H]; auto.
    destruct (IH H); auto.
Qed.

Lemma visit_keeps_keys (acc : list (string * Z) * Q) (event : CalendarEvent) (k : string) :
  In k (map fst (fst acc)) -> In k (map fst (fst (visit acc event))).
Proof.
  destruct acc as [byDay total]. unfold visit.
  destruct (dateTime (start event)), (dateTime (end_ event)); simpl; auto.
  apply bump_keeps_keys.
Qed.

Lemma fold_visit_keeps_keys (events : list CalendarEvent) (k : string) :
  forall acc, In k (map fst (fst acc)) ->
              In k (map fst (fst (fold_left visit events acc))).
Proof.
  induction events as [|e rest IH]; intros acc H; simpl; [exact H|].
  apply IH. now apply visit_keeps_keys.
Qed.

Lemma statistics_key_is_utc_date (events : list CalendarEvent) (event : CalendarEvent)
      (s e : Z) :
  In event events ->
  dateTime (start event) = Some s -> dateTime (end_ event) = Some e ->
  In (dateText s) (map fst (meetingsByDay (calculateMeetingStats events))).
Proof.
  intros Hin Hs He. unfold calculateMeetingStats.
  assert (G : forall acc,
             In (dateText s) (map fst (fst (fold_left visit events acc)))).
  { induction events as [|x rest IH]; [destruct Hin|].
    intro acc. simpl. destruct Hin as [->|Hin].
    - apply fold_visit_keeps_keys. destruct acc as [byDay total].
      unfold visit. rewrite Hs, He. simpl. apply bump_has_key.
    - now apply IH. }
  specialize (G ([], 0%Q)).
  destruct (fold_left visit events ([], 0%Q)) as [byDay total]. exact G.
Qed.

(** C7 at a failing input: in a host five hours behind UTC, a call that
    starts at 20:00 local on 2024-01-15 is counted under 2024-01-16,
    and a meeting at 13:00 the same local day is counted under another
    key. *)
Theorem statistics_key_off_local_date :
  localDateKey (-300) (Samples.jan15 20 0) = "2024-01-15" /\
  localDateKey (-300) (Samples.jan15 13 0) = "2024-01-15" /\
  meetingsByDay (calculateMeetingStats [Samples.eveningCall]) = [("2024-01-16", 1)] /\
  meetingsByDay (calculateMeetingStats [Samples.syncWithBob; Samples.eveningCall])
  = [("2024-01-15", 1); ("2024-01-16", 1)].
Proof. repeat split. Qed.

(** ** The dispatcher *)

(** C10 at its failing inputs: when the argument text does not parse,
    the dispatcher falls back to the empty bag and routes on, and the
    conflict finder and the email drafter then throw a TypeError on the
    field they dereference. *)
Theorem unparsable_arguments_can_throw
        (host : Host) (now now' : Z) (json : string)
        (events : list CalendarEvent) (stats : CalendarStats) :
  JSON_parse host json = None ->
  handleFunctionCall host now now' "find_conflicts" (Text json) events stats
  = Throw TypeError /\
  handleFunctionCall host now now' "generate_email_drafts" (Text json) events stats
  = Throw TypeError /\
  answerToolCall host now now' "find_conflicts" (Text json) events stats
  = ServiceTrouble /\
  answerToolCall host now now' "generate_email_drafts" (Text json) events stats
  = ServiceTrouble.
Proof.
  intro H. unfold answerToolCall, handleFunctionCall, parseArguments. rewrite H.
  repeat split; reflexivity.
Qed.

Lemma unparsable_arguments_can_throw_witness :
  handleFunctionCall Samples.host Samples.now Samples.now "find_conflicts"
                     (Text "{timeframe: today") [Samples.teamSync]
                     (calculateMeetingStats [Samples.teamSync])
  = Throw TypeError.
Proof.
  apply (proj1 (unparsable_arguments_can_throw
                  Samples.host Samples.now Samples.now "{timeframe: today"
                  [Samples.teamSync] (calculateMeetingStats [Samples.teamSync])
                  eq_refl)).
Defined.

(** On the same fallback the three event operations answer with their
    clarification, and the operations with defaults run on them. *)
Lemma unparsable_arguments_elsewhere
      (host : Host) (now now' : Z) (json : string)
      (events : list CalendarEvent) (stats : CalendarStats) :
  JSON_parse host json = None ->
  handleFunctionCall host now now' "create_calendar_event" (Text json) events stats
  = Ok (Clarification [ "event title (what's the event called?)";
                        "start time (when should the event begin?)";
                        "end time or duration (how long should it last?)" ]) /\
  handleFunctionCall host now now' "update_calendar_event" (Text json) events stats
  = Ok (Clarification [ "event identification (which event do you want to update?)";
                        "update details (what do you want to change?)" ]) /\
  handleFunctionCall host now now' "delete_calendar_event" (Text json) events stats
  = Ok (Clarification [ "event identification (which event do you want to delete?)" ]) /\
  handleFunctionCall host now now' "analyze_meeting_time" (Text json) events stats
  = Ok (MeetingAnalysis "month") /\
  handleFunctionCall host now now' "provide_recommendations" (Text json) events stats
  = Ok (Recommendations None) /\
  handleFunctionCall host now now' "list_upcoming_events" (Text json) events stats
  = Ok (EventList events) /\
  handleFunctionCall host now now' "reticulate_splines" (Text json) events stats
  = Ok DontKnow.
Proof.
  intro H. unfold handleFunctionCall, parseArguments. rewrite H.
  repeat split; reflexivity.
Qed.

(** ** Parsing never fails *)



(** ** The update payload *)

Section UpdateFacts.

Lemma timeClip_inside (x : Z) : Z.abs x <= maxTime -> timeClip x = Some x.
Proof. intro H. unfold timeClip. now rewrite (proj2 (Z.leb_le _ _) H). Qed.

Lemma timeClip_outside (x : Z) : maxTime < Z.abs x -> timeClip x = None.
Proof. intro H. unfold timeClip. now rewrite (proj2 (Z.leb_gt _ _) H). Qed.

Lemma guarded_some (v : option string) (x : string) :
  v = Some x -> x <> EmptyString -> guarded v = Some x.
Proof. intros -> H. destruct x; [contradiction|reflexivity]. Qed.

Lemma guarded_none (v : option string) : truthy v = false -> guarded v = None.
Proof. unfold guarded. now intros ->. Qed.

Lemma truthy_some (v : option string) (x : string) :
  v = Some x -> x <> EmptyString -> truthy v = true.
Proof. intros -> H. destruct x; [contradiction|reflexivity]. Qed.

End UpdateFacts.

(** ** The length that an update keeps *)

(** A length of a whole number of minutes goes through the minutes
    and back unharmed, and the end kept for a new start is that start
    plus the length, when it is a date. *)
Lemma preservedEnd_whole_minutes (newStartTime startTime endTime minutes : Z) :
  endTime - startTime = minutes * 60000 ->
  Z.abs (endTime - startTime) < 2 ^ 53 ->
  Z.abs (newStartTime + (endTime - startTime)) <= maxTime ->
  preservedEnd newStartTime
    (fl (fl (inject_Z (endTime - startTime)) / inject_Z (1000 * 60)))
  = Some (newStartTime + (endTime - startTime)).
Proof.
  intros E B R. rewrite E in *. unfold preservedEnd.
  assert (Q1 : (fl (inject_Z (minutes * 60000)) == inject_Z (minutes * 60000))%Q)
    by (apply fl_integer; [reflexivity|exact B]).
  assert (Q2 : (fl (fl (inject_Z (minutes * 60000)) / inject_Z (1000 * 60))
                == inject_Z minutes)%Q).
  { apply fl_integer; [|lia].
    rewrite Q1, inject_Z_mult. change (inject_Z (1000 * 60)) with (inject_Z 60000).
    field. }
  assert (Q3 : (fl (fl (fl (inject_Z (minutes * 60000)) / inject_Z (1000 * 60)) * 60)
                == inject_Z (minutes * 60))%Q).
  { apply fl_integer; [|lia]. rewrite Q2, inject_Z_mult. reflexivity. }
  assert (Q4 : (fl (fl (fl (fl (inject_Z (minutes * 60000)) / inject_Z (1000 * 60))
                        * 60) * 1000)
                == inject_Z (minutes * 60000))%Q).
  { apply fl_integer; [|exact B].
    rewrite Q3. replace (minutes * 60000) with (minutes * 60 * 1000) by lia.
    rewrite (inject_Z_mult (minutes * 60) 1000). reflexivity. }
  apply dateOfNumber_integer; [|exact R].
  apply fl_integer.
  - rewrite Q4, inject_Z_plus. reflexivity.
  - unfold maxTime in R. change (2 ^ 53) with 9007199254740992. lia.
Qed.

(** An event that lasts a whole number of minutes, as the events of
    a calendar do, keeps its length when it is moved to a new start
    with no end and no duration in the request, whenever the new end
    is a date. *)
Lemma update_keeps_whole_minutes
      (host : Host) (now now' : Z) (args : Args.t)
      (existingEvent : CalendarEvent)
      (newStart : string) (startTime endTime minutes : Z) :
  Args.startTime args = Some newStart -> newStart <> EmptyString ->
  truthy (Args.endTime args) = false ->
  truthy (Args.duration args) = false ->
  dateTime (start existingEvent) = Some startTime ->
  dateTime (end_ existingEvent) = Some endTime ->
  endTime - startTime = minutes * 60000 ->
  Z.abs (endTime - startTime) < 2 ^ 53 ->
  exists t,
    parseDateTime host now newStart = Some t
    /\ (Z.abs (t + (endTime - startTime)) <= maxTime ->
        exists eventData,
          updateEventData host now now' args existingEvent = Ok eventData
          /\ EventData.start eventData
             = Some {| dateTime := Some t; date := None |}
          /\ EventData.end_ eventData
             = Some {| dateTime := Some (t + (endTime - startTime));
                       date := None |}).
Proof.
  intros Est Nst Ten Tdu Es Ee Em B.
  destruct (parseDateTime_valid host now newStart) as (t & Et).
  exists t. split; [exact Et|]. intro R.
  unfold updateEventData, timeUpdates, durationOverride, existingDurationMinutes.
  rewrite (guarded_some _ _ Est Nst), (guarded_none _ Tdu), Et, Ten, Tdu, Es, Ee.
  cbn [preciseTime toISOString bind negb andb].
  rewrite (preservedEnd_whole_minutes t startTime endTime minutes Em B R).
  cbn [preciseTime toISOString bind].
  eexists. repeat split.
Qed.

(** The parts of an update that hold throughout: a request with a new
    end and no new start keeps the old start; a request with neither
    carries both old times over; a duration given with a new start
    puts the end at the start text, read again at the second clock
    reading, plus that duration when that instant is a date, and
    throws a RangeError when it is not. *)
Lemma update_times
      (host : Host) (now now' : Z) (args : Args.t)
      (existingEvent : CalendarEvent) :
  (forall newEnd,
      truthy (Args.startTime args) = false ->
      Args.endTime args = Some newEnd -> newEnd <> EmptyString ->
      exists t eventData,
        parseDateTime host now newEnd = Some t /\
        updateEventData host now now' args existingEvent = Ok eventData /\
        EventData.start eventData = Some (start existingEvent) /\
        EventData.end_ eventData = Some {| dateTime := Some t; date := None |}) /\
  (truthy (Args.startTime args) = false ->
   truthy (Args.endTime args) = false ->
   exists eventData,
     updateEventData host now now' args existingEvent = Ok eventData /\
     EventData.start eventData = Some (start existingEvent) /\
     EventData.end_ eventData = Some (end_ existingEvent)) /\
  (forall newStart duration,
      Args.startTime args = Some newStart -> newStart <> EmptyString ->
      Args.duration args = Some duration -> duration <> EmptyString ->
      exists t t' minutes,
        parseDateTime host now newStart = Some t /\
        parseDateTime host now' newStart = Some t' /\
        parseDurationToMinutes duration = Ok (Some minutes) /\
        (Z.abs (t' + minutes * 60 * 1000) <= maxTime ->
         exists eventData,
           updateEventData host now now' args existingEvent = Ok eventData /\
           EventData.start eventData
           = Some {| dateTime := Some t; date := None |} /\
           EventData.end_ eventData
           = Some {| dateTime := Some (t' + minutes * 60 * 1000); date := None |}) /\
        (maxTime < Z.abs (t' + minutes * 60 * 1000) ->
         updateEventData host now now' args existingEvent = Throw RangeError)).
Proof.
  unfold updateEventData, timeUpdates, durationOverride.
  split; [|split].
  - intros newEnd Hst Een Nen.
    destruct (parseDateTime_valid host now newEnd) as (t & Et).
    exists t. eexists. split; [exact Et|].
    rewrite (guarded_none _ Hst), (guarded_some _ _ Een Nen), Et. simpl.
    destruct (guarded (Args.duration args)); repeat split.
  - intros Hst Hen.
    rewrite (guarded_none _ Hst), (guarded_none _ Hen). simpl.
    destruct (guarded (Args.duration args)); eexists; repeat split.
  - intros newStart duration Est Nst Edu Ndu.
    destruct (parseDateTime_valid host now newStart) as (t & Et).
    destruct (parseDateTime_valid host now' newStart) as (t' & Et').
    destruct (parseDurationToMinutes_total duration) as (n & En & _).
    exists t, t', n.
    split; [exact Et|]. split; [exact Et'|]. split; [exact En|].
    rewrite (guarded_some _ _ Est Nst), (guarded_some _ _ Edu Ndu), Et, Et', En.
    rewrite (truthy_some _ _ Edu Ndu), andb_false_r.
    cbn [preciseTime toISOString bind negb andb].
    split; intro R.
    + rewrite (timeClip_inside _ R). cbn [preciseTime toISOString bind].
      eexists. repeat split.
    + rewrite (timeClip_outside _ R). reflexivity.
Qed.

(** The example of the half-hour meeting: from 10:00 to 10:30, moved
    to "today at 2pm", it runs from 14:00 to 14:30. *)
Example update_half_hour_meeting :
  updateEventData Samples.host Samples.now Samples.now
    (Samples.request (Some "Team Sync") (Some "today at 2pm") None None)
    Samples.teamSync
  = Ok {| EventData.summary := "Team Sync";
          EventData.description := None;
          EventData.attendees := None;
          EventData.location := None;
          EventData.start :=
            Some {| dateTime := Some (Samples.jan15 14 0); date := None |};
          EventData.end_ :=
            Some {| dateTime := Some (Samples.jan15 14 30); date := None |} |}.
Proof. vm_compute. reflexivity. Qed.

(** C2 at two failing inputs.  A new start "later", which is read as
    the clock, with a duration of 30 minutes: the override reads the
    start text again, so when the clock has moved on by a millisecond
    the payload starts at the first reading and ends 30 minutes after
    the second, 30 minutes and a millisecond after its start.  A new
    start at the epoch for an event of 115 milliseconds: the length is
    turned into minutes and back in double precision,
    [115 / 60000 * 60 * 1000 = 114.99999999999999], and the date drops
    the fraction, so the payload ends 114 milliseconds after its
    start. *)
Theorem update_end_off_new_start :
  updateCalendarEvent Samples.host Samples.now (Samples.now + 1)
    (Samples.request (Some "Team Sync") (Some "later") None (Some "30 minutes"))
    [Samples.teamSync; Samples.syncWithBob]
  = UpdateSubmitted "evt_7f3k"
      {| EventData.summary := "Team Sync";
         EventData.description := None;
         EventData.attendees := None;
         EventData.location := None;
         EventData.start := Some {| dateTime := Some Samples.now; date := None |};
         EventData.end_ :=
           Some {| dateTime := Some (Samples.now + 30 * msPerMinute + 1);
                   date := None |} |}
  /\ updateCalendarEvent Samples.epochHost Samples.now Samples.now
       (Samples.request (Some "Blink") (Some "1970-01-01T00:00:00.000Z") None None)
       [Samples.blink]
     = UpdateSubmitted "evt_blnk"
         {| EventData.summary := "Blink";
            EventData.description := None;
            EventData.attendees := None;
            EventData.location := None;
            EventData.start := Some {| dateTime := Some 0; date := None |};
            EventData.end_ := Some {| dateTime := Some 114; date := None |} |}
  /\ (fl (fl (existingDurationMinutes Samples.blink * 60) * 1000) < 115)%Q.
Proof. split; [|split]; vm_compute; reflexivity. Qed.

(** A request with both a new start and a new end, and no duration,
    builds a payload without an end. *)
Lemma update_with_start_and_end
      (host : Host) (now now' : Z) (args : Args.t) (existingEvent : CalendarEvent)
      (newStart newEnd : string) :
  Args.startTime args = Some newStart -> newStart <> EmptyString ->
  Args.endTime args = Some newEnd -> newEnd <> EmptyString ->
  truthy (Args.duration args) = false ->
  exists t eventData,
    parseDateTime host now newStart = Some t /\
    updateEventData host now now' args existingEvent = Ok eventData /\
    EventData.start eventData = Some {| dateTime := Some t; date := None |} /\
    EventData.end_ eventData = None.
Proof.
  intros Est Nst Een Nen Hdur.
  unfold updateEventData, timeUpdates, durationOverride.
  destruct (parseDateTime_valid host now newStart) as (t & Et).
  exists t. eexists. split; [exact Et|].
  rewrite (guarded_some _ _ Est Nst), (guarded_none _ Hdur), Et.
  rewrite (truthy_some _ _ Een Nen). simpl.
  repeat split.
Qed.

(** C6 at a failing input: moving the 10:00 to 10:30 meeting to "today
    at 2pm" until "today at 3pm" builds a payload that starts at 14:00
    and has no end at all. *)
Theorem update_with_new_start_and_end_has_no_end :
  updateEventData Samples.host Samples.now Samples.now
    (Samples.request (Some "Team Sync") (Some "today at 2pm") (Some "today at 3pm") None)
    Samples.teamSync
  = Ok {| EventData.summary := "Team Sync";
          EventData.description := None;
          EventData.attendees := None;
          EventData.location := None;
          EventData.start := Some {| dateTime := Some (Samples.jan15 14 0); date := None |};
          EventData.end_ := None |}
  /\ updateCalendarEvent Samples.host Samples.now Samples.now
       (Samples.request (Some "Team Sync") (Some "today at 2pm") (Some "today at 3pm") None)
       [Samples.teamSync; Samples.syncWithBob]
     = UpdateSubmitted "evt_7f3k"
         {| EventData.summary := "Team Sync";
            EventData.description := None;
            EventData.attendees := None;
            EventData.location := None;
            EventData.start := Some {| dateTime := Some (Samples.jan15 14 0); date := None |};
            EventData.end_ := None |}.
Proof. split; reflexivity. Qed.

(** The fields other than the times: a field of the request wins, an
    absent one is taken from the existing event. *)
Lemma update_merges_fields
      (host : Host) (now now' : Z) (args : Args.t) (existingEvent : CalendarEvent)
      (eventData : EventData.t) :
  updateEventData host now now' args existingEvent = Ok eventData ->
  EventData.summary eventData
  = or_default (Args.summary args) (summary existingEvent) /\
  EventData.description eventData
  = or_else (Args.description args) (description existingEvent) /\
  EventData.attendees eventData
  = match Args.attendees args with
    | Some emails => Some (map (fun e => {| email := e; displayName := None |}) emails)
    | None => attendees existingEvent
    end /\
  EventData.location eventData
  = if truthy (Args.location args) then Args.location args
    else guarded (location existingEvent).
Proof.
  unfold updateEventData. intro H.
  destruct (timeUpdates host now args existingEvent) as [[newStart endSoFar]|];
    [|discriminate].
  simpl in H.
  destruct (durationOverride host now' args endSoFar) as [newEnd|]; [|discriminate].
  simpl in H. inversion H; subst eventData; simpl. repeat split.
Qed.

(** ** Event resolution *)

Section ResolverFacts.

Lemma filter_none {A} (f : A -> bool) (l : list A) :
  (forall x, In x l -> f x = false) -> List.filter f l = [].
Proof.
  induction l as [|x l IH]; intro H; simpl; [reflexivity|].
  rewrite (H x (or_introl eq_refl)). apply IH. intros y Hy. apply H. now right.
Qed.

Lemma filter_renamed {A} (f : A -> bool) (g : A -> A) (l : list A) :
  (forall x, f (g x) = f x) ->
  List.filter f (map g l) = map g (List.filter f l).
Proof.
  intro H. induction l as [|x l IH]; simpl; [reflexivity|].
  rewrite H. destruct (f x); simpl; now rewrite IH.
Qed.

Lemma settle_renamed (f : string -> string) (stage : list CalendarEvent)
      (matchType : string) (otherwise : Resolution) :
  settle (map (withId f) stage) matchType (relabel f otherwise)
  = relabel f (settle stage matchType otherwise).
Proof. destruct stage as [|x [|y rest]]; reflexivity. Qed.

(** The resolver reads titles and start times only: renaming the
    identifiers renames the answer and changes nothing else. *)
Lemma resolveEvent_ignores_ids (tz : Z) (searchQuery : option string)
      (f : string -> string) (events : list CalendarEvent) :
  resolveEvent tz searchQuery (map (withId f) events)
  = relabel f (resolveEvent tz searchQuery events).
Proof.
  unfold resolveEvent.
  destruct searchQuery as [[|a q]|]; try reflexivity.
  unfold exactMatches, partialMatches, findEventsByTime.
  rewrite !filter_renamed by reflexivity.
  destruct (searchClock (String a q)) as [[searchHour searchMinute]|].
  - rewrite filter_renamed by reflexivity.
    rewrite <- !settle_renamed. reflexivity.
  - rewrite <- !settle_renamed. reflexivity.
Qed.

End ResolverFacts.

(** The time stage spelled out: the events with a precise start at
    the hour and minute read off the query. *)
Lemma findEventsByTime_spelled (tz : Z) (query : string)
      (events : list CalendarEvent) :
  findEventsByTime tz query events
  = match searchClock query with
    | Some (Some hour, Some minute) =>
        List.filter
          (fun e => match dateTime (start e) with
                    | Some t => (getHours tz t =? hour) && (getMinutes tz t =? minute)
                    | None => false
                    end)
          events
    | _ => []
    end.
Proof.
  unfold findEventsByTime.
  destruct (searchClock query) as [[[hour|] [minute|]]|]; try reflexivity;
    induction events as [|e events IH]; try reflexivity;
    cbn [List.filter]; unfold startsAt at 1;
    destruct (dateTime (start e)); exact IH.
Qed.

(** C4: the three stages of the resolution, each spelled out as the
    list it selects: the events whose title equals the query, letter
    case apart; those whose title contains the query or is contained
    in it, letter case apart; those with a precise start at the clock
    time read off the query.  For a non-empty query the first stage
    with matches decides, whatever the later stages select: one match
    is found, several are returned whole as multiple_found; the
    substring stage counts only when no title is equal, the time stage
    only when no title matches either way, and with no match at all
    the answer is not_found.  An absent or empty query is not_found at
    once.  For "Team Sync" and "Sync with Bob": "sync" is ambiguous
    between both; "Team Sync" is found, it is the one title equal to
    the query and a substring match as well.  For "Sync" and "Sync
    with Bob", "SYNC" finds "Sync" by equality where the substring
    stage selects both; "the team sync meeting" finds "Team Sync",
    whose title it contains; "1 pm" finds the event that starts at
    13:00, and "4 pm" finds none. *)
Theorem resolveEvent_staged (tz : Z) (events : list CalendarEvent) :
  (forall query, query <> EmptyString ->
     let exact :=
       List.filter
         (fun e => String.eqb (toLowerCase (summary e)) (toLowerCase query))
         events in
     let partial :=
       List.filter
         (fun e => includes (toLowerCase (summary e)) (toLowerCase query)
                   || includes (toLowerCase query) (toLowerCase (summary e)))
         events in
     let timed :=
       match searchClock query with
       | Some (Some hour, Some minute) =>
           List.filter
             (fun e => match dateTime (start e) with
                       | Some t =>
                           (getHours tz t =? hour) && (getMinutes tz t =? minute)
                       | None => false
                       end)
             events
       | _ => []
       end in
     (forall only, exact = [only] ->
        resolveEvent tz (Some query) events = found (id only) (summary only)) /\
     ((1 < List.length exact)%nat ->
        resolveEvent tz (Some query) events
        = multiple_found exact "exact title matches") /\
     (exact = [] -> forall only, partial = [only] ->
        resolveEvent tz (Some query) events = found (id only) (summary only)) /\
     (exact = [] -> (1 < List.length partial)%nat ->
        resolveEvent tz (Some query) events
        = multiple_found partial "partial title matches") /\
     (exact = [] -> partial = [] -> forall only, timed = [only] ->
        resolveEvent tz (Some query) events = found (id only) (summary only)) /\
     (exact = [] -> partial = [] -> (1 < List.length timed)%nat ->
        resolveEvent tz (Some query) events = multiple_found timed "time matches") /\
     (exact = [] -> partial = [] -> timed = [] ->
        resolveEvent tz (Some query) events = not_found (NoEventsMatching query))) /\
  resolveEvent tz None events = not_found PleaseSpecify /\
  resolveEvent tz (Some EmptyString) events = not_found PleaseSpecify /\
  resolveEvent tz (Some "sync") [Samples.teamSync; Samples.syncWithBob]
  = multiple_found [Samples.teamSync; Samples.syncWithBob] "partial title matches" /\
  resolveEvent tz (Some "Team Sync") [Samples.teamSync; Samples.syncWithBob]
  = found "evt_7f3k" "Team Sync" /\
  List.filter
    (fun e => String.eqb (toLowerCase (summary e)) (toLowerCase "Team Sync"))
    [Samples.teamSync; Samples.syncWithBob]
  = [Samples.teamSync] /\
  List.filter
    (fun e => includes (toLowerCase (summary e)) (toLowerCase "Team Sync")
              || includes (toLowerCase "Team Sync") (toLowerCase (summary e)))
    [Samples.teamSync; Samples.syncWithBob]
  = [Samples.teamSync] /\
  resolveEvent tz (Some "SYNC") [Samples.sync; Samples.syncWithBob]
  = found "evt_sync" "Sync" /\
  List.filter
    (fun e => includes (toLowerCase (summary e)) (toLowerCase "SYNC")
              || includes (toLowerCase "SYNC") (toLowerCase (summary e)))
    [Samples.sync; Samples.syncWithBob]
  = [Samples.sync; Samples.syncWithBob] /\
  resolveEvent tz (Some "the team sync meeting")
               [Samples.teamSync; Samples.syncWithBob]
  = found "evt_7f3k" "Team Sync" /\
  resolveEvent (-300) (Some "1 pm") [Samples.teamSync; Samples.syncWithBob]
  = found "evt_q9zd" "Sync with Bob" /\
  resolveEvent (-300) (Some "4 pm") [Samples.teamSync; Samples.syncWithBob]
  = not_found (NoEventsMatching "4 pm").
Proof.
  split; [|repeat split].
  intros query Hq exact partial timed.
  assert (E : resolveEvent tz (Some query) events
              = settle exact "exact title matches"
                  (settle partial "partial title matches"
                     (settle timed "time matches"
                        (not_found (NoEventsMatching query))))).
  { destruct query as [|c query]; [contradiction|].
    unfold resolveEvent. rewrite findEventsByTime_spelled. reflexivity. }
  rewrite E. clear E.
  repeat split.
  - intros only ->. reflexivity.
  - destruct exact as [|x [|y rest]]; simpl; intro L; [lia|lia|reflexivity].
  - intros -> only ->. reflexivity.
  - intros ->. destruct partial as [|x [|y rest]]; simpl; intro L; [lia|lia|reflexivity].
  - intros -> -> only ->. reflexivity.
  - intros -> ->. destruct timed as [|x [|y rest]]; simpl; intro L; [lia|lia|reflexivity].
  - intros -> -> ->. reflexivity.
Qed.

(** "SYNC WITH" equals no title and is part of one title only: that
    event is found. *)
Lemma resolveEvent_staged_witness :
  resolveEvent (-300) (Some "SYNC WITH") [Samples.teamSync; Samples.syncWithBob]
  = found "evt_q9zd" "Sync with Bob".
Proof.
  destruct (resolveEvent_staged (-300) [Samples.teamSync; Samples.syncWithBob])
    as (H & _).
  destruct (H "SYNC WITH") as (_ & _ & G & _); [discriminate|].
  apply (G eq_refl Samples.syncWithBob). reflexivity.
Defined.

(** C9: the identification text of an update or a delete, whichever
    field it came in, is matched against titles and start times only.
    When it equals no title, is in no title and holds none, and no event
    starts at the clock time it spells, nothing is found, whatever the
    identifiers of the events are; and renaming the identifiers of the
    events never changes which events the resolver selects. *)
Theorem identifier_is_not_looked_up
        (host : Host) (now now' : Z) (args : Args.t)
        (events : list CalendarEvent) (query : string) :
  identification args = Some query ->
  query <> EmptyString ->
  (forall event, In event events ->
     String.eqb (toLowerCase (summary event)) (toLowerCase query) = false /\
     includes (toLowerCase (summary event)) (toLowerCase query) = false /\
     includes (toLowerCase query) (toLowerCase (summary event)) = false) ->
  (forall event t h m,
     In event events -> dateTime (start event) = Some t ->
     searchClock query = Some (Some h, Some m) ->
     getHours (tz host) t <> h \/ getMinutes (tz host) t <> m) ->
  resolveEvent (tz host) (identification args) events
  = not_found (NoEventsMatching query) /\
  deleteCalendarEvent host args events
  = ResolutionMessage (not_found (NoEventsMatching query)) /\
  (validateEventUpdate args = [] ->
   updateCalendarEvent host now now' args events
   = ResolutionMessage (not_found (NoEventsMatching query))) /\
  (forall f, resolveEvent (tz host) (identification args) (map (withId f) events)
             = relabel f (resolveEvent (tz host) (identification args) events)).
Proof.
  intros Hid Hq Htitle Htime.
  assert (R : resolveEvent (tz host) (identification args) events
              = not_found (NoEventsMatching query)).
  { rewrite Hid. unfold resolveEvent.
    destruct query as [|a q]; [contradiction|].
    unfold exactMatches, partialMatches, findEventsByTime.
    rewrite (filter_none _ events) by (intros e He; apply (Htitle e He)).
    rewrite (filter_none _ events).
    2:{ intros e He. destruct (Htitle e He) as (_ & H1 & H2). now rewrite H1, H2. }
    destruct (searchClock (String a q)) as [[searchHour searchMinute]|] eqn:Ec;
      [|reflexivity].
    rewrite (filter_none _ events); [reflexivity|].
    intros e He. unfold startsAt.
    destruct (dateTime (start e)) as [t|] eqn:Et; [|reflexivity].
    destruct searchHour as [h|]; [|reflexivity].
    destruct searchMinute as [m|]; [|reflexivity].
    destruct (Htime e t h m He Et eq_refl) as [N|N];
      apply Z.eqb_neq in N; rewrite N; [reflexivity|apply andb_false_r]. }
  split; [exact R|].
  assert (V : validateEventDelete args = []).
  { unfold validateEventDelete. unfold identification in Hid.
    destruct (truthy (Args.eventId args)) eqn:T1; [reflexivity|].
    destruct (truthy (Args.eventTitle args)) eqn:T2; [reflexivity|].
    destruct (truthy (Args.summary args)) eqn:T3; [reflexivity|].
    exfalso. unfold or_else in Hid. rewrite T1, T2 in Hid.
    rewrite Hid in T3. destruct query; [contradiction|discriminate]. }
  split; [|split].
  - unfold deleteCalendarEvent. now rewrite V, R.
  - intro U. unfold updateCalendarEvent. now rewrite U, R.
  - intro f. apply resolveEvent_ignores_ids.
Qed.

(** A delete request carrying the backend identifier of "Sync with Bob"
    finds nothing, although that event is in the list. *)
Lemma identifier_is_not_looked_up_witness :
  id Samples.syncWithBob = "evt_q9zd" /\
  deleteCalendarEvent Samples.host (Samples.byId "evt_q9zd")
                      [Samples.teamSync; Samples.syncWithBob]
  = ResolutionMessage (not_found (NoEventsMatching "evt_q9zd")).
Proof.
  split; [reflexivity|].
  apply (identifier_is_not_looked_up
           Samples.host Samples.now Samples.now (Samples.byId "evt_q9zd")
           [Samples.teamSync; Samples.syncWithBob] "evt_q9zd").
  - reflexivity.
  - discriminate.
  - intros event [<-|[<-|[]]]; repeat split.
  - intros event t h m [<-|[<-|[]]] Et Ec;
      injection Et as <-; injection Ec as <- <-; left; discriminate.
Defined.

(** ** The free-slot sweep *)

Section SweepFacts.

Lemma fits_iff (a b d : Z) :
  fits (Some a) (Some b) (Some d) = true <-> d * 60 * 1000 <= b - a.
Proof.
  unfold fits. rewrite Qle_bool_iff.
  unfold minutesBetween, Qle, Qdiv, Qmult, Qinv, inject_Z. simpl Qnum. simpl Qden.
  change (Qnum ((1000 * 60)%Z # 1)) with 60000.
  cbn [Qnum Qden]. lia.
Qed.

Lemma sweep_invalid (spans : list Span.t) (dayEnd durationMinutes : option Z) :
  sweep spans None dayEnd durationMinutes = [].
Proof. induction spans as [|sp rest IH]; simpl; [reflexivity|exact IH]. Qed.

Lemma in_insertByKey {A} (key : A -> Z) (x y : A) (l : list A) :
  In y (insertByKey key x l) <-> y = x \/ In y l.
Proof.
  induction l as [|z l IH]; simpl.
  - intuition.
  - destruct (key x <=? key z); simpl; [intuition|].
    rewrite IH. intuition.
Qed.

Lemma in_sortByKey {A} (key : A -> Z) (y : A) (l : list A) :
  In y (sortByKey key l) <-> In y l.
Proof.
  induction l as [|x l IH]; simpl; [tauto|].
  rewrite in_insertByKey, IH. intuition.
Qed.

Lemma insertByKey_sorted {A} (key : A -> Z) (x : A) (l : list A) :
  StronglySorted (keyOrdered key) l ->
  StronglySorted (keyOrdered key) (insertByKey key x l).
Proof.
  induction 1 as [|z l Hl IH Hz]; simpl.
  - constructor; constructor.
  - destruct (key x <=? key z) eqn:E.
    + apply Z.leb_le in E. constructor; [constructor; assumption|].
      constructor; [exact E|].
      rewrite Forall_forall in *. intros w Hw. specialize (Hz w Hw).
      unfold keyOrdered in *. lia.
    + apply Z.leb_gt in E. constructor; [exact IH|].
      rewrite Forall_forall in *. intros w Hw.
      apply in_insertByKey in Hw. destruct Hw as [->|Hw].
      * unfold keyOrdered. lia.
      * now apply Hz.
Qed.

Lemma sortByKey_sorted {A} (key : A -> Z) (l : list A) :
  StronglySorted (keyOrdered key) (sortByKey key l).
Proof.
  induction l as [|x l IH]; simpl; [constructor|].
  now apply insertByKey_sorted.
Qed.

Lemma length_insertByKey {A} (key : A -> Z) (x : A) (l : list A) :
  List.length (insertByKey key x l) = S (List.length l).
Proof.
  induction l as [|z l IH]; simpl; [reflexivity|].
  destruct (key x <=? key z); simpl; congruence.
Qed.

Lemma length_sortByKey {A} (key : A -> Z) (l : list A) :
  List.length (sortByKey key l) = List.length l.
Proof.
  induction l as [|x l IH]; [reflexivity|].
  change (sortByKey key (x :: l)) with (insertByKey key x (sortByKey key l)).
  rewrite length_insertByKey, IH. reflexivity.
Qed.

Lemma in_timedSpans (events : list CalendarEvent) (event : CalendarEvent) (s : Z) :
  In event events -> dateTime (start event) = Some s ->
  In {| Span.start := s; Span.end_ := dateTime (end_ event) |} (timedSpans events).
Proof.
  intros Hin Hs. unfold timedSpans. apply in_flat_map.
  exists event. split; [exact Hin|]. rewrite Hs. now left.
Qed.

Lemma length_timedSpans (events : list CalendarEvent) :
  (List.length (timedSpans events) <= List.length events)%nat.
Proof.
  induction events as [|e rest IH]; simpl; [lia|].
  destruct (dateTime (start e)); simpl; lia.
Qed.

Variables (dayEnd : option Z) (minutes : Z).

(** Every slot is [minutes] long. *)
Lemma sweep_slot_length (spans : list Span.t) :
  forall cursor slot,
    In slot (sweep spans cursor dayEnd (Some minutes)) ->
    Slot.end_ slot - Slot.start slot = minutes * 60 * 1000.
Proof.
  assert (A : forall cursor slot, In slot (slotAt cursor (Some minutes)) ->
              Slot.end_ slot - Slot.start slot = minutes * 60 * 1000).
  { intros [c|] slot; simpl; [|tauto]. intros [<-|[]]. simpl. lia. }
  induction spans as [|sp rest IH]; intros cursor slot; simpl.
  - destruct (fits cursor dayEnd (Some minutes)); [apply A|intros []].
  - intro H. apply in_app_or in H. destruct H as [H|H]; [|eauto].
    destruct (fits cursor (Some (Span.start sp)) (Some minutes)); [eauto|destruct H].
Qed.

(** No slot starts before the cursor. *)
Lemma sweep_after_cursor (spans : list Span.t) :
  forall c slot,
    In slot (sweep spans (Some c) dayEnd (Some minutes)) -> c <= Slot.start slot.
Proof.
  induction spans as [|sp rest IH]; intros c slot; cbn [sweep].
  - destruct (fits (Some c) dayEnd (Some minutes)); [|intros []].
    intros [<-|[]]. simpl. lia.
  - intro H. apply in_app_or in H. destruct H as [H|H].
    + destruct (fits (Some c) (Some (Span.start sp)) (Some minutes)); [|destruct H].
      destruct H as [<-|[]]. simpl. lia.
    + destruct (Span.end_ sp) as [e|]; simpl in H.
      * apply IH in H. lia.
      * rewrite sweep_invalid in H. destruct H.
Qed.

(** A slot ends before an event starts or starts after it has ended. *)
Lemma sweep_clear_of_spans (spans : list Span.t) :
  StronglySorted (keyOrdered Span.start) spans ->
  forall c slot sp e,
    In slot (sweep spans (Some c) dayEnd (Some minutes)) ->
    In sp spans -> Span.end_ sp = Some e ->
    Slot.end_ slot <= Span.start sp \/ e <= Slot.start slot.
Proof.
  induction 1 as [|sp0 rest Hrest IH H0]; intros c slot sp e Hslot Hsp He;
    [destruct Hsp|].
  cbn [sweep] in Hslot. apply in_app_or in Hslot. destruct Hslot as [Hslot|Hslot].
  - destruct (fits (Some c) (Some (Span.start sp0)) (Some minutes)) eqn:F;
      [|destruct Hslot].
    destruct Hslot as [<-|[]]. apply fits_iff in F. left. simpl.
    destruct Hsp as [<-|Hsp]; [lia|].
    rewrite Forall_forall in H0. specialize (H0 sp Hsp).
    unfold keyOrdered in H0. lia.
  - destruct (Span.end_ sp0) as [e0|] eqn:E0; simpl in Hslot;
      [|rewrite sweep_invalid in Hslot; destruct Hslot].
    destruct Hsp as [<-|Hsp].
    + right. apply sweep_after_cursor in Hslot.
      rewrite E0 in He. injection He as <-. lia.
    + eapply IH; eassumption.
Qed.

(** A slot starts at the first cursor or where an event ends. *)
Lemma sweep_anchored (spans : list Span.t) :
  forall c slot,
    In slot (sweep spans (Some c) dayEnd (Some minutes)) ->
    Slot.start slot = c
    \/ exists sp, In sp spans /\ Span.end_ sp = Some (Slot.start slot).
Proof.
  induction spans as [|sp rest IH]; intros c slot; cbn [sweep].
  - destruct (fits (Some c) dayEnd (Some minutes)); [|intros []].
    intros [<-|[]]. now left.
  - intro H. apply in_app_or in H. destruct H as [H|H].
    + destruct (fits (Some c) (Some (Span.start sp)) (Some minutes)); [|destruct H].
      destruct H as [<-|[]]. now left.
    + destruct (Span.end_ sp) as [e|] eqn:E; simpl in H;
        [|rewrite sweep_invalid in H; destruct H].
      destruct (IH _ _ H) as [G|(sp' & Hin & G)].
      * destruct (Z.max_spec c e) as [[_ M]|[_ M]]; rewrite M in G.
        -- right. exists sp. split; [now left|congruence].
        -- now left.
      * right. exists sp'. split; [now right|exact G].
Qed.

(** One slot at most before each event and one after the last. *)
Lemma sweep_one_per_gap (spans : list Span.t) :
  forall cursor,
    (List.length (sweep spans cursor dayEnd (Some minutes))
     <= S (List.length spans))%nat.
Proof.
  assert (A : forall cursor, (List.length (slotAt cursor (Some minutes)) <= 1)%nat).
  { intros [c|]; simpl; lia. }
  induction spans as [|sp rest IH]; intro cursor; simpl.
  - destruct (fits cursor dayEnd (Some minutes)); [apply A|simpl; lia].
  - rewrite length_app. specialize (IH (later cursor (Span.end_ sp))).
    destruct (fits cursor (Some (Span.start sp)) (Some minutes));
      [specialize (A cursor)|simpl]; lia.
Qed.

(** The slots end inside the window as long as no event starts after
    the window has closed. *)
Lemma sweep_inside_window (spans : list Span.t) (windowEnd : Z) :
  dayEnd = Some windowEnd ->
  (forall sp, In sp spans -> Span.start sp <= windowEnd) ->
  forall c slot,
    In slot (sweep spans (Some c) dayEnd (Some minutes)) ->
    Slot.end_ slot <= windowEnd.
Proof.
  intros Hend. induction spans as [|sp rest IH]; intros Hin c slot; cbn [sweep].
  - destruct (fits (Some c) dayEnd (Some minutes)) eqn:F; [|intros []].
    rewrite Hend in F. apply fits_iff in F. intros [<-|[]]. simpl. lia.
  - intro H. apply in_app_or in H. destruct H as [H|H].
    + destruct (fits (Some c) (Some (Span.start sp)) (Some minutes)) eqn:F;
        [|destruct H].
      apply fits_iff in F. destruct H as [<-|[]]. simpl.
      specialize (Hin sp (or_introl eq_refl)). lia.
    + destruct (Span.end_ sp) as [e|]; simpl in H;
        [|rewrite sweep_invalid in H; destruct H].
      eapply IH; [|exact H]. intros sp' Hsp'. apply Hin. now right.
Qed.

End SweepFacts.

(** X17: what the finder does guarantee: every slot is exactly the
    asked length, starts no earlier than the window, starts at the
    window's start or where an event ends, and overlaps no event that
    has a precise span. *)
Lemma findFreeSlots_sound
      (events : list CalendarEvent) (dayStart dayEnd minutes : Z) (slot : Slot.t) :
  In slot (findFreeSlots events (Some dayStart) (Some dayEnd) (Some minutes)) ->
  Slot.end_ slot - Slot.start slot = minutes * 60 * 1000 /\
  dayStart <= Slot.start slot /\
  (Slot.start slot = dayStart
   \/ exists event, In event events /\ dateTime (end_ event) = Some (Slot.start slot)) /\
  (forall event s e,
     In event events ->
     dateTime (start event) = Some s -> dateTime (end_ event) = Some e ->
     ~ Z.max (Slot.start slot) s < Z.min (Slot.end_ slot) e).
Proof.
  unfold findFreeSlots. intro H.
  split; [eapply sweep_slot_length; exact H|].
  split; [eapply sweep_after_cursor; exact H|].
  split.
  - destruct (sweep_anchored _ _ _ _ _ H) as [G|(sp & Hsp & G)]; [now left|right].
    apply -> (in_sortByKey Span.start) in Hsp. unfold timedSpans in Hsp.
    apply in_flat_map in Hsp. destruct Hsp as (event & Hin & Hsp).
    exists event. split; [exact Hin|].
    destruct (dateTime (start event)); [|destruct Hsp].
    destruct Hsp as [<-|[]]. exact G.
  - intros event s e Hin Hs He.
    pose proof (in_timedSpans events event s Hin Hs) as Hsp.
    apply <- (in_sortByKey Span.start) in Hsp.
    destruct (sweep_clear_of_spans _ _ _ (sortByKey_sorted Span.start _) _ _ _ e H Hsp He)
      as [G|G]; simpl in G; lia.
Qed.

(** At most one slot per gap: no more slots than events, plus one. *)
Lemma findFreeSlots_one_per_gap
      (events : list CalendarEvent) (dayStart dayEnd : option Z) (minutes : Z) :
  (List.length (findFreeSlots events dayStart dayEnd (Some minutes))
   <= S (List.length events))%nat.
Proof.
  unfold findFreeSlots, sortByStart.
  pose proof (sweep_one_per_gap dayEnd minutes
                (sortByKey Span.start (timedSpans events)) dayStart).
  pose proof (length_sortByKey Span.start (timedSpans events)).
  pose proof (length_timedSpans events). lia.
Qed.

(** X18: the slots stay inside the window when no event starts after
    the window has closed. *)
Lemma findFreeSlots_inside_window
      (events : list CalendarEvent) (dayStart dayEnd minutes : Z) (slot : Slot.t) :
  (forall event s, In event events -> dateTime (start event) = Some s -> s <= dayEnd) ->
  In slot (findFreeSlots events (Some dayStart) (Some dayEnd) (Some minutes)) ->
  dayStart <= Slot.start slot /\ Slot.end_ slot <= dayEnd.
Proof.
  unfold findFreeSlots. intros Hev H.
  split; [eapply sweep_after_cursor; exact H|].
  eapply sweep_inside_window; [reflexivity| |exact H].
  intros sp Hsp. apply -> (in_sortByKey Span.start) in Hsp. unfold timedSpans in Hsp.
  apply in_flat_map in Hsp. destruct Hsp as (event & Hin & Hsp).
  destruct (dateTime (start event)) as [s|] eqn:Es; [|destruct Hsp].
  destruct Hsp as [<-|[]]. simpl. eapply Hev; eassumption.
Qed.

(** One meeting from 10:00 to 11:00 in the window 09:00 to 17:00: the
    hour before it and one hour right after it, not a tiling of the
    afternoon. *)
Example findFreeSlots_single_gap :
  findFreeSlots [Samples.timedEvent "evt_1" "Review" (Samples.jan15 10 0) (Samples.jan15 11 0)]
                (Some (Samples.jan15 9 0)) (Some (Samples.jan15 17 0)) (Some 60)
  = [ {| Slot.start := Samples.jan15 9 0; Slot.end_ := Samples.jan15 10 0 |};
      {| Slot.start := Samples.jan15 11 0; Slot.end_ := Samples.jan15 12 0 |} ].
Proof. reflexivity. Qed.

(** C1 at a failing input: in the window 16:30 to 17:00 with a dinner
    at 18:00, the hour found runs from 16:30 to 17:30, half an hour past
    the window.  The same happens through the dispatcher: asked for a
    free hour today between 9am and 5pm, with a block from 09:00 to
    16:30 and the dinner at 18:00, the only slot reported is 16:30 to
    17:30. *)
Theorem findFreeSlots_slot_past_window :
  findFreeSlots [Samples.dinner]
                (Some (Samples.jan15 16 30)) (Some (Samples.jan15 17 0)) (Some 60)
  = [ {| Slot.start := Samples.jan15 16 30; Slot.end_ := Samples.jan15 17 30 |} ] /\
  Samples.jan15 17 0 < Samples.jan15 17 30 /\
  parseTimeRange Samples.host "9am-5pm" (getTargetDate Samples.host Samples.now "today")
  = (Some (Samples.jan15 9 0), Some (Samples.jan15 17 0)) /\
  handleFunctionCall Samples.host Samples.now Samples.now "find_available_time_slots"
                     (Parsed (Some Samples.freeHour))
                     [Samples.workBlock; Samples.dinner]
                     (calculateMeetingStats [Samples.workBlock; Samples.dinner])
  = Ok (SlotReport
          [ {| Slot.start := Samples.jan15 16 30; Slot.end_ := Samples.jan15 17 30 |} ]).
Proof. repeat split. Qed.

(** * Further properties *)

(** ** Conflict detection *)

Section ConflictFacts.
Local Open Scope list_scope.

Lemma sortByKey_permutation {A} (key : A -> Z) (l : list A) :
  Permutation (sortByKey key l) l.
Proof.
  assert (I : forall x s, Permutation (insertByKey key x s) (x :: s)).
  { intros x s. induction s as [|y s IH]; simpl; [reflexivity|].
    destruct (key x <=? key y); [reflexivity|].
    rewrite IH. apply perm_swap. }
  induction l as [|x l IH]; simpl; [constructor|].
  rewrite I. now constructor.
Qed.

Lemma filter_permutation {A} (f : A -> bool) (l l' : list A) :
  Permutation l l' -> Permutation (List.filter f l) (List.filter f l').
Proof.
  induction 1 as [|x l l' H IH|x y l|l l' l'' H1 IH1 H2 IH2]; simpl.
  - constructor.
  - destruct (f x); [now constructor|exact IH].
  - destruct (f x), (f y); try reflexivity. apply perm_swap.
  - now transitivity (List.filter f l').
Qed.

(** Two occurrences in a list are two occurrences, in one order or the
    other, in each of its permutations. *)
Lemma pair_in_permutation {A} (x y : A) (l1 l2 l3 l' : list A) :
  Permutation l' (l1 ++ x :: l2 ++ y :: l3) ->
  exists k1 k2 k3,
    l' = k1 ++ x :: k2 ++ y :: k3 \/ l' = k1 ++ y :: k2 ++ x :: k3.
Proof.
  intro P.
  assert (Hx : In x l').
  { eapply Permutation_in; [symmetry; exact P|].
    apply in_or_app. right. now left. }
  destruct (in_split _ _ Hx) as (a & b & ->).
  apply Permutation_app_inv in P.
  assert (Hy : In y (a ++ b)).
  { eapply Permutation_in; [symmetry; exact P|].
    apply in_or_app. right. apply in_or_app. right. now left. }
  apply in_app_or in Hy. destruct Hy as [Hy|Hy];
    destruct (in_split _ _ Hy) as (c & d & ->).
  - exists c, d, b. right. now rewrite <- app_assoc.
  - exists a, c, d. now left.
Qed.

(** The inner loop reports exactly the later events that intersect. *)
Lemma in_overlapsWith (first : TimedEvent) (rest : list TimedEvent) (c : Conflict) :
  In c (overlapsWith first rest)
  <-> exists second, In second rest /\ intersect first second
                     /\ c = conflictOf first second.
Proof.
  unfold overlapsWith. rewrite in_flat_map. split.
  - intros (second & Hin & H).
    destruct (Z.max (startDate first) (startDate second)
              <? Z.min (endDate first) (endDate second)) eqn:E; [|destruct H].
    destruct H as [<-|[]]. exists second. repeat split; [exact Hin|].
    now apply Z.ltb_lt.
  - intros (second & Hin & I & ->). exists second. split; [exact Hin|].
    unfold intersect in I. apply Z.ltb_lt in I. rewrite I. now left.
Qed.

(** The two loops report exactly the intersecting pairs, the earlier
    occurrence first. *)
Lemma in_allOverlaps (l : list TimedEvent) (c : Conflict) :
  In c (allOverlaps l)
  <-> exists l1 x l2 y l3,
        l = l1 ++ x :: l2 ++ y :: l3 /\ intersect x y /\ c = conflictOf x y.
Proof.
  induction l as [|a l IH]; simpl.
  - split; [intros []|]. intros (l1 & x & l2 & y & l3 & E & _).
    destruct l1; discriminate.
  - rewrite in_app_iff, in_overlapsWith, IH. split.
    + intros [(y & Hy & I & ->)|(l1 & x & l2 & y & l3 & -> & I & ->)].
      * destruct (in_split _ _ Hy) as (l2 & l3 & ->).
        exists [], a, l2, y, l3. auto.
      * exists (a :: l1), x, l2, y, l3. auto.
    + intros (l1 & x & l2 & y & l3 & E & I & ->).
      destruct l1 as [|b l1]; simpl in E; injection E as -> ->.
      * left. exists y. repeat split; [|exact I].
        apply in_or_app. right. now left.
      * right. exists l1, x, l2, y, l3. auto.
Qed.

Lemma sorted_pair_ordered {A} (key : A -> Z) (l1 l2 l3 : list A) (x y : A) :
  StronglySorted (keyOrdered key) (l1 ++ x :: l2 ++ y :: l3) -> key x <= key y.
Proof.
  induction l1 as [|a l1 IH]; simpl; intro S; inversion S; subst.
  - rewrite Forall_forall in *. apply (H2 y). apply in_or_app. right. now left.
  - now apply IH.
Qed.

Lemma in_conflictCandidates (tz now : Z) (period : string)
      (events : list CalendarEvent) (x : TimedEvent) :
  In x (conflictCandidates tz now period events)
  <-> In (original x) events
      /\ inTimeframe tz now period (original x) = true
      /\ dateTime (start (original x)) = Some (startDate x)
      /\ endDate x = getLocalEventTime now (end_ (original x)).
Proof.
  unfold conflictCandidates. rewrite in_map_iff. split.
  - intros (e & <- & He). apply filter_In in He. destruct He as (He & T).
    apply filter_In in He. destruct He as (He & F). simpl.
    unfold getLocalEventTime.
    destruct (dateTime (start e)); [auto|discriminate].
  - intros (He & F & T & E). exists (original x). split.
    + destruct x as [o s e]. simpl in *. subst e.
      unfold getLocalEventTime. now rewrite T.
    + apply filter_In. split; [apply filter_In; auto|]. now rewrite T.
Qed.

Lemma conflictCandidates_app (tz now : Z) (period : string)
      (l l' : list CalendarEvent) :
  conflictCandidates tz now period (l ++ l')
  = conflictCandidates tz now period l ++ conflictCandidates tz now period l'.
Proof.
  unfold conflictCandidates. now rewrite !filter_app, map_app.
Qed.

Lemma conflictCandidates_cons (tz now : Z) (period : string)
      (e : CalendarEvent) (l : list CalendarEvent) (s : Z) :
  inTimeframe tz now period e = true ->
  dateTime (start e) = Some s ->
  conflictCandidates tz now period (e :: l)
  = {| original := e; startDate := s;
       endDate := getLocalEventTime now (end_ e) |}
    :: conflictCandidates tz now period l.
Proof.
  intros F T. unfold conflictCandidates. simpl. rewrite F. simpl. rewrite T. simpl.
  unfold getLocalEventTime at 1. now rewrite T.
Qed.

End ConflictFacts.

(** X1: every conflict reported is a pair of events of the input that
    fall in the period and have a precise start, the first starting no
    later than the second; their spans share a stretch of positive
    length, the overlap is that length in minutes, and the label is the
    severity of that overlap. *)
Theorem findConflicts_sound
        (tz now : Z) (period : string) (events : list CalendarEvent)
        (conflicts : list Conflict) (c : Conflict) :
  findConflicts tz now (Some period) events = Ok (ConflictReport period conflicts) ->
  In c conflicts ->
  In (original (event1 c)) events /\
  In (original (event2 c)) events /\
  inTimeframe tz now period (original (event1 c)) = true /\
  inTimeframe tz now period (original (event2 c)) = true /\
  dateTime (start (original (event1 c))) = Some (startDate (event1 c)) /\
  dateTime (start (original (event2 c))) = Some (startDate (event2 c)) /\
  startDate (event1 c) <= startDate (event2 c) /\
  startDate (event2 c) < Z.min (endDate (event1 c)) (endDate (event2 c)) /\
  overlapDuration c
  = minutesBetween (startDate (event2 c))
                   (Z.min (endDate (event1 c)) (endDate (event2 c))) /\
  (0 < overlapDuration c)%Q /\
  conflictType c = getConflictType (overlapDuration c).
Proof.
  unfold findConflicts. intros E Hc. injection E as <-.
  fold (conflictCandidates tz now period events) in Hc.
  apply in_allOverlaps in Hc.
  destruct Hc as (l1 & x & l2 & y & l3 & El & I & ->).
  pose proof (sortByKey_sorted startDate (conflictCandidates tz now period events)) as S.
  rewrite El in S. apply sorted_pair_ordered in S.
  assert (Hx : In x (conflictCandidates tz now period events)).
  { apply (in_sortByKey startDate). rewrite El. apply in_or_app. right. now left. }
  assert (Hy : In y (conflictCandidates tz now period events)).
  { apply (in_sortByKey startDate). rewrite El. apply in_or_app. right.
    right. apply in_or_app. right. now left. }
  apply in_conflictCandidates in Hx, Hy.
  destruct Hx as (Hx1 & Hx2 & Hx3 & _), Hy as (Hy1 & Hy2 & Hy3 & _).
  unfold intersect in I. simpl.
  rewrite (Z.max_r _ _ S) in *.
  repeat split; auto.
  unfold minutesBetween, Qlt, Qdiv, Qmult, Qinv, inject_Z. simpl. lia.
Qed.

(** The standup and the client call conflict; the standup, which
    starts first, is the first of the pair. *)
Lemma findConflicts_sound_witness :
  exists c,
    findConflicts (-300) Samples.now (Some "today")
                  [Samples.clientCall; Samples.standup]
    = Ok (ConflictReport "today" [c]) /\
    startDate (event1 c) <= startDate (event2 c) /\
    (0 < overlapDuration c)%Q.
Proof.
  eexists. split; [reflexivity|].
  pose proof (findConflicts_sound (-300) Samples.now "today"
                [Samples.clientCall; Samples.standup] _ _
                eq_refl (or_introl eq_refl)) as H.
  split; apply H.
Defined.

(** X2: two events of the input, at two places of the list, that fall
    in the period, have a precise start and whose spans share a stretch
    of positive length are reported as a conflict, in one order or the
    other, with that stretch as the overlap. *)
Theorem findConflicts_complete
        (tz now : Z) (period : string)
        (l1 l2 l3 : list CalendarEvent) (a b : CalendarEvent) (sa sb : Z) :
  inTimeframe tz now period a = true ->
  inTimeframe tz now period b = true ->
  dateTime (start a) = Some sa ->
  dateTime (start b) = Some sb ->
  Z.max sa sb
  < Z.min (getLocalEventTime now (end_ a)) (getLocalEventTime now (end_ b)) ->
  exists conflicts c,
    findConflicts tz now (Some period) (l1 ++ a :: l2 ++ b :: l3)%list
    = Ok (ConflictReport period conflicts) /\
    In c conflicts /\
    ((original (event1 c) = a /\ original (event2 c) = b)
     \/ (original (event1 c) = b /\ original (event2 c) = a)) /\
    overlapDuration c
    = minutesBetween
        (Z.max sa sb)
        (Z.min (getLocalEventTime now (end_ a)) (getLocalEventTime now (end_ b))).
Proof.
  intros Fa Fb Ta Tb I.
  unfold findConflicts.
  fold (conflictCandidates tz now period (l1 ++ a :: l2 ++ b :: l3)%list).
  eexists. 
  set (ta := {| original := a; startDate := sa;
                endDate := getLocalEventTime now (end_ a) |}).
  set (tb := {| original := b; startDate := sb;
                endDate := getLocalEventTime now (end_ b) |}).
  assert (C : exists k1 k2 k3,
             conflictCandidates tz now period (l1 ++ a :: l2 ++ b :: l3)%list
             = (k1 ++ ta :: k2 ++ tb :: k3)%list).
  { rewrite conflictCandidates_app, (conflictCandidates_cons _ _ _ a _ sa Fa Ta).
    rewrite conflictCandidates_app, (conflictCandidates_cons _ _ _ b _ sb Fb Tb).
    fold ta tb. eauto. }
  destruct C as (k1 & k2 & k3 & C).
  pose proof (sortByKey_permutation
                startDate
                (conflictCandidates tz now period (l1 ++ a :: l2 ++ b :: l3)%list))
    as P.
  rewrite C in P at 2.
  destruct (pair_in_permutation _ _ _ _ _ _ P) as (j1 & j2 & j3 & [E|E]).
  - exists (conflictOf ta tb). split; [reflexivity|].
    split; [apply in_allOverlaps; exists j1, ta, j2, tb, j3; auto|].
    split; [now left|reflexivity].
  - exists (conflictOf tb ta). split; [reflexivity|].
    split.
    + apply in_allOverlaps. exists j1, tb, j2, ta, j3. repeat split; [exact E|].
      unfold intersect. simpl. rewrite Z.max_comm, Z.min_comm. exact I.
    + split; [now right|]. simpl. now rewrite Z.max_comm, Z.min_comm.
Qed.

(** Listed in either order, the client call and the standup are
    reported with their five minutes. *)
Lemma findConflicts_complete_witness :
  exists conflicts c,
    findConflicts (-300) Samples.now (Some "today")
                  [Samples.clientCall; Samples.standup]
    = Ok (ConflictReport "today" conflicts) /\
    In c conflicts /\
    (overlapDuration c == 5)%Q.
Proof.
  destruct (findConflicts_complete (-300) Samples.now "today" [] [] []
              Samples.clientCall Samples.standup
              (Samples.jan15 9 10) (Samples.jan15 9 0)
              eq_refl eq_refl eq_refl eq_refl eq_refl)
    as (conflicts & c & E & Hc & _ & O).
  exists conflicts, c. split; [exact E|]. split; [exact Hc|].
  rewrite O. reflexivity.
Defined.

(** X3: the order in which the events are listed does not matter: a
    conflict reported for a list is reported for each of its
    permutations, between the same two events, possibly named in the
    other order, with the same overlap and the same label. *)
Theorem findConflicts_order_independent
        (tz now : Z) (period : string) (events events' : list CalendarEvent)
        (conflicts : list Conflict) (c : Conflict) :
  Permutation events events' ->
  findConflicts tz now (Some period) events = Ok (ConflictReport period conflicts) ->
  In c conflicts ->
  exists conflicts' c',
    findConflicts tz now (Some period) events' = Ok (ConflictReport period conflicts') /\
    In c' conflicts' /\
    ((event1 c' = event1 c /\ event2 c' = event2 c)
     \/ (event1 c' = event2 c /\ event2 c' = event1 c)) /\
    overlapDuration c' = overlapDuration c /\
    conflictType c' = conflictType c.
Proof.
  intros P E Hc. unfold findConflicts in *. injection E as <-.
  fold (conflictCandidates tz now period events) in Hc.
  fold (conflictCandidates tz now period events').
  apply in_allOverlaps in Hc.
  destruct Hc as (l1 & x & l2 & y & l3 & El & I & ->).
  assert (P' : Permutation
                 (sortByKey startDate (conflictCandidates tz now period events'))
                 (l1 ++ x :: l2 ++ y :: l3)%list).
  { rewrite <- El. rewrite !sortByKey_permutation. unfold conflictCandidates.
    apply Permutation_map. do 2 apply filter_permutation. now symmetry. }
  destruct (pair_in_permutation _ _ _ _ _ _ P') as (j1 & j2 & j3 & [E|E]).
  - eexists. exists (conflictOf x y). split; [reflexivity|].
    split; [apply in_allOverlaps; exists j1, x, j2, y, j3; auto|].
    split; [now left|]. split; reflexivity.
  - eexists. exists (conflictOf y x). split; [reflexivity|].
    assert (I' : intersect y x).
    { unfold intersect in *. now rewrite Z.max_comm, Z.min_comm. }
    split; [apply in_allOverlaps; exists j1, y, j2, x, j3; auto|].
    split; [now right|].
    unfold conflictOf. simpl.
    rewrite (Z.max_comm (startDate y)), (Z.min_comm (endDate y)). split; reflexivity.
Qed.

(** The standup and the client call, listed either way round. *)
Lemma findConflicts_order_independent_witness :
  exists conflicts' c',
    findConflicts (-300) Samples.now (Some "today")
                  [Samples.standup; Samples.clientCall]
    = Ok (ConflictReport "today" conflicts') /\
    In c' conflicts' /\
    (overlapDuration c' == 5)%Q.
Proof.
  destruct (findConflicts_order_independent
              (-300) Samples.now "today"
              [Samples.clientCall; Samples.standup]
              [Samples.standup; Samples.clientCall] _ _
              (perm_swap _ _ _) eq_refl (or_introl eq_refl))
    as (conflicts' & c' & E & Hc & _ & O & _).
  exists conflicts', c'. split; [exact E|]. split; [exact Hc|].
  rewrite O. reflexivity.
Defined.

(** ** Periods and listings *)

Section ListingFacts.

Lemma filter_all {A} (f : A -> bool) (l : list A) :
  (forall x, In x l -> f x = true) -> List.filter f l = l.
Proof.
  induction l as [|x l IH]; intro H; simpl; [reflexivity|].
  rewrite (H x (or_introl eq_refl)). f_equal. apply IH.
  intros y Hy. apply H. now right.
Qed.

End ListingFacts.

(** X4: a period word other than today, tomorrow, week, this week and
    month (in any letter case) filters nothing: every event is in the
    period, the event list shows all events and the conflict finder
    examines every event that has a precise start. *)
Theorem unrecognised_timeframe_keeps_all
        (tz now : Z) (period : string) (events : list CalendarEvent) :
  toLowerCase period <> "today" ->
  toLowerCase period <> "tomorrow" ->
  toLowerCase period <> "week" ->
  toLowerCase period <> "this week" ->
  toLowerCase period <> "month" ->
  (forall e, inTimeframe tz now period e = true) /\
  listUpcomingEvents tz now events (Some period) None = Ok (EventList events) /\
  conflictCandidates tz now period events
  = map (fun e => {| original := e;
                     startDate := getLocalEventTime now (start e);
                     endDate := getLocalEventTime now (end_ e) |})
        (List.filter (fun e => present (dateTime (start e))) events).
Proof.
  intros H1 H2 H3 H4 H5.
  assert (A : forall e, inTimeframe tz now period e = true).
  { intro e. unfold inTimeframe.
    apply String.eqb_neq in H1, H2, H3, H4, H5. now rewrite H1, H2, H3, H4, H5. }
  split; [exact A|]. split.
  - unfold listUpcomingEvents. change (guarded None) with (@None string).
    destruct (guarded (Some period)) as [k|] eqn:G; [|reflexivity].
    assert (k = period) by (unfold guarded in G; destruct period; [discriminate|];
                            simpl in G; congruence).
    subst k. rewrite (filter_all (inTimeframe tz now period)); auto.
  - unfold conflictCandidates. rewrite (filter_all (inTimeframe tz now period)); auto.
Qed.

(** "next week" is such a word: nothing is filtered. *)
Lemma unrecognised_timeframe_keeps_all_witness :
  listUpcomingEvents (-300) Samples.now
                     [Samples.teamSync; Samples.holiday] (Some "next week") None
  = Ok (EventList [Samples.teamSync; Samples.holiday]).
Proof.
  apply (unrecognised_timeframe_keeps_all
           (-300) Samples.now "next week" [Samples.teamSync; Samples.holiday]);
    discriminate.
Defined.

(** X5: with a keyword and no period, the events listed are the events
    of the input whose title, or whose non-empty description, contains
    the keyword, letter case apart, in their input order and as often
    as the input holds them; the list is the same for every spelling
    of the keyword that differs in letter case only. *)
Theorem listUpcomingEvents_keyword
        (tz now : Z) (events listed : list CalendarEvent) (keyword : string) :
  keyword <> EmptyString ->
  listUpcomingEvents tz now events None (Some keyword) = Ok (EventList listed) ->
  listed
  = List.filter
      (fun e =>
         includes (toLowerCase (summary e)) (toLowerCase keyword)
         || match description e with
            | Some (String c text) =>
                includes (toLowerCase (String c text)) (toLowerCase keyword)
            | _ => false
            end)
      events /\
  (forall e,
     In e listed
     <-> In e events /\
         (includes (toLowerCase (summary e)) (toLowerCase keyword) = true
          \/ exists text, description e = Some text /\ text <> EmptyString /\
                          includes (toLowerCase text) (toLowerCase keyword) = true)) /\
  (forall keyword',
     toLowerCase keyword' = toLowerCase keyword ->
     listUpcomingEvents tz now events None (Some keyword') = Ok (EventList listed)).
Proof.
  intros N E. unfold listUpcomingEvents in *.
  change (guarded None) with (@None string) in *.
  rewrite (guarded_some (Some keyword) keyword eq_refl N) in E.
  injection E as <-. split; [|split].
  - apply filter_ext. intro e.
    destruct (description e) as [[|c text]|]; reflexivity.
  - intro e. rewrite filter_In. split; intros (He & H); (split; [exact He|]).
    + apply orb_prop in H. destruct H as [H|H]; [now left|right].
      destruct (description e) as [[|a text]|]; try discriminate.
      exists (String a text). repeat split; [discriminate|exact H].
    + destruct H as [H|(text & D & T & H)]; [now rewrite H|].
      rewrite D. rewrite (guarded_some (Some text) text eq_refl T), H.
      apply orb_true_r.
  - intros keyword' L.
    assert (N' : keyword' <> EmptyString).
    { intros ->. destruct keyword; [contradiction|discriminate]. }
    rewrite (guarded_some (Some keyword') keyword' eq_refl N'). now rewrite L.
Qed.

(** Asked for "SYNC", the list holds the two events whose titles say
    "Sync". *)
Lemma listUpcomingEvents_keyword_witness :
  listUpcomingEvents (-300) Samples.now
    [Samples.teamSync; Samples.holiday; Samples.syncWithBob] None (Some "SYNC")
  = Ok (EventList [Samples.teamSync; Samples.syncWithBob]).
Proof.
  apply (proj2 (proj2 (listUpcomingEvents_keyword
                         (-300) Samples.now
                         [Samples.teamSync; Samples.holiday; Samples.syncWithBob]
                         [Samples.teamSync; Samples.syncWithBob] "sync"
                         ltac:(discriminate) eq_refl)) "SYNC" eq_refl).
Defined.

(** ** Neighbours of a slot *)

Section NeighbourFacts.

Lemma sortByKey_head {A} (key : A -> Z) (l : list A) (x : A) (rest : list A) :
  sortByKey key l = x :: rest ->
  In x l /\ forall y, In y l -> key x <= key y.
Proof.
  intro E. split.
  - apply (in_sortByKey key). rewrite E. now left.
  - intros y Hy. apply (in_sortByKey key) in Hy. rewrite E in Hy.
    pose proof (sortByKey_sorted key l) as S. rewrite E in S.
    inversion S; subst. destruct Hy as [<-|Hy]; [lia|].
    rewrite Forall_forall in H2. exact (H2 y Hy).
Qed.

Lemma sortByKey_nil {A} (key : A -> Z) (l : list A) :
  sortByKey key l = [] -> l = [].
Proof.
  intro E. pose proof (length_sortByKey key l) as L. rewrite E in L.
  destruct l; [reflexivity|discriminate].
Qed.

End NeighbourFacts.

(** X6: the event found before a time is an event of the list with a
    precise start earlier than that time, and no such event starts
    later than it; the event found after a time starts later than that
    time, and no such event starts earlier; nothing is found exactly
    when there is no such event. *)
Theorem neighbours_are_nearest (events : list CalendarEvent) (time : Z) :
  (forall e, findEventBeforeTime events time = Some e ->
     exists s, In e events /\ dateTime (start e) = Some s /\ s < time /\
       forall e' s', In e' events -> dateTime (start e') = Some s' -> s' < time ->
                     s' <= s) /\
  (findEventBeforeTime events time = None <->
   forall e' s', In e' events -> dateTime (start e') = Some s' -> time <= s') /\
  (forall e, findEventAfterTime events time = Some e ->
     exists s, In e events /\ dateTime (start e) = Some s /\ time < s /\
       forall e' s', In e' events -> dateTime (start e') = Some s' -> time < s' ->
                     s <= s') /\
  (findEventAfterTime events time = None <->
   forall e' s', In e' events -> dateTime (start e') = Some s' -> s' <= time).
Proof.
  assert (M : forall (f : CalendarEvent -> bool) e,
             In e (List.filter f
                     (List.filter (fun e => present (dateTime (start e))) events))
             <-> In e events /\ (exists s, dateTime (start e) = Some s) /\ f e = true).
  { intros f e. rewrite !filter_In. split.
    - intros ((He & T) & F). destruct (dateTime (start e)) eqn:D; [|discriminate].
      eauto.
    - intros (He & (s & D) & F). rewrite D. auto. }
  unfold findEventBeforeTime, findEventAfterTime.
  repeat split.
  - intros e E.
    destruct (sortByKey _ _) as [|x rest] eqn:S in E; [discriminate|].
    injection E as ->. apply sortByKey_head in S. destruct S as (Hin & Hmin).
    apply M in Hin. destruct Hin as (He & (s & D) & F).
    unfold startOf in F. rewrite D in F. apply Z.ltb_lt in F.
    exists s. repeat split; auto.
    intros e' s' He' D' L.
    assert (Hin' : In e' (List.filter (fun e => startOf e <? time)
                            (List.filter (fun e => present (dateTime (start e)))
                                         events))).
    { apply M. repeat split; [exact He'|eauto|].
      unfold startOf. rewrite D'. now apply Z.ltb_lt. }
    specialize (Hmin e' Hin'). unfold startOf in Hmin. rewrite D, D' in Hmin. lia.
  - intros E e' s' He' D'.
    destruct (sortByKey _ _) as [|x rest] eqn:S in E; [|discriminate].
    apply sortByKey_nil in S.
    destruct (Z.lt_ge_cases s' time) as [L|L]; [|exact L].
    assert (Hin' : In e' []).
    { rewrite <- S. apply M. repeat split; [exact He'|eauto|].
      unfold startOf. rewrite D'. now apply Z.ltb_lt. }
    destruct Hin'.
  - intro H.
    destruct (sortByKey _ _) as [|x rest] eqn:S; [reflexivity|].
    apply sortByKey_head in S. destruct S as (Hin & _).
    apply M in Hin. destruct Hin as (He & (s & D) & F).
    unfold startOf in F. rewrite D in F. apply Z.ltb_lt in F.
    specialize (H x s He D). lia.
  - intros e E.
    destruct (sortByKey _ _) as [|x rest] eqn:S in E; [discriminate|].
    injection E as ->. apply sortByKey_head in S. destruct S as (Hin & Hmin).
    apply M in Hin. destruct Hin as (He & (s & D) & F).
    unfold startOf in F. rewrite D in F. apply Z.ltb_lt in F.
    exists s. repeat split; auto.
    intros e' s' He' D' L.
    assert (Hin' : In e' (List.filter (fun e => time <? startOf e)
                            (List.filter (fun e => present (dateTime (start e)))
                                         events))).
    { apply M. repeat split; [exact He'|eauto|].
      unfold startOf. rewrite D'. now apply Z.ltb_lt. }
    specialize (Hmin e' Hin'). unfold startOf in Hmin. rewrite D, D' in Hmin. lia.
  - intros E e' s' He' D'.
    destruct (sortByKey _ _) as [|x rest] eqn:S in E; [|discriminate].
    apply sortByKey_nil in S.
    destruct (Z.lt_ge_cases time s') as [L|L]; [|lia].
    assert (Hin' : In e' []).
    { rewrite <- S. apply M. repeat split; [exact He'|eauto|].
      unfold startOf. rewrite D'. now apply Z.ltb_lt. }
    destruct Hin'.
  - intro H.
    destruct (sortByKey _ _) as [|x rest] eqn:S; [reflexivity|].
    apply sortByKey_head in S. destruct S as (Hin & _).
    apply M in Hin. destruct Hin as (He & (s & D) & F).
    unfold startOf in F. rewrite D in F. apply Z.ltb_lt in F.
    specialize (H x s He D). lia.
Qed.

(** Before 17:00 the last event to start is the sync at 13:00. *)
Lemma neighbours_are_nearest_witness :
  findEventBeforeTime [Samples.teamSync; Samples.syncWithBob; Samples.dinner]
                      (Samples.jan15 17 0)
  = Some Samples.syncWithBob /\
  exists s, dateTime (start Samples.syncWithBob) = Some s /\ s < Samples.jan15 17 0.
Proof.
  split; [reflexivity|].
  destruct (proj1 (neighbours_are_nearest
                     [Samples.teamSync; Samples.syncWithBob; Samples.dinner]
                     (Samples.jan15 17 0)) Samples.syncWithBob eq_refl)
    as (s & _ & D & L & _).
  exists s. split; [exact D|exact L].
Defined.

(** ** More on the free slots *)

Section SlotOrderFacts.

Lemma fits_leb (a b d : Z) :
  fits (Some a) (Some b) (Some d) = (d * 60 * 1000 <=? b - a).
Proof.
  destruct (d * 60 * 1000 <=? b - a) eqn:E.
  - apply fits_iff. now apply Z.leb_le.
  - destruct (fits (Some a) (Some b) (Some d)) eqn:F; [|reflexivity].
    apply fits_iff in F. apply Z.leb_gt in E. lia.
Qed.

Lemma sweep_in_order (dayEnd : option Z) (minutes : Z) (spans : list Span.t) :
  0 <= minutes ->
  (forall sp e, In sp spans -> Span.end_ sp = Some e -> Span.start sp <= e) ->
  forall c, StronglySorted slotBefore (sweep spans (Some c) dayEnd (Some minutes)).
Proof.
  intros Hm. induction spans as [|sp rest IH]; intros W c; cbn [sweep].
  - destruct (fits (Some c) dayEnd (Some minutes)); simpl; repeat constructor.
  - assert (T : StronglySorted slotBefore
                  (sweep rest (later (Some c) (Span.end_ sp)) dayEnd (Some minutes))).
    { destruct (Span.end_ sp) as [e|]; simpl.
      - apply IH. intros sp' e' Hin. apply W. now right.
      - rewrite sweep_invalid. constructor. }
    destruct (fits (Some c) (Some (Span.start sp)) (Some minutes)) eqn:F;
      [|exact T].
    apply fits_iff in F. simpl. constructor; [exact T|].
    rewrite Forall_forall. intros slot Hslot.
    destruct (Span.end_ sp) as [e|] eqn:E; simpl in Hslot;
      [|rewrite sweep_invalid in Hslot; destruct Hslot].
    apply sweep_after_cursor in Hslot.
    pose proof (W sp e (or_introl eq_refl) E).
    unfold slotBefore. simpl. lia.
Qed.

End SlotOrderFacts.

(** X7: for a duration that is not negative and events that do not end
    before they start, the free slots come in chronological order and
    no two of them overlap: each has ended when the next one starts. *)
Theorem findFreeSlots_in_order
        (events : list CalendarEvent) (dayStart : Z) (dayEnd : option Z) (minutes : Z) :
  0 <= minutes ->
  (forall e s t, In e events -> dateTime (start e) = Some s ->
                 dateTime (end_ e) = Some t -> s <= t) ->
  StronglySorted slotBefore
                 (findFreeSlots events (Some dayStart) dayEnd (Some minutes)).
Proof.
  intros Hm W. unfold findFreeSlots. apply sweep_in_order; [exact Hm|].
  intros sp t Hsp Ht. apply -> (in_sortByKey Span.start) in Hsp.
  unfold timedSpans in Hsp. apply in_flat_map in Hsp.
  destruct Hsp as (e & He & Hsp).
  destruct (dateTime (start e)) as [s|] eqn:D; [|destruct Hsp].
  destruct Hsp as [<-|[]]. simpl in *. eapply W; eassumption.
Qed.

(** Around a one-hour review the two free hours are in order. *)
Lemma findFreeSlots_in_order_witness :
  StronglySorted slotBefore
    (findFreeSlots
       [Samples.timedEvent "evt_1" "Review" (Samples.jan15 10 0) (Samples.jan15 11 0)]
       (Some (Samples.jan15 9 0)) (Some (Samples.jan15 17 0)) (Some 60)).
Proof.
  apply findFreeSlots_in_order; [lia|].
  intros e s t [<-|[]] Hs Ht. injection Hs as <-. injection Ht as <-.
  unfold Samples.jan15, msPerHour, msPerMinute. lia.
Defined.

(** X8: when no event of the day has a precise start (an empty day, or
    whole-day events only), the finder returns a single slot, at the
    start of the window, if the window is long enough for the duration,
    and nothing otherwise: a long free window is not cut into several
    slots. *)
Theorem findFreeSlots_free_day
        (events : list CalendarEvent) (dayStart dayEnd minutes : Z) :
  (forall e, In e events -> dateTime (start e) = None) ->
  findFreeSlots events (Some dayStart) (Some dayEnd) (Some minutes)
  = if minutes * 60 * 1000 <=? dayEnd - dayStart
    then [ {| Slot.start := dayStart;
              Slot.end_ := dayStart + minutes * 60 * 1000 |} ]
    else [].
Proof.
  intro H. unfold findFreeSlots.
  assert (E : timedSpans events = []).
  { unfold timedSpans. induction events as [|e rest IH]; [reflexivity|].
    simpl. rewrite (H e (or_introl eq_refl)). simpl. apply IH.
    intros e' He'. apply H. now right. }
  rewrite E. cbn [sortByStart sortByKey fold_right sweep]. rewrite fits_leb.
  reflexivity.
Qed.

(** A holiday from 9 to 5: one free hour is offered, at 09:00. *)
Lemma findFreeSlots_free_day_witness :
  findFreeSlots [Samples.holiday]
                (Some (Samples.jan15 9 0)) (Some (Samples.jan15 17 0)) (Some 60)
  = [ {| Slot.start := Samples.jan15 9 0; Slot.end_ := Samples.jan15 10 0 |} ].
Proof.
  rewrite (findFreeSlots_free_day [Samples.holiday]).
  - reflexivity.
  - intros e [<-|[]]. reflexivity.
Defined.

(** A review from 10:00 to 11:00 in the window 09:00 to 17:00: the
    hour offered after it runs from 11:00 to 12:00, where the review
    ends. *)
Lemma findFreeSlots_sound_witness :
  In {| Slot.start := Samples.jan15 11 0; Slot.end_ := Samples.jan15 12 0 |}
     (findFreeSlots
        [Samples.timedEvent "evt_1" "Review" (Samples.jan15 10 0) (Samples.jan15 11 0)]
        (Some (Samples.jan15 9 0)) (Some (Samples.jan15 17 0)) (Some 60))
  /\ Samples.jan15 12 0 - Samples.jan15 11 0 = 60 * 60 * 1000
  /\ Samples.jan15 9 0 <= Samples.jan15 11 0.
Proof.
  assert (I : In {| Slot.start := Samples.jan15 11 0; Slot.end_ := Samples.jan15 12 0 |}
                 (findFreeSlots
                    [Samples.timedEvent "evt_1" "Review"
                                        (Samples.jan15 10 0) (Samples.jan15 11 0)]
                    (Some (Samples.jan15 9 0)) (Some (Samples.jan15 17 0)) (Some 60)))
    by (right; left; reflexivity).
  destruct (findFreeSlots_sound _ _ _ _ _ I) as (H1 & H2 & _).
  split; [exact I|]. split; [exact H1|exact H2].
Defined.

(** The same day: the review does not start after 17:00, and the hour
    after it ends by 17:00. *)
Lemma findFreeSlots_inside_window_witness :
  In {| Slot.start := Samples.jan15 11 0; Slot.end_ := Samples.jan15 12 0 |}
     (findFreeSlots
        [Samples.timedEvent "evt_1" "Review" (Samples.jan15 10 0) (Samples.jan15 11 0)]
        (Some (Samples.jan15 9 0)) (Some (Samples.jan15 17 0)) (Some 60))
  /\ Samples.jan15 9 0 <= Samples.jan15 11 0
  /\ Samples.jan15 12 0 <= Samples.jan15 17 0.
Proof.
  assert (I : In {| Slot.start := Samples.jan15 11 0; Slot.end_ := Samples.jan15 12 0 |}
                 (findFreeSlots
                    [Samples.timedEvent "evt_1" "Review"
                                        (Samples.jan15 10 0) (Samples.jan15 11 0)]
                    (Some (Samples.jan15 9 0)) (Some (Samples.jan15 17 0)) (Some 60)))
    by (right; left; reflexivity).
  split; [exact I|].
  apply (findFreeSlots_inside_window
           [Samples.timedEvent "evt_1" "Review"
                               (Samples.jan15 10 0) (Samples.jan15 11 0)]
           (Samples.jan15 9 0) (Samples.jan15 17 0) 60
           {| Slot.start := Samples.jan15 11 0; Slot.end_ := Samples.jan15 12 0 |});
    [|exact I].
  intros e s [<-|[]] Hs. injection Hs as <-.
  unfold Samples.jan15, msPerHour, msPerMinute. lia.
Defined.

(** ** Reading numbers and units *)

Section ReadingFacts.

Lemma string_of_uint_digits (d : Decimal.uint) :
  allOf is_digit (NilEmpty.string_of_uint d).
Proof.
  induction d; intros a Ha; simpl in Ha; try destruct Ha as [<-|Ha];
    try reflexivity; try contradiction; now apply IHd.
Qed.

Lemma to_uint_not_nil (n : nat) : Nat.to_uint n <> Decimal.Nil.
Proof.
  intro E. pose proof (Unsigned.to_of (Nat.to_uint n)) as H.
  rewrite Unsigned.of_to in H. rewrite E in H at 1.
  rewrite E in H. discriminate.
Qed.

Lemma digits_prefix_of_uint (d : Decimal.uint) :
  forall acc,
    digits_prefix (Some (Z.of_nat acc)) (NilEmpty.string_of_uint d)
    = Some (Z.of_nat (Nat.of_uint_acc d acc)).
Proof.
  induction d; intro acc; cbn [NilEmpty.string_of_uint digits_prefix Nat.of_uint_acc];
    try reflexivity;
    match goal with
    | |- context [is_digit ?c] => change (is_digit c) with true; cbv iota
    end;
    rewrite <- IHd; f_equal; apply f_equal; rewrite ?Nat.tail_mul_spec;
    match goal with
    | |- context [digit_value ?c] =>
        let v := eval vm_compute in (digit_value c) in
        change (digit_value c) with v
    end; lia.
Qed.

(** Printing a number and reading it back gives the number. *)
Lemma parseInt_decimal (n : nat) :
  Z.of_nat n <= MAX_SAFE_INTEGER ->
  parseInt (Some (decimal n)) = Some (Z.of_nat n).
Proof.
  intro B. unfold parseInt, decimal.
  assert (H : forall d, d <> Decimal.Nil ->
                        digits_prefix None (NilEmpty.string_of_uint d)
                        = digits_prefix (Some (Z.of_nat 0)) (NilEmpty.string_of_uint d)).
  { intros d Hd. destruct d; try contradiction; reflexivity. }
  rewrite H by apply to_uint_not_nil.
  rewrite digits_prefix_of_uint. cbn [option_map]. f_equal.
  change (Nat.of_uint_acc (Nat.to_uint n) 0) with (Nat.of_uint (Nat.to_uint n)).
  rewrite Unsigned.of_to. apply toNumber_exact. lia.
Qed.

Lemma decimal_opens_with_digit (n : nat) :
  exists a s, decimal n = String a s /\ is_digit a = true /\ allOf is_digit s.
Proof.
  unfold decimal. pose proof (to_uint_not_nil n) as N.
  pose proof (string_of_uint_digits (Nat.to_uint n)) as D.
  destruct (Nat.to_uint n); try contradiction; simpl in *;
    eexists; eexists; (split; [reflexivity|]);
    (split; [reflexivity|]); intros a Ha; apply D; now right.
Qed.

Lemma list_ascii_app (s t : string) :
  list_ascii_of_string (s ++ t)
  = (list_ascii_of_string s ++ list_ascii_of_string t)%list.
Proof. induction s as [|a s IH]; simpl; [reflexivity|now rewrite IH]. Qed.

Lemma length_app_string (s t : string) :
  String.length (s ++ t) = (String.length s + String.length t)%nat.
Proof. induction s as [|a s IH]; simpl; [reflexivity|now rewrite IH]. Qed.

Lemma consumed_app (l s : string) : consumed (l ++ s) s = l.
Proof.
  unfold consumed. rewrite length_app_string.
  replace (String.length l + String.length s - String.length s)%nat
    with (String.length l) by lia.
  induction l as [|a l IH]; simpl.
  - now destruct s.
  - now rewrite IH.
Qed.

(** A greedy star takes a whole run when the rest of the pattern
    matches behind it. *)
Lemma star_greedy {A} (p : ascii -> bool) (l rest : string)
      (k : string -> option A) (x : A) :
  allOf p l ->
  match rest with String a _ => p a = false | EmptyString => True end ->
  k rest = Some x ->
  star p (l ++ rest) k = Some x.
Proof.
  intros Hl Hr Hk. induction l as [|a l IH]; simpl.
  - destruct rest as [|b rest]; simpl; [exact Hk|]. now rewrite Hr.
  - rewrite (Hl a (or_introl eq_refl)).
    rewrite IH; [reflexivity|]. intros b Hb. apply Hl. now right.
Qed.

Lemma exec_here (r : re) (s : string) (c : caps) :
  match_here r s = Some c -> exec r s = Some c.
Proof. intro E. destruct s; cbn [exec]; now rewrite E. Qed.

(** The leftmost match is not sought in a stretch without digits. *)
Lemma exec_skips_digitless (r : re) (prefix s : string) :
  opensWithDigit r -> digitless prefix -> exec r (prefix ++ s) = exec r s.
Proof.
  intros O D. induction prefix as [|a prefix IH]; [reflexivity|].
  change (exec r (String a prefix ++ s))
    with (match match_here r (String a (prefix ++ s)) with
          | Some c => Some c
          | None => exec r (prefix ++ s)
          end).
  unfold match_here. rewrite (m_needs_digit r O) by (apply D; now left).
  apply IH. intros b Hb. apply D. now right.
Qed.

Lemma alt_right {A} (r1 r2 : re) (s : string) (c : caps)
      (k : string -> caps -> option A) :
  m r2 s c k <> None -> m (Alt r1 r2) s c k <> None.
Proof. simpl. destruct (m r1 s c k); [discriminate|auto]. Qed.

Lemma takesOne_consumes (r : re) :
  takesOne r ->
  forall s c s' c', matches r s c s' c' ->
    exists a s1, s = String a s1 /\ (String.length s' <= String.length s1)%nat.
Proof.
  induction r as [| |p|r1 IH1 r2 IH2|r1 IH1 r2 IH2|r1 IH1|p|n r1 IH1];
    simpl; intros T s c s' c' H; try contradiction.
  - destruct H as (a & -> & _). exists a, s'. auto.
  - destruct H as (s1 & c1 & H1 & H2).
    destruct (IH1 T _ _ _ _ H1) as (a & s2 & -> & L).
    apply matches_length in H2. exists a, s2. split; [reflexivity|lia].
  - destruct T as [T1 T2]. destruct H as [H|H]; eauto.
  - destruct H as (c1 & H & _). eauto.
Qed.

Lemma space_is_no_digit (a : ascii) : is_space a = true -> is_digit a = false.
Proof.
  unfold is_space, is_digit. generalize (nat_of_ascii a). intros n H.
  apply Bool.andb_false_iff.
  destruct (Nat.leb_spec 48 n); [right|now left].
  apply Nat.leb_gt.
  apply Bool.orb_true_iff in H. destruct H as [H|H].
  - apply Bool.orb_true_iff in H. destruct H as [H|H].
    + apply Bool.andb_true_iff in H. destruct H as [_ H].
      apply Nat.leb_le in H. lia.
    + apply Nat.eqb_eq in H. lia.
  - apply Nat.eqb_eq in H. lia.
Qed.

(** The unit group matches at a letter h or m and captures a text that
    opens with that letter. *)
Lemma unit_group (a : ascii) (rest : string) (c : caps) :
  In a ["h"; "H"; "m"; "M"]%char ->
  exists u,
    m (seq [ Group 2 (alt [ Seq (word "minute") (Opt (ci "s"));
                            Seq (word "hour") (Opt (ci "s"));
                            Seq (word "min") (Opt (ci "s"));
                            Seq (word "hr") (Opt (ci "s"));
                            ci "h";
                            ci "m" ]) ])
      (String a rest) c (fun _ c' => Some c')
    = Some (set_cap 2 (String a u) c).
Proof.
  intro Ha.
  set (U := alt [ Seq (word "minute") (Opt (ci "s"));
                  Seq (word "hour") (Opt (ci "s"));
                  Seq (word "min") (Opt (ci "s"));
                  Seq (word "hr") (Opt (ci "s"));
                  ci "h"; ci "m" ]).
  destruct (m (seq [Group 2 U]) (String a rest) c (fun _ c' => Some c'))
    as [x|] eqn:E.
  - destruct (m_sound _ _ _ _ _ E) as (s' & c' & M & K). injection K as <-.
    unfold seq in M. simpl fold_right in M.
    destruct M as (s1 & c1 & (c2 & M & ->) & (-> & ->)).
    assert (G : groupless U = true) by reflexivity.
    rewrite (groupless_keeps_captures U G _ _ _ _ M).
    assert (T : takesOne U) by (cbv; tauto).
    destruct (takesOne_consumes U T _ _ _ _ M) as (b & s2 & Eb & L).
    injection Eb as <- <-. rewrite consumed_head by exact L.
    eexists. reflexivity.
  - exfalso. revert E. unfold seq. simpl fold_right.
    change (m (Seq (Group 2 U) Eps) (String a rest) c (fun _ c' => Some c'))
      with (m U (String a rest) c
              (fun s1 c1 => Some (set_cap 2 (consumed (String a rest) s1) c1))).
    unfold U, alt. do 4 apply alt_right.
    destruct Ha as [<-|[<-|[<-|[<-|[]]]]]; simpl; discriminate.
Qed.

(** The duration pattern at a number, optional white space and a unit
    that opens with h or m. *)
Lemma duration_match (ws rest : string) (n : nat) (a : ascii) :
  allOf is_space ws ->
  In a ["h"; "H"; "m"; "M"]%char ->
  exists u,
    match_here durationPattern (decimal n ++ ws ++ String a rest)
    = Some (set_cap 2 (String a u) (set_cap 1 (decimal n) no_caps)).
Proof.
  intros Hws Ha.
  destruct (decimal_opens_with_digit n) as (d & ds & E & Hd & Hds).
  set (s := decimal n ++ ws ++ String a rest).
  destruct (unit_group a rest (set_cap 1 (decimal n) no_caps) Ha) as (u & Hu).
  exists u. unfold match_here, durationPattern.
  unfold seq at 1. cbn [fold_right].
  cbn [m]. fold s.
  assert (Es : s = String d (ds ++ ws ++ String a rest))
    by (unfold s; rewrite E; reflexivity).
  rewrite Es at 1. unfold digit. cbn [m]. rewrite Hd.
  assert (Na : is_digit a = false /\ is_space a = false)
    by (destruct Ha as [<-|[<-|[<-|[<-|[]]]]]; split; reflexivity).
  apply star_greedy; [exact Hds| |].
  { destruct ws as [|b ws]; simpl; [tauto|].
    apply space_is_no_digit, Hws. now left. }
  unfold spaces. cbn [m].
  apply star_greedy; [exact Hws|tauto|].
  replace (consumed s (ws ++ String a rest)) with (decimal n)
    by (unfold s; now rewrite consumed_app).
  exact Hu.
Qed.

End ReadingFacts.

(** Past [MAX_SAFE_INTEGER] the number read is the double nearest to
    the digits: a tie goes to the even neighbour. *)
Example parseDurationToMinutes_rounds :
  parseDurationToMinutes "9007199254740993 minutes" = Ok (Some 9007199254740992)
  /\ parseDurationToMinutes "9007199254740995 minutes" = Ok (Some 9007199254740996)
  /\ parseDurationToMinutes "3000000000 hours" = Ok (Some 180000000000).
Proof. repeat split; vm_compute; reflexivity. Qed.

(** X9: a duration text that holds, after any text without digits, a
    number, optional white space and a unit that opens with h or m
    (either case) reads as that number of minutes, times sixty for h:
    in "for 2 hours" it is 120, in "45min" it is 45.  The number is one
    whose sixtyfold is at most [MAX_SAFE_INTEGER], so that the doubles
    of the code hold the number and the product exactly. *)
Theorem parseDurationToMinutes_reads
        (prefix ws rest : string) (n : nat) (a : ascii) :
  Z.of_nat n * 60 <= MAX_SAFE_INTEGER ->
  digitless prefix ->
  allOf is_space ws ->
  In a ["h"; "H"; "m"; "M"]%char ->
  parseDurationToMinutes (prefix ++ decimal n ++ ws ++ String a rest)
  = Ok (Some (if Ascii.eqb (lower_ascii a) "h"
              then Z.of_nat n * 60 else Z.of_nat n)).
Proof.
  intros Hn Hp Hws Ha. unfold parseDurationToMinutes.
  rewrite exec_skips_digitless by (try exact Hp; cbv; tauto).
  destruct (duration_match ws rest n a Hws Ha) as (u & E).
  assert (X : exec durationPattern (decimal n ++ ws ++ String a rest)
              = Some (set_cap 2 (String a u) (set_cap 1 (decimal n) no_caps))).
  { now apply exec_here. }
  rewrite X. cbn [set_cap Nat.eqb].
  rewrite parseInt_decimal by lia.
  unfold startsWith. cbn [toLowerCase String.prefix option_map].
  rewrite (toNumber_exact (Z.of_nat n * 60)) by lia.
  destruct Ha as [<-|[<-|[<-|[<-|[]]]]];
    match goal with
    | |- context [lower_ascii ?c] =>
        let v := eval vm_compute in (lower_ascii c) in
        change (lower_ascii c) with v
    end;
    match goal with
    | |- context [ascii_dec ?x ?y] =>
        destruct (ascii_dec x y) as [e|ne];
        try discriminate e; try (exfalso; apply ne; reflexivity)
    end; try reflexivity; destruct (toLowerCase u); reflexivity.
Qed.

(** "for 2 hours" is 120 minutes. *)
Lemma parseDurationToMinutes_reads_witness :
  parseDurationToMinutes ("for " ++ decimal 2 ++ " " ++ "hours") = Ok (Some 120).
Proof.
  apply (parseDurationToMinutes_reads "for " " " "ours" 2 "h").
  - exact (proj1 (Z.leb_le (Z.of_nat 2 * 60) MAX_SAFE_INTEGER) eq_refl).
  - intros a Ha. simpl in Ha.
    destruct Ha as [<-|[<-|[<-|[<-|[]]]]]; reflexivity.
  - intros a Ha. simpl in Ha. destruct Ha as [<-|[]]. reflexivity.
  - simpl. tauto.
Defined.


(** ** Reading a clock time *)

Section ClockFacts.

Ltac by_ascii_cases a :=
  let H := fresh "H" in
  destruct a as [[] [] [] [] [] [] [] []]; vm_compute; intro H;
  try discriminate H; auto.

Lemma lower_a (a : ascii) : lower_ascii a = "a"%char -> a = "a"%char \/ a = "A"%char.
Proof. by_ascii_cases a. Qed.

Lemma lower_p (a : ascii) : lower_ascii a = "p"%char -> a = "p"%char \/ a = "P"%char.
Proof. by_ascii_cases a. Qed.

Lemma lower_m (a : ascii) : lower_ascii a = "m"%char -> a = "m"%char \/ a = "M"%char.
Proof. by_ascii_cases a. Qed.

(** The eight spellings of the two periods. *)
Lemma period_forms (p : string) :
  toLowerCase p = "am" \/ toLowerCase p = "pm" ->
  In p ["am"; "aM"; "Am"; "AM"; "pm"; "pM"; "Pm"; "PM"].
Proof.
  intros [H|H]; destruct p as [|p1 [|p2 [|p3 p]]]; try discriminate H;
    injection H as H1 H2.
  - apply lower_a in H1. apply lower_m in H2.
    destruct H1 as [-> | ->], H2 as [-> | ->]; simpl; tauto.
  - apply lower_p in H1. apply lower_m in H2.
    destruct H1 as [-> | ->], H2 as [-> | ->]; simpl; tauto.
Qed.

Lemma digit_char_digit (d : Z) :
  is_digit (digit_char d) = true /\ digit_value (digit_char d) = d mod 10.
Proof.
  unfold digit_char. pose proof (Z.mod_pos_bound d 10 eq_refl) as B.
  rewrite <- (Z2Nat.id (d mod 10)) at 3 by lia.
  assert (L : (Z.to_nat (d mod 10) < 10)%nat) by lia.
  revert L. generalize (Z.to_nat (d mod 10)). intros n L.
  do 10 (destruct n as [|n]; [split; reflexivity|]). lia.
Qed.

Lemma decimal_hour (h : Z) : 1 <= h <= 12 -> hourDigits (decimal (Z.to_nat h)).
Proof.
  intro B.
  assert (C : In h [1; 2; 3; 4; 5; 6; 7; 8; 9; 10; 11; 12]) by (simpl; lia).
  simpl in C.
  repeat (destruct C as [<-|C];
          [eexists; split;
           [|first [left; reflexivity
                   |right; eexists; split; [|reflexivity]; reflexivity]];
           reflexivity|]).
  contradiction.
Qed.

Lemma consumed_one (a : ascii) (s : string) : consumed (String a s) s = String a "".
Proof. exact (consumed_app (String a "") s). Qed.

Lemma consumed_two (a b : ascii) (s : string) :
  consumed (String a (String b s)) s = String a (String b "").
Proof. exact (consumed_app (String a (String b "")) s). Qed.

Section Pieces.
Context {A : Type}.
Variable k : string -> caps -> option A.
Variable x : A.

Lemma hour_group (g : nat) (hd s' : string) (c : caps) :
  hourDigits hd ->
  match s' with String a _ => is_digit a = false | EmptyString => True end ->
  k s' (set_cap g hd c) = Some x ->
  m (Group g (Seq digit (Opt digit))) (hd ++ s') c k = Some x.
Proof.
  intros (d1 & D1 & [->|(d2 & D2 & ->)]) Hs K; unfold digit; cbn [m append];
    rewrite D1.
  - rewrite consumed_one.
    destruct s' as [|a s']; [now rewrite K|]. now rewrite Hs, K.
  - rewrite D2, consumed_two. now rewrite K.
Qed.

Lemma minute_group (g : nat) (m1 m2 : ascii) (s' : string) (c : caps) :
  is_digit m1 = true -> is_digit m2 = true ->
  k s' (set_cap g (String m1 (String m2 "")) c) = Some x ->
  m (Opt (Seq (chr ":") (Group g (Seq digit digit))))
    (String ":" (String m1 (String m2 s'))) c k = Some x.
Proof.
  intros D1 D2 K. unfold chr, digit. cbn [m].
  change (Ascii.eqb ":" ":") with true. cbv iota.
  now rewrite D1, D2, consumed_two, K.
Qed.

Lemma minute_group_absent (g : nat) (s : string) (c : caps) :
  match s with String a _ => a <> ":"%char | EmptyString => True end ->
  m (Opt (Seq (chr ":") (Group g (Seq digit digit)))) s c k = k s c.
Proof.
  intro Hs. unfold chr. cbn [m]. destruct s as [|a s]; [reflexivity|].
  destruct (Ascii.eqb_spec ":" a) as [E|_]; [now subst a|reflexivity].
Qed.

Lemma period_group (g : nat) (p rest : string) (c : caps) :
  In p ["am"; "aM"; "Am"; "AM"; "pm"; "pM"; "Pm"; "PM"] ->
  k rest (set_cap g p c) = Some x ->
  m (Opt (Group g (Alt (word "am") (word "pm")))) (p ++ rest) c k = Some x.
Proof.
  intros Hp K. simpl in Hp.
  repeat (destruct Hp as [<-|Hp];
          [unfold word, ci; cbn [m append]; cbv beta;
           repeat match goal with
                  | |- context [Ascii.eqb ?a ?b] =>
                      let v := eval vm_compute in (Ascii.eqb a b) in
                      change (Ascii.eqb a b) with v; cbv iota
                  end;
           rewrite consumed_two; now rewrite K|]).
  contradiction.
Qed.

End Pieces.

Lemma period_head (p rest : string) :
  In p ["am"; "aM"; "Am"; "AM"; "pm"; "pM"; "Pm"; "PM"] ->
  exists a s, p ++ rest = String a s
              /\ is_digit a = false /\ is_space a = false /\ a <> ":"%char.
Proof.
  intro Hp. simpl in Hp.
  repeat (destruct Hp as [<-|Hp];
          [eexists; eexists; split; [reflexivity|];
           repeat split; try reflexivity; discriminate|]).
  contradiction.
Qed.

(** What follows the hour, when white space and a period follow it:
    neither a digit nor a colon. *)
Lemma after_hour (ws p rest : string) :
  allOf is_space ws ->
  In p ["am"; "aM"; "Am"; "AM"; "pm"; "pM"; "Pm"; "PM"] ->
  match ws ++ p ++ rest with
  | String a _ => is_digit a = false /\ a <> ":"%char
  | EmptyString => True
  end.
Proof.
  intros Hws Hp. destruct ws as [|b ws].
  - destruct (period_head p rest Hp) as (a & s & -> & D & _ & C). simpl. tauto.
  - simpl. assert (S : is_space b = true) by (apply Hws; now left). split.
    + now apply space_is_no_digit.
    + intros ->. discriminate S.
Qed.

Lemma after_spaces (p rest : string) :
  In p ["am"; "aM"; "Am"; "AM"; "pm"; "pM"; "Pm"; "PM"] ->
  match p ++ rest with
  | String a _ => is_space a = false
  | EmptyString => True
  end.
Proof.
  intro Hp. destruct (period_head p rest Hp) as (a & s & -> & _ & S & _).
  exact S.
Qed.

Lemma m_seq {A} (r1 r2 : re) (s : string) (c : caps)
      (k : string -> caps -> option A) :
  m (Seq r1 r2) s c k = m r1 s c (fun s1 c1 => m r2 s1 c1 k).
Proof. reflexivity. Qed.

Lemma m_star {A} (p : ascii -> bool) (s : string) (c : caps)
      (k : string -> caps -> option A) :
  m (Star p) s c k = star p s (fun s1 => k s1 c).
Proof. reflexivity. Qed.

(** The clock pattern on an hour, a colon, two minute digits, white
    space and a period. *)
Lemma clock_match_minutes (hd ws p rest : string) (m1 m2 : ascii) :
  hourDigits hd -> is_digit m1 = true -> is_digit m2 = true ->
  allOf is_space ws ->
  In p ["am"; "aM"; "Am"; "AM"; "pm"; "pM"; "Pm"; "PM"] ->
  match_here timePattern
    (hd ++ String ":" (String m1 (String m2 (ws ++ p ++ rest))))
  = Some (set_cap 3 p (set_cap 2 (String m1 (String m2 "")) (set_cap 1 hd no_caps))).
Proof.
  intros Hh D1 D2 Hws Hp.
  unfold match_here, timePattern, clock, seq. cbn [fold_right Nat.add].
  rewrite m_seq. apply hour_group; [exact Hh|reflexivity|].
  rewrite m_seq. apply minute_group; [exact D1|exact D2|].
  rewrite m_seq. unfold spaces at 1. rewrite m_star.
  apply star_greedy; [exact Hws|now apply after_spaces|].
  rewrite m_seq. apply period_group; [exact Hp|reflexivity].
Qed.

(** The clock pattern on an hour, white space and a period. *)
Lemma clock_match_plain (hd ws p rest : string) :
  hourDigits hd ->
  allOf is_space ws ->
  In p ["am"; "aM"; "Am"; "AM"; "pm"; "pM"; "Pm"; "PM"] ->
  match_here timePattern (hd ++ ws ++ p ++ rest)
  = Some (set_cap 3 p (set_cap 1 hd no_caps)).
Proof.
  intros Hh Hws Hp. pose proof (after_hour ws p rest Hws Hp) as N.
  unfold match_here, timePattern, clock, seq. cbn [fold_right Nat.add].
  rewrite m_seq. apply hour_group; [exact Hh| |].
  { destruct (ws ++ p ++ rest); tauto. }
  rewrite m_seq. rewrite minute_group_absent
    by (destruct (ws ++ p ++ rest); tauto).
  rewrite m_seq. unfold spaces at 1. rewrite m_star.
  apply star_greedy; [exact Hws|now apply after_spaces|].
  rewrite m_seq. apply period_group; [exact Hp|reflexivity].
Qed.

(** The hour on the 24-hour clock of an hour from 1 to 12 and a
    period. *)
Lemma meridiem_clock (p : string) (h : Z) :
  In p ["am"; "aM"; "Am"; "AM"; "pm"; "pM"; "Pm"; "PM"] ->
  1 <= h <= 12 ->
  meridiem (Some p) (Some h)
  = Some (h mod 12 + if String.eqb (toLowerCase p) "pm" then 12 else 0).
Proof.
  intros Hp B. unfold meridiem, periodIs, isTwelve. simpl in Hp.
  assert (M : h = 12 /\ h mod 12 = 0 \/ h <> 12 /\ h mod 12 = h).
  { destruct (Z.eq_dec h 12) as [->|N]; [left; split; reflexivity|right].
    split; [exact N|]. apply Z.mod_small. lia. }
  repeat (destruct Hp as [<-|Hp];
          [match goal with
           | |- context [toLowerCase ?s] =>
               let v := eval vm_compute in (toLowerCase s) in
               change (toLowerCase s) with v
           end;
           cbn [String.eqb Ascii.eqb Bool.eqb andb negb option_map];
           destruct M as [[-> ->]|[N ->]];
           [reflexivity|];
           apply Z.eqb_neq in N; rewrite N; cbn [negb andb option_map];
           rewrite ?N; f_equal; lia|]).
  contradiction.
Qed.

Lemma two_digits_value (mi : Z) :
  0 <= mi < 60 ->
  minuteOf (Some (pad 2 mi "")) = Some mi.
Proof.
  intro B. cbn [pad].
  destruct (digit_char_digit (mi / 10)) as [D1 V1].
  destruct (digit_char_digit mi) as [D2 V2].
  unfold minuteOf, parseInt. cbn [truthy digits_prefix].
  rewrite D1, D2, V1, V2. cbn [truthy option_map]. f_equal.
  rewrite (Z.mod_small (mi / 10) 10)
    by (split; [apply Z.div_pos; lia|apply Z.div_lt_upper_bound; lia]).
  assert (E : 10 * (10 * 0 + mi / 10) + mi mod 10 = mi)
    by (pose proof (Z.div_mod mi 10); lia).
  rewrite E. apply toNumber_exact. unfold MAX_SAFE_INTEGER. lia.
Qed.

Lemma hour_value (h : Z) :
  0 <= h <= 99 -> parseInt (Some (decimal (Z.to_nat h))) = Some h.
Proof.
  intro B. rewrite parseInt_decimal by (unfold MAX_SAFE_INTEGER; lia).
  f_equal. lia.
Qed.

Section Reading.
Variable host : Host.
Variables prefix ws p rest : string.
Variables h mi : Z.
Hypothesis prefix_digitless : digitless prefix.
Hypothesis ws_space : allOf is_space ws.
Hypothesis p_period : toLowerCase p = "am" \/ toLowerCase p = "pm".
Hypothesis h_range : 1 <= h <= 12.
Hypothesis mi_range : 0 <= mi < 60.

Lemma parseTimeForDate_minutes_form (base : Z) :
  parseTimeForDate host
    (prefix ++ decimal (Z.to_nat h) ++ ":" ++ pad 2 mi "" ++ ws ++ p ++ rest)
    (Some base)
  = setHours (tz host) (Some base)
      (Some (h mod 12 + if String.eqb (toLowerCase p) "pm" then 12 else 0))
      (Some mi).
Proof.
  pose proof (period_forms p p_period) as Hp.
  unfold parseTimeForDate.
  rewrite exec_skips_digitless by (try exact prefix_digitless; reflexivity).
  change (":" ++ pad 2 mi "" ++ ws ++ p ++ rest)
    with (String ":" (String (digit_char (mi / 10))
                        (String (digit_char mi) (ws ++ p ++ rest)))).
  rewrite (exec_here _ _ _
             (clock_match_minutes _ ws p rest _ _
                (decimal_hour h h_range)
                (proj1 (digit_char_digit (mi / 10)))
                (proj1 (digit_char_digit mi)) ws_space Hp)).
  cbn [set_cap Nat.eqb].
  rewrite hour_value by lia. rewrite (meridiem_clock p h Hp h_range).
  change (String (digit_char (mi / 10)) (String (digit_char mi) ""))
    with (pad 2 mi "").
  now rewrite (two_digits_value mi mi_range).
Qed.

Lemma parseTimeForDate_plain_form (base : Z) :
  parseTimeForDate host
    (prefix ++ decimal (Z.to_nat h) ++ ws ++ p ++ rest) (Some base)
  = setHours (tz host) (Some base)
      (Some (h mod 12 + if String.eqb (toLowerCase p) "pm" then 12 else 0))
      (Some 0).
Proof.
  pose proof (period_forms p p_period) as Hp.
  unfold parseTimeForDate.
  rewrite exec_skips_digitless by (try exact prefix_digitless; reflexivity).
  rewrite (exec_here _ _ _
             (clock_match_plain _ ws p rest
                (decimal_hour h h_range) ws_space Hp)).
  cbn [set_cap Nat.eqb].
  rewrite hour_value by lia. rewrite (meridiem_clock p h Hp h_range).
  reflexivity.
Qed.

Lemma hour24_range :
  0 <= h mod 12 + (if String.eqb (toLowerCase p) "pm" then 12 else 0) < 24.
Proof.
  pose proof (Z.mod_pos_bound h 12 eq_refl).
  destruct (String.eqb (toLowerCase p) "pm"); lia.
Qed.

End Reading.

End ClockFacts.

(** X10: a text that holds, after any text without digits, an hour
    from 1 to 12, optionally a colon and two minute digits below 60,
    optional white space and am or pm in either case is read as that
    clock time on the local day of the base date: pm adds twelve hours
    but to 12, and 12 am is midnight. *)
Theorem parseTimeForDate_reads_clock (host : Host)
        (prefix ws p rest : string) (h mi base : Z) :
  digitless prefix ->
  allOf is_space ws ->
  toLowerCase p = "am" \/ toLowerCase p = "pm" ->
  1 <= h <= 12 ->
  0 <= mi < 60 ->
  (exists t,
      parseTimeForDate host
        (prefix ++ decimal (Z.to_nat h) ++ ":" ++ pad 2 mi "" ++ ws ++ p ++ rest)
        (Some base) = Some t
      /\ getHours (tz host) t
         = h mod 12 + (if String.eqb (toLowerCase p) "pm" then 12 else 0)
      /\ getMinutes (tz host) t = mi
      /\ localTime (tz host) t / msPerDay = localTime (tz host) base / msPerDay)
  /\
  (exists t,
      parseTimeForDate host
        (prefix ++ decimal (Z.to_nat h) ++ ws ++ p ++ rest) (Some base) = Some t
      /\ getHours (tz host) t
         = h mod 12 + (if String.eqb (toLowerCase p) "pm" then 12 else 0)
      /\ getMinutes (tz host) t = 0
      /\ localTime (tz host) t / msPerDay = localTime (tz host) base / msPerDay).
Proof.
  intros Hp Hws Hper Hh Hmi.
  pose proof (hour24_range p h) as R.
  split.
  - rewrite (parseTimeForDate_minutes_form host prefix ws p rest h mi
               Hp Hws Hper Hh Hmi base).
    eexists. split; [reflexivity|].
    apply (setHours_clock (tz host) base); [exact R|exact Hmi|reflexivity].
  - rewrite (parseTimeForDate_plain_form host prefix ws p rest h
               Hp Hws Hper Hh base).
    eexists. split; [reflexivity|].
    apply (setHours_clock (tz host) base); [exact R|lia|reflexivity].
Qed.


(** "at 3:30 PM" is 15:30. *)
Lemma parseTimeForDate_reads_clock_witness :
  exists t,
    parseTimeForDate Samples.host "at 3:30 PM" (Some Samples.now) = Some t
    /\ getHours (tz Samples.host) t = 15
    /\ getMinutes (tz Samples.host) t = 30.
Proof.
  assert (D : digitless "at ").
  { intros a Ha. simpl in Ha. destruct Ha as [<-|[<-|[<-|[]]]]; reflexivity. }
  assert (W : allOf is_space " ").
  { intros a Ha. simpl in Ha. destruct Ha as [<-|[]]. reflexivity. }
  destruct (parseTimeForDate_reads_clock Samples.host "at " " " "PM" "" 3 30
              Samples.now D W (or_intror eq_refl)
              (conj (proj1 (Z.leb_le 1 3) eq_refl) (proj1 (Z.leb_le 3 12) eq_refl))
              (conj (proj1 (Z.leb_le 0 30) eq_refl) (proj1 (Z.ltb_lt 30 60) eq_refl)))
    as [(t & E & H1 & H2 & _) _].
  exists t. exact (conj E (conj H1 H2)).
Defined.

(** X11: in the date/time parser a clock text (after any text without
    digits an hour from 1 to 12, optionally a colon and two minute
    digits below 60, optional white space and am or pm in either case)
    that names today is read on the local day of the clock reading,
    and one that names tomorrow but not today on the day after; the
    hour, the minutes (none stands for zero) and the period of the
    text give the time. *)
Theorem parseDateTime_names_day (host : Host) (now : Z)
        (prefix ws p rest text : string) (h mi : Z) :
  digitless prefix ->
  allOf is_space ws ->
  toLowerCase p = "am" \/ toLowerCase p = "pm" ->
  1 <= h <= 12 ->
  0 <= mi < 60 ->
  text = prefix ++ decimal (Z.to_nat h) ++ ":" ++ pad 2 mi "" ++ ws ++ p ++ rest
  \/ (mi = 0 /\ text = prefix ++ decimal (Z.to_nat h) ++ ws ++ p ++ rest) ->
  (includes (toLowerCase text) "today" = true ->
   exists t,
     parseDateTime host now text = Some t
     /\ getHours (tz host) t
        = h mod 12 + (if String.eqb (toLowerCase p) "pm" then 12 else 0)
     /\ getMinutes (tz host) t = mi
     /\ localTime (tz host) t / msPerDay = localTime (tz host) now / msPerDay)
  /\
  (includes (toLowerCase text) "today" = false ->
   includes (toLowerCase text) "tomorrow" = true ->
   exists t,
     parseDateTime host now text = Some t
     /\ getHours (tz host) t
        = h mod 12 + (if String.eqb (toLowerCase p) "pm" then 12 else 0)
     /\ getMinutes (tz host) t = mi
     /\ localTime (tz host) t / msPerDay
        = localTime (tz host) now / msPerDay + 1).
Proof.
  intros Hp Hws Hper Hh Hmi Htext.
  pose proof (hour24_range p h) as R.
  assert (F : forall base,
             parseTimeForDate host text (Some base)
             = setHours (tz host) (Some base)
                 (Some (h mod 12
                        + if String.eqb (toLowerCase p) "pm" then 12 else 0))
                 (Some mi)).
  { intro base. destruct Htext as [->|[-> ->]].
    - apply (parseTimeForDate_minutes_form host prefix ws p rest h mi
               Hp Hws Hper Hh Hmi).
    - apply (parseTimeForDate_plain_form host prefix ws p rest h
               Hp Hws Hper Hh). }
  split.
  - intro T. unfold parseDateTime. rewrite T, F.
    eexists. split; [reflexivity|].
    apply (setHours_clock (tz host) now); [exact R|exact Hmi|reflexivity].
  - intros T1 T2. unfold parseDateTime. rewrite T1, T2.
    cbn [addDays option_map]. rewrite F.
    eexists. split; [reflexivity|].
    destruct (setHours_clock (tz host) (now + 1 * msPerDay) _ mi _ R
                Hmi eq_refl) as (H1 & H2 & H3).
    split; [exact H1|]. split; [exact H2|]. rewrite H3.
    unfold localTime.
    replace (now + 1 * msPerDay + tz host * msPerMinute)
      with (now + tz host * msPerMinute + 1 * msPerDay) by lia.
    apply Z.div_add. discriminate.
Qed.

(** "tomorrow at 3:30 pm" is 15:30 of the day after the clock
    reading. *)
Lemma parseDateTime_names_day_witness :
  exists t,
    parseDateTime Samples.host Samples.now "tomorrow at 3:30 pm" = Some t
    /\ getHours (tz Samples.host) t = 15
    /\ getMinutes (tz Samples.host) t = 30
    /\ localTime (tz Samples.host) t / msPerDay
       = localTime (tz Samples.host) Samples.now / msPerDay + 1.
Proof.
  assert (D : digitless "tomorrow at ").
  { intros a Ha. simpl in Ha.
    repeat (destruct Ha as [<-|Ha]; [reflexivity|]). contradiction. }
  assert (W : allOf is_space " ").
  { intros a Ha. simpl in Ha. destruct Ha as [<-|[]]. reflexivity. }
  destruct (parseDateTime_names_day Samples.host Samples.now
              "tomorrow at " " " "pm" "" "tomorrow at 3:30 pm" 3 30
              D W (or_intror eq_refl)
              (conj (proj1 (Z.leb_le 1 3) eq_refl) (proj1 (Z.leb_le 3 12) eq_refl))
              (conj (proj1 (Z.leb_le 0 30) eq_refl) (proj1 (Z.ltb_lt 30 60) eq_refl))
              (or_introl eq_refl))
    as [_ H].
  destruct (H eq_refl eq_refl) as (t & E & H1 & H2 & H3).
  exists t. exact (conj E (conj H1 (conj H2 H3))).
Defined.


(** ** What an update or a delete is sent for *)

Section SubmissionFacts.

Lemma settle_found (matched : list CalendarEvent) (matchType : string)
      (otherwise : Resolution) (eventId title : string) :
  settle matched matchType otherwise = found eventId title ->
  (exists event, matched = [event] /\ id event = eventId /\ summary event = title)
  \/ (matched = [] /\ otherwise = found eventId title).
Proof.
  destruct matched as [|event [|event' rest]]; simpl; intro H.
  - right. split; [reflexivity|exact H].
  - left. exists event. injection H as <- <-. repeat split.
  - discriminate H.
Qed.

(** A resolution that finds an event names the single match of the
    first stage that has any. *)
Lemma resolveEvent_found (tz : Z) (searchQuery : option string)
      (events : list CalendarEvent) (eventId title : string) :
  resolveEvent tz searchQuery events = found eventId title ->
  exists query event,
    searchQuery = Some query /\ query <> EmptyString
    /\ id event = eventId /\ summary event = title
    /\ (exactMatches (toLowerCase query) events = [event]
        \/ (exactMatches (toLowerCase query) events = []
            /\ partialMatches (toLowerCase query) events = [event])
        \/ (exactMatches (toLowerCase query) events = []
            /\ partialMatches (toLowerCase query) events = []
            /\ findEventsByTime tz query events = [event])).
Proof.
  destruct searchQuery as [[|a query]|]; simpl; try discriminate.
  intro H. exists (String a query).
  apply settle_found in H. destruct H as [(event & E & I & T)|[E1 H]].
  { exists event. repeat split; try assumption; try discriminate. now left. }
  apply settle_found in H. destruct H as [(event & E & I & T)|[E2 H]].
  { exists event. repeat split; try assumption; try discriminate.
    right; left. now split. }
  apply settle_found in H. destruct H as [(event & E & I & T)|[_ H]];
    [|discriminate H].
  exists event. repeat split; try assumption; try discriminate.
  right; right. now repeat split.
Qed.

Lemma only_match_listed {A} (p : A -> bool) (l : list A) (x : A) :
  List.filter p l = [x] -> In x l /\ p x = true.
Proof.
  intro E. apply filter_In. rewrite E. now left.
Qed.

Lemma timeMatch_listed (tz : Z) (query : string) (events : list CalendarEvent)
      (event : CalendarEvent) :
  findEventsByTime tz query events = [event] -> In event events.
Proof.
  unfold findEventsByTime. destruct (searchClock query) as [[h mi]|];
    [|discriminate].
  intro E. now apply only_match_listed in E.
Qed.

End SubmissionFacts.

(** X12: an update or a delete is only ever sent for an event of the
    list that the request singles out: the text that identifies the
    event is not empty, the identifier sent is that of a listed event
    which the host knows, and that event is the only title equal to the
    text, or no title is equal and it is the only title that holds the
    text or is held by it, or no title matches and it is the only event
    that starts at the clock time of the text. *)
Theorem submitted_event_is_singled_out
        (host : Host) (now now' : Z) (args : Args.t)
        (events : list CalendarEvent) (eventId : string) :
  deleteCalendarEvent host args events = DeleteSubmitted eventId
  \/ (exists eventData,
        updateCalendarEvent host now now' args events
        = UpdateSubmitted eventId eventData) ->
  exists query event,
    identification args = Some query /\ query <> EmptyString
    /\ In event events /\ id event = eventId
    /\ events_get host eventId <> None
    /\ (exactMatches (toLowerCase query) events = [event]
        \/ (exactMatches (toLowerCase query) events = []
            /\ partialMatches (toLowerCase query) events = [event])
        \/ (exactMatches (toLowerCase query) events = []
            /\ partialMatches (toLowerCase query) events = []
            /\ findEventsByTime (tz host) query events = [event])).
Proof.
  intro H.
  assert (R : exists title,
             resolveEvent (tz host) (identification args) events
             = found eventId title
             /\ events_get host eventId <> None).
  { destruct H as [H|(eventData & H)].
    - unfold deleteCalendarEvent in H.
      destruct (validateEventDelete args); [|discriminate H].
      destruct (resolveEvent (tz host) (identification args) events)
        as [i title| |]; try discriminate H.
      destruct (events_get host i) eqn:G; [|discriminate H].
      injection H as ->. exists title. split; [reflexivity|]. now rewrite G.
    - unfold updateCalendarEvent in H.
      destruct (validateEventUpdate args); [|discriminate H].
      destruct (resolveEvent (tz host) (identification args) events)
        as [i title| |]; try discriminate H.
      destruct (events_get host i) eqn:G; [|discriminate H].
      destruct (updateEventData host now now' args c); [|discriminate H].
      injection H as -> _. exists title. split; [reflexivity|]. now rewrite G. }
  destruct R as (title & R & G).
  apply resolveEvent_found in R.
  destruct R as (query & event & Q & N & I & _ & S).
  exists query, event. repeat split; try assumption.
  destruct S as [S|[[_ S]|[_ [_ S]]]].
  - now apply only_match_listed in S.
  - now apply only_match_listed in S.
  - now apply timeMatch_listed in S.
Qed.

(** Deleting "team sync" among Team Sync and Sync with Bob is sent for
    Team Sync, the only title equal to the text. *)
Lemma submitted_event_is_singled_out_witness :
  exists event,
    In event [Samples.teamSync; Samples.syncWithBob]
    /\ id event = "evt_7f3k"
    /\ summary event = "Team Sync".
Proof.
  destruct (submitted_event_is_singled_out Samples.host Samples.now Samples.now
              (Samples.request (Some "team sync") None None None)
              [Samples.teamSync; Samples.syncWithBob] "evt_7f3k"
              (or_introl eq_refl))
    as (query & event & Q & _ & I & E & _ & _).
  exists event. split; [exact I|]. split; [exact E|].
  destruct I as [<-|[<-|[]]]; [reflexivity|discriminate E].
Defined.

(** ** The shape of an accepted address *)

Section AddressFacts.

Lemma star_exact {A} (p : ascii -> bool) (s : string) :
  forall (k : string -> option A) (x : A),
    star p s k = Some x ->
    exists l s', s = l ++ s' /\ allOf p l /\ k s' = Some x.
Proof.
  induction s as [|a s IH]; intros k x H; simpl in H.
  - exists EmptyString, EmptyString. repeat split; [intros b []|exact H].
  - destruct (p a) eqn:Pa.
    + destruct (star p s k) as [y|] eqn:E.
      * injection H as ->. destruct (IH k x E) as (l & s' & -> & Hl & K).
        exists (String a l), s'. repeat split; [|exact K].
        intros b [<-|Hb]; [exact Pa|now apply Hl].
      * exists EmptyString, (String a s). repeat split; [intros b []|exact H].
    + exists EmptyString, (String a s). repeat split; [intros b []|exact H].
Qed.

Lemma star_complete {A} (p : ascii -> bool) (l s' : string)
      (k : string -> option A) :
  allOf p l -> k s' <> None -> star p (l ++ s') k <> None.
Proof.
  intros Hl K. induction l as [|a l IH]; simpl.
  - destruct s' as [|b s']; simpl; [exact K|].
    destruct (p b); [|exact K]. destruct (star p s' k); [discriminate|exact K].
  - rewrite (Hl a (or_introl eq_refl)).
    assert (S : star p (l ++ s') k <> None)
      by (apply IH; intros b Hb; apply Hl; now right).
    destruct (star p (l ++ s') k); [discriminate|contradiction].
Qed.

Lemma chr_inv {A} (p : ascii -> bool) (s : string) (c : caps)
      (k : string -> caps -> option A) (x : A) :
  m (Chr p) s c k = Some x ->
  exists a s', s = String a s' /\ p a = true /\ k s' c = Some x.
Proof.
  simpl. destruct s as [|a s']; [discriminate|].
  destruct (p a) eqn:Pa; [|discriminate]. intro H. now exists a, s'.
Qed.

Lemma allOf_cons (p : ascii -> bool) (a : ascii) (l : string) :
  p a = true -> allOf p l -> allOf p (String a l).
Proof. intros Pa Hl b [<-|Hb]; [exact Pa|now apply Hl]. Qed.

Lemma allOf_inv (p : ascii -> bool) (a : ascii) (l : string) :
  allOf p (String a l) -> p a = true /\ allOf p l.
Proof.
  intro H. split; [apply H; now left|]. intros b Hb. apply H. now right.
Qed.

Lemma append_empty (s : string) : s ++ "" = s.
Proof. induction s as [|a s IH]; simpl; [reflexivity|now rewrite IH]. Qed.

End AddressFacts.

(** X13: the address check accepts exactly the texts made of a
    non-empty local part, an at sign, a non-empty domain, a dot and a
    non-empty ending, where no part holds white space or an at sign
    (dots are allowed in every part). *)
Theorem isValidEmail_shape (email : string) :
  isValidEmail email = true <->
  exists local domain ending,
    email = local ++ "@" ++ domain ++ "." ++ ending
    /\ local <> EmptyString /\ domain <> EmptyString /\ ending <> EmptyString
    /\ allOf not_space_at local
    /\ allOf not_space_at domain
    /\ allOf not_space_at ending.
Proof.
  unfold isValidEmail, match_here, emailPattern, seq. cbn [fold_right].
  split.
  - destruct (m _ email no_caps _) as [x|] eqn:E; [intros _|discriminate].
    rewrite m_seq in E. apply chr_inv in E.
    destruct E as (a1 & s1 & -> & P1 & E).
    rewrite m_seq, m_star in E. apply star_exact in E.
    destruct E as (l1 & s2 & -> & H1 & E).
    rewrite m_seq in E. apply chr_inv in E.
    destruct E as (at_ & s3 & -> & Pat & E).
    apply Ascii.eqb_eq in Pat. subst at_.
    rewrite m_seq in E. apply chr_inv in E.
    destruct E as (a2 & s4 & -> & P2 & E).
    rewrite m_seq, m_star in E. apply star_exact in E.
    destruct E as (l2 & s5 & -> & H2 & E).
    rewrite m_seq in E. apply chr_inv in E.
    destruct E as (dot & s6 & -> & Pdot & E).
    apply Ascii.eqb_eq in Pdot. subst dot.
    rewrite m_seq in E. apply chr_inv in E.
    destruct E as (a3 & s7 & -> & P3 & E).
    rewrite m_seq, m_star in E. apply star_exact in E.
    destruct E as (l3 & s8 & -> & H3 & E).
    rewrite m_seq in E. cbn [m] in E.
    destruct s8; [|discriminate E].
    exists (String a1 l1), (String a2 l2), (String a3 l3).
    rewrite append_empty. repeat split; try discriminate;
      try (apply allOf_cons; assumption).
  - intros (local & domain & ending & -> & N1 & N2 & N3 & H1 & H2 & H3).
    destruct local as [|a1 l1]; [contradiction|].
    destruct domain as [|a2 l2]; [contradiction|].
    destruct ending as [|a3 l3]; [contradiction|].
    apply allOf_inv in H1, H2, H3.
    destruct H1 as [P1 H1], H2 as [P2 H2], H3 as [P3 H3].
    match goal with
    | |- match ?e with Some _ => _ | None => _ end = true =>
        assert (S : e <> None); [|destruct e; [reflexivity|contradiction]]
    end.
    rewrite m_seq. cbn [m append]. rewrite P1.
    apply star_complete; [exact H1|].
    cbn [m]. unfold chr. cbn [m]. change (Ascii.eqb "@" "@") with true. cbv iota.
    rewrite P2.
    apply star_complete; [exact H2|].
    cbn [m]. change (Ascii.eqb "." ".") with true. cbv iota.
    rewrite P3.
    rewrite <- (append_empty l3).
    apply star_complete; [exact H3|]. discriminate.
Qed.

(** ** The per-day counts and the total of the statistics *)

Section CountFacts.

Lemma countOn_bump (dayKey k : string) (byDay : list (string * Z)) :
  countOn k (bump dayKey byDay)
  = countOn k byDay + (if String.eqb dayKey k then 1 else 0).
Proof.
  unfold countOn. induction byDay as [|[k' n] rest IH]; simpl.
  - destruct (String.eqb dayKey k); reflexivity.
  - destruct (String.eqb k' dayKey) eqn:E; simpl.
    + apply String.eqb_eq in E. subst k'.
      destruct (String.eqb dayKey k); [reflexivity|lia].
    + destruct (String.eqb k' k) eqn:E'; [|exact IH].
      assert (F : String.eqb dayKey k = false).
      { apply String.eqb_neq. apply String.eqb_neq in E.
        apply String.eqb_eq in E'. congruence. }
      rewrite F. lia.
Qed.

Lemma bump_nodup (dayKey : string) (byDay : list (string * Z)) :
  NoDup (map fst byDay) -> NoDup (map fst (bump dayKey byDay)).
Proof.
  induction byDay as [|[k n] rest IH]; simpl; intro N.
  - constructor; [intros []|constructor].
  - inversion N as [|? ? Hk Hrest]; subst.
    destruct (String.eqb k dayKey) eqn:E; simpl.
    + constructor; assumption.
    + constructor; [|now apply IH].
      intro Hin. apply bump_keys_from in Hin. destruct Hin as [->|Hin].
      * rewrite String.eqb_refl in E. discriminate.
      * contradiction.
Qed.

Lemma bump_positive (dayKey : string) (byDay : list (string * Z)) :
  (forall k n, In (k, n) byDay -> 1 <= n) ->
  forall k n, In (k, n) (bump dayKey byDay) -> 1 <= n.
Proof.
  induction byDay as [|[k' n'] rest IH]; simpl; intros P k n Hin.
  - destruct Hin as [E|[]]. injection E as _ <-. lia.
  - destruct (String.eqb k' dayKey); simpl in Hin; destruct Hin as [E|Hin].
    + injection E as _ <-. specialize (P k' n' (or_introl eq_refl)). lia.
    + apply (P k n). now right.
    + injection E as <- <-. apply (P k' n'). now left.
    + apply (IH (fun k n H => P k n (or_intror H)) k n Hin).
Qed.

Lemma sum_bump (dayKey : string) (byDay : list (string * Z)) :
  fold_right Z.add 0 (map snd (bump dayKey byDay))
  = fold_right Z.add 0 (map snd byDay) + 1.
Proof.
  induction byDay as [|[k n] rest IH]; simpl; [reflexivity|].
  destruct (String.eqb k dayKey); simpl; lia.
Qed.

(** What one round of the loop keeps. *)
Lemma visit_counts (acc : list (string * Z) * Q) (event : CalendarEvent) :
  let next := visit acc event in
  (NoDup (map fst (fst acc)) -> NoDup (map fst (fst next)))
  /\ ((forall k n, In (k, n) (fst acc) -> 1 <= n) ->
      forall k n, In (k, n) (fst next) -> 1 <= n)
  /\ (forall k, countOn k (fst next)
                = countOn k (fst acc)
                  + (if startsOnDay k event then 1 else 0))
  /\ fold_right Z.add 0 (map snd (fst next))
     = fold_right Z.add 0 (map snd (fst acc))
       + (if isTimed event then 1 else 0)
  /\ (snd next == snd acc + meetingMinutes event)%Q.
Proof.
  destruct acc as [byDay total]. unfold visit, startsOnDay, isTimed, meetingMinutes.
  destruct (dateTime (start event)) as [s|], (dateTime (end_ event)) as [e|];
    cbn [fst snd present andb];
    repeat split; try tauto; intros; try lia; try ring.
  - now apply bump_nodup.
  - eapply bump_positive; eassumption.
  - apply countOn_bump.
  - apply sum_bump.
Qed.

Lemma fold_visit_counts (events : list CalendarEvent) :
  forall acc,
    let final := fold_left visit events acc in
    (NoDup (map fst (fst acc)) -> NoDup (map fst (fst final)))
    /\ ((forall k n, In (k, n) (fst acc) -> 1 <= n) ->
        forall k n, In (k, n) (fst final) -> 1 <= n)
    /\ (forall k, countOn k (fst final)
                  = countOn k (fst acc)
                    + Z.of_nat (List.length (List.filter (startsOnDay k) events)))
    /\ fold_right Z.add 0 (map snd (fst final))
       = fold_right Z.add 0 (map snd (fst acc))
         + Z.of_nat (List.length (List.filter isTimed events))
    /\ (snd final
        == snd acc + fold_right Qplus 0 (map meetingMinutes events))%Q.
Proof.
  induction events as [|event rest IH]; intro acc; cbn [fold_left].
  - cbn. repeat split; try tauto; intros; try lia; ring.
  - destruct (IH (visit acc event)) as (N & P & C & S & T).
    destruct (visit_counts acc event) as (N1 & P1 & C1 & S1 & T1).
    cbv zeta in *. repeat split.
    + intro H. apply N, N1, H.
    + intro H. apply P, P1, H.
    + intro k. rewrite C, C1. cbn [List.filter].
      destruct (startsOnDay k event); cbn [List.length]; lia.
    + rewrite S, S1. cbn [List.filter].
      destruct (isTimed event); cbn [List.length]; lia.
    + rewrite T, T1. cbn [map fold_right]. ring.
Qed.

Lemma stats_of_fold (events : list CalendarEvent) :
  meetingsByDay (calculateMeetingStats events)
  = fst (fold_left visit events ([], 0%Q))
  /\ totalHours (calculateMeetingStats events)
     = (snd (fold_left visit events ([], 0%Q)) / 60)%Q.
Proof.
  unfold calculateMeetingStats.
  destruct (fold_left visit events ([], 0%Q)) as [byDay total]. now split.
Qed.

End CountFacts.

(** X14: the per-day table of the statistics holds every day once, a
    day's count is the number of timed events that start on that UTC
    day (none for a day that is not in the table), every count in the
    table is at least one, and the counts add up to the number of timed
    events. *)
Theorem meetingsByDay_counts (events : list CalendarEvent) :
  NoDup (map fst (meetingsByDay (calculateMeetingStats events)))
  /\ (forall dayKey,
        countOn dayKey (meetingsByDay (calculateMeetingStats events))
        = Z.of_nat (List.length (List.filter (startsOnDay dayKey) events)))
  /\ (forall dayKey n,
        In (dayKey, n) (meetingsByDay (calculateMeetingStats events)) -> 1 <= n)
  /\ fold_right Z.add 0 (map snd (meetingsByDay (calculateMeetingStats events)))
     = Z.of_nat (List.length (List.filter isTimed events)).
Proof.
  destruct (stats_of_fold events) as [-> _].
  destruct (fold_visit_counts events ([], 0%Q)) as (N & P & C & S & _).
  cbv zeta in *. repeat split.
  - apply N. constructor.
  - intro k. rewrite C. reflexivity.
  - apply P. intros k n [].
  - rewrite S. reflexivity.
Qed.

(** X15: the total hours of the statistics are the minutes of the
    timed events, added up and divided by sixty; events without a
    precise start and end add nothing. *)
Theorem totalHours_sums_timed_events (events : list CalendarEvent) :
  (totalHours (calculateMeetingStats events)
   == fold_right Qplus 0 (map meetingMinutes events) / 60)%Q.
Proof.
  destruct (stats_of_fold events) as [_ ->].
  destruct (fold_visit_counts events ([], 0%Q)) as (_ & _ & _ & _ & T).
  cbv zeta in T. rewrite T. cbn [snd]. field.
Qed.


(** ** Building the update payload *)

Section PayloadFacts.




End PayloadFacts.




(** ** The payload of a new event *)

Section IsoFacts.















End IsoFacts.




(** ** Looking events up by their clock time *)

Section TimeSearchFacts.
Variables prefix ws p rest : string.
Variables h mi : Z.
Hypothesis prefix_digitless : digitless prefix.
Hypothesis ws_space : allOf is_space ws.
Hypothesis p_period : toLowerCase p = "am" \/ toLowerCase p = "pm".
Hypothesis h_range : 1 <= h <= 12.
Hypothesis mi_range : 0 <= mi < 60.

Lemma searchClock_minutes_form :
  searchClock
    (prefix ++ decimal (Z.to_nat h) ++ ":" ++ pad 2 mi "" ++ ws ++ p ++ rest)
  = Some (Some (h mod 12 + if String.eqb (toLowerCase p) "pm" then 12 else 0),
          Some mi).
Proof.
  pose proof (period_forms p p_period) as Hp.
  unfold searchClock.
  rewrite exec_skips_digitless by (try exact prefix_digitless; reflexivity).
  change (":" ++ pad 2 mi "" ++ ws ++ p ++ rest)
    with (String ":" (String (digit_char (mi / 10))
                        (String (digit_char mi) (ws ++ p ++ rest)))).
  rewrite (exec_here _ _ _
             (clock_match_minutes _ ws p rest _ _
                (decimal_hour h h_range)
                (proj1 (digit_char_digit (mi / 10)))
                (proj1 (digit_char_digit mi)) ws_space Hp)).
  cbn [set_cap Nat.eqb].
  rewrite hour_value by lia. rewrite (meridiem_clock p h Hp h_range).
  change (String (digit_char (mi / 10)) (String (digit_char mi) ""))
    with (pad 2 mi "").
  now rewrite (two_digits_value mi mi_range).
Qed.

Lemma searchClock_plain_form :
  searchClock (prefix ++ decimal (Z.to_nat h) ++ ws ++ p ++ rest)
  = Some (Some (h mod 12 + if String.eqb (toLowerCase p) "pm" then 12 else 0),
          Some 0).
Proof.
  pose proof (period_forms p p_period) as Hp.
  unfold searchClock.
  rewrite exec_skips_digitless by (try exact prefix_digitless; reflexivity).
  rewrite (exec_here _ _ _
             (clock_match_plain _ ws p rest
                (decimal_hour h h_range) ws_space Hp)).
  cbn [set_cap Nat.eqb].
  rewrite hour_value by lia. rewrite (meridiem_clock p h Hp h_range).
  reflexivity.
Qed.

End TimeSearchFacts.

Lemma in_startsAt (tz hour minute : Z) (events : list CalendarEvent)
      (event : CalendarEvent) :
  In event (List.filter (startsAt tz (Some hour) (Some minute)) events)
  <-> In event events
      /\ exists s, dateTime (start event) = Some s
                   /\ getHours tz s = hour /\ getMinutes tz s = minute.
Proof.
  rewrite filter_In. unfold startsAt. split.
  - intros [I H]. split; [exact I|].
    destruct (dateTime (start event)) as [s|]; [|discriminate H].
    apply andb_true_iff in H. destruct H as [H1 H2].
    apply Z.eqb_eq in H1, H2. eauto.
  - intros [I (s & -> & H1 & H2)]. split; [exact I|].
    apply andb_true_iff. split; now apply Z.eqb_eq.
Qed.

(** X20: a query that spells a clock time (after any text without
    digits: an hour from 1 to 12, optionally a colon and two minute
    digits, optional white space, am or pm) selects by time exactly the
    listed events with a precise start at that hour and minute of the
    local clock, on whatever day they are. *)
Theorem findEventsByTime_clock
        (tz : Z) (prefix ws p rest : string) (h mi : Z)
        (events : list CalendarEvent) (event : CalendarEvent) :
  digitless prefix ->
  allOf is_space ws ->
  toLowerCase p = "am" \/ toLowerCase p = "pm" ->
  1 <= h <= 12 ->
  0 <= mi < 60 ->
  (In event
      (findEventsByTime tz
         (prefix ++ decimal (Z.to_nat h) ++ ":" ++ pad 2 mi "" ++ ws ++ p ++ rest)
         events)
   <-> In event events
       /\ exists s,
            dateTime (start event) = Some s
            /\ getHours tz s
               = h mod 12 + (if String.eqb (toLowerCase p) "pm" then 12 else 0)
            /\ getMinutes tz s = mi)
  /\
  (In event
      (findEventsByTime tz
         (prefix ++ decimal (Z.to_nat h) ++ ws ++ p ++ rest) events)
   <-> In event events
       /\ exists s,
            dateTime (start event) = Some s
            /\ getHours tz s
               = h mod 12 + (if String.eqb (toLowerCase p) "pm" then 12 else 0)
            /\ getMinutes tz s = 0).
Proof.
  intros Hp Hws Hper Hh Hmi. unfold findEventsByTime. split.
  - rewrite (searchClock_minutes_form prefix ws p rest h mi Hp Hws Hper Hh Hmi).
    apply in_startsAt.
  - rewrite (searchClock_plain_form prefix ws p rest h Hp Hws Hper Hh).
    apply in_startsAt.
Qed.

(** "the 1 pm one" selects Sync with Bob, which starts at 13:00. *)
Lemma findEventsByTime_clock_witness :
  In Samples.syncWithBob
     (findEventsByTime (-300) "the 1 pm one" [Samples.teamSync; Samples.syncWithBob]).
Proof.
  assert (D : digitless "the ").
  { intros a Ha. simpl in Ha.
    repeat (destruct Ha as [<-|Ha]; [reflexivity|]). contradiction. }
  assert (W : allOf is_space " ").
  { intros a Ha. simpl in Ha. destruct Ha as [<-|[]]. reflexivity. }
  apply (proj2 (findEventsByTime_clock (-300) "the " " " "pm" " one" 1 0
                  [Samples.teamSync; Samples.syncWithBob] Samples.syncWithBob
                  D W (or_intror eq_refl)
                  (conj (proj1 (Z.leb_le 1 1) eq_refl) (proj1 (Z.leb_le 1 12) eq_refl))
                  (conj (proj1 (Z.leb_le 0 0) eq_refl) (proj1 (Z.ltb_lt 0 60) eq_refl)))).
  split; [right; left; reflexivity|].
  exists (Samples.jan15 13 0). repeat split.
Defined.


(** ** The report of free slots *)

Section ReportFacts.
Variable host : Host.





End ReportFacts.



(** ** The times proposed in an email draft *)

Section EmailSlotFacts.
Variables tz now : Z.

Lemma day_ahead (i : Z) :
  localTime tz (now + i * msPerDay) / msPerDay = localTime tz now / msPerDay + i.
Proof.
  unfold localTime.
  replace (now + i * msPerDay + tz * msPerMinute)
    with (now + tz * msPerMinute + i * msPerDay) by lia.
  apply Z.div_add. discriminate.
Qed.

Lemma localMidnight_day (t : Z) :
  localTime tz (localMidnight tz t) = localTime tz t / msPerDay * msPerDay.
Proof.
  unfold localMidnight, localTime, msPerDay, msPerHour, msPerMinute.
  change (24 * (60 * (60 * 1000))) with 86400000.
  change (60 * 1000) with 60000.
  pose proof (Z.div_mod (t + tz * 60000) 86400000). lia.
Qed.

(** A clock hour of a day is on that day, at that hour. *)
Lemma emailSlot_start (t h : Z) :
  0 <= h < 24 ->
  localTime tz (Slot.start (emailSlot tz t h)) / msPerDay = localTime tz t / msPerDay
  /\ getHours tz (Slot.start (emailSlot tz t h)) = h
  /\ getMinutes tz (Slot.start (emailSlot tz t h)) = 0.
Proof.
  intro B. unfold getHours, getMinutes. cbn [emailSlot Slot.start].
  assert (E : localTime tz (localMidnight tz t + h * msPerHour)
              = localTime tz t / msPerDay * msPerDay + h * msPerHour).
  { rewrite <- localMidnight_day. unfold localTime. lia. }
  rewrite E. set (D := localTime tz t / msPerDay).
  unfold msPerDay, msPerHour, msPerMinute.
  change (24 * (60 * (60 * 1000))) with 86400000.
  change (60 * (60 * 1000)) with 3600000.
  change (60 * 1000) with 60000.
  repeat split.
  - rewrite Z.add_comm, Z.div_add by discriminate.
    rewrite (Z.div_small (h * 3600000)) by lia. lia.
  - rewrite Z.add_comm, Z.mod_add by discriminate.
    rewrite (Z.mod_small (h * 3600000)) by lia.
    apply Z.div_mul. discriminate.
  - replace (D * 86400000 + h * 3600000) with (0 + (D * 24 + h) * 3600000) by lia.
    rewrite Z.mod_add by discriminate. reflexivity.
Qed.

Lemma in_slotsOfDay (avoidMornings includeWeekends : bool) (i : Z) (slot : Slot.t) :
  In slot (slotsOfDay tz now avoidMornings includeWeekends i) ->
  exists h,
    slot = emailSlot tz (now + i * msPerDay) h
    /\ In h [9; 11; 14; 16]
    /\ (avoidMornings = true -> 11 <= h)
    /\ (includeWeekends = false ->
        getDay tz (now + i * msPerDay) <> 0 /\ getDay tz (now + i * msPerDay) <> 6).
Proof.
  unfold slotsOfDay. set (d := getDay tz (now + i * msPerDay)).
  destruct (((d =? 0) || (d =? 6)) && negb includeWeekends) eqn:W; [intros []|].
  assert (N : includeWeekends = false -> d <> 0 /\ d <> 6).
  { intros ->. rewrite andb_true_r in W. apply orb_false_iff in W.
    destruct W as [W1 W2]. apply Z.eqb_neq in W1, W2. now split. }
  destruct avoidMornings; simpl; intro H;
    repeat (destruct H as [<-|H];
            [eexists; split; [reflexivity|];
             split; [simpl; tauto|];
             split; [intro X; first [lia|discriminate X]|exact N]|]);
    contradiction.
Qed.

(** Among seven days in a row, five are working days. *)
Lemma length_week (avoidMornings includeWeekends : bool) :
  List.length (flat_map (slotsOfDay tz now avoidMornings includeWeekends)
                        [1; 2; 3; 4; 5; 6; 7])
  = ((if includeWeekends then 7 else 5) * (if avoidMornings then 3 else 4))%nat.
Proof.
  cbn [flat_map]. rewrite !length_app. unfold slotsOfDay, getDay.
  rewrite !day_ahead.
  set (D := localTime tz now / msPerDay).
  assert (R : forall i, (D + i + 4) mod 7 = ((D + 4) mod 7 + i) mod 7).
  { intro i. replace (D + i + 4) with (D + 4 + i) by lia.
    rewrite Z.add_mod by discriminate.
    rewrite (Z.add_mod ((D + 4) mod 7) i) by discriminate.
    now rewrite Z.mod_mod by discriminate. }
  rewrite !R.
  pose proof (Z.mod_pos_bound (D + 4) 7 eq_refl) as B.
  assert (C : In ((D + 4) mod 7) [0; 1; 2; 3; 4; 5; 6]) by (simpl; lia).
  simpl in C.
  repeat (destruct C as [<-|C];
          [destruct includeWeekends, avoidMornings; reflexivity|]).
  contradiction.
Qed.

End EmailSlotFacts.

(** X22: the times proposed in an email draft.  Every slot lasts thirty
    minutes and starts on the hour, at 9, 11, 14 or 16 of the local
    clock, on one of the seven local days after the clock reading;
    with mornings avoided none starts before 11; unless weekends are
    asked for none falls on a Saturday or a Sunday.  The slots come in
    chronological order, and there are always twenty of them (fifteen
    with mornings avoided), or twenty-eight (twenty-one) with weekends
    included. *)
Theorem email_slots_shape
        (tz now : Z) (avoidMornings includeWeekends : bool) :
  (forall slot,
      In slot (getAvailableTimeSlotsForEmail tz now avoidMornings includeWeekends) ->
      Slot.end_ slot - Slot.start slot = 30 * msPerMinute
      /\ In (getHours tz (Slot.start slot)) [9; 11; 14; 16]
      /\ getMinutes tz (Slot.start slot) = 0
      /\ (avoidMornings = true -> 11 <= getHours tz (Slot.start slot))
      /\ (exists i, 1 <= i <= 7
                    /\ localTime tz (Slot.start slot) / msPerDay
                       = localTime tz now / msPerDay + i)
      /\ (includeWeekends = false ->
          getDay tz (Slot.start slot) <> 0 /\ getDay tz (Slot.start slot) <> 6))
  /\ StronglySorted (keyOrdered Slot.start)
       (getAvailableTimeSlotsForEmail tz now avoidMornings includeWeekends)
  /\ List.length (getAvailableTimeSlotsForEmail tz now avoidMornings includeWeekends)
     = ((if includeWeekends then 7 else 5) * (if avoidMornings then 3 else 4))%nat.
Proof.
  unfold getAvailableTimeSlotsForEmail. split; [|split].
  - intros slot H. apply -> (in_sortByKey Slot.start) in H.
    apply in_flat_map in H. destruct H as (i & Hi & H).
    apply in_slotsOfDay in H. destruct H as (h & -> & Hh & Hm & Hw).
    assert (B : 0 <= h < 24) by (simpl in Hh; lia).
    destruct (emailSlot_start tz (now + i * msPerDay) h B) as (E1 & E2 & E3).
    split; [cbn [emailSlot Slot.start Slot.end_]; lia|].
    rewrite E2, E3. split; [exact Hh|]. split; [reflexivity|].
    split; [exact Hm|]. split.
    + exists i. split; [simpl in Hi; lia|]. rewrite E1. apply day_ahead.
    + intro F. unfold getDay in *. rewrite E1. exact (Hw F).
  - apply sortByKey_sorted.
  - rewrite length_sortByKey. apply length_week.
Qed.


(** ** Reading a time range *)

Section RangeFacts.


Lemma m_chr_hit {A} (p : ascii -> bool) (a : ascii) (s : string) (c : caps)
      (k : string -> caps -> option A) :
  p a = true -> m (Chr p) (String a s) c k = k s c.
Proof. intro H. cbn [m]. now rewrite H. Qed.

Lemma digit_is_no_space (a : ascii) : is_digit a = true -> is_space a = false.
Proof.
  intro D. destruct (is_space a) eqn:S; [|reflexivity].
  apply space_is_no_digit in S. congruence.
Qed.



End RangeFacts.




(** ** An event without a title *)

Section UntitledFacts.

Lemma prefix_empty (s : string) : String.prefix "" s = true.
Proof. now destruct s. Qed.

Lemma includes_empty (s : string) : includes s "" = true.
Proof. destruct s; cbn [includes]; now rewrite prefix_empty. Qed.

Lemma settle_decided (matched : list CalendarEvent) (matchType : string)
      (otherwise : Resolution) :
  matched <> [] ->
  (exists eventId title, settle matched matchType otherwise = found eventId title)
  \/ exists options,
       settle matched matchType otherwise = multiple_found options matchType.
Proof.
  destruct matched as [|e [|e' rest]]; [contradiction| |]; intros _; simpl; eauto.
Qed.

End UntitledFacts.

(** X24: an event with an empty title is a partial title match of
    every query, since every text holds the empty text.  With such an
    event in the list no query is ever answered not_found and the
    clock time of the query is never looked at: the answer is an event
    found, or a choice among exact or partial title matches.  When no
    title equals the query and the untitled event is the only partial
    match, it is the event found. *)
Theorem untitled_event_matches_every_query
        (tz : Z) (query : string) (events : list CalendarEvent)
        (untitled : CalendarEvent) :
  query <> EmptyString ->
  In untitled events ->
  summary untitled = EmptyString ->
  In untitled (partialMatches (toLowerCase query) events)
  /\ ((exists eventId title,
          resolveEvent tz (Some query) events = found eventId title)
      \/ (exists options,
             resolveEvent tz (Some query) events
             = multiple_found options "exact title matches")
      \/ (exists options,
             resolveEvent tz (Some query) events
             = multiple_found options "partial title matches"))
  /\ (exactMatches (toLowerCase query) events = [] ->
      partialMatches (toLowerCase query) events = [untitled] ->
      resolveEvent tz (Some query) events = found (id untitled) EmptyString).
Proof.
  intros Hq Hin Hs.
  assert (P : In untitled (partialMatches (toLowerCase query) events)).
  { apply filter_In. split; [exact Hin|]. rewrite Hs. cbn [toLowerCase].
    rewrite includes_empty. apply orb_true_r. }
  assert (E : resolveEvent tz (Some query) events
              = settle (exactMatches (toLowerCase query) events)
                  "exact title matches"
                  (settle (partialMatches (toLowerCase query) events)
                     "partial title matches"
                     (settle (findEventsByTime tz query events) "time matches"
                        (not_found (NoEventsMatching query))))).
  { destruct query; [contradiction|reflexivity]. }
  split; [exact P|]. rewrite E. split.
  - destruct (exactMatches (toLowerCase query) events) as [|e rest] eqn:X.
    + cbn [settle].
      destruct (settle_decided (partialMatches (toLowerCase query) events)
                  "partial title matches"
                  (settle (findEventsByTime tz query events) "time matches"
                     (not_found (NoEventsMatching query))))
        as [F|M]; [|now left|now right; right].
      intro N. rewrite N in P. destruct P.
    + destruct (settle_decided (e :: rest) "exact title matches"
                  (settle (partialMatches (toLowerCase query) events)
                     "partial title matches"
                     (settle (findEventsByTime tz query events) "time matches"
                        (not_found (NoEventsMatching query)))))
        as [F|M]; [discriminate|now left|now right; left].
  - intros -> ->. cbn [settle]. now rewrite Hs.
Qed.

(** Deleting "dentist" when the list holds an untitled event and Team
    Sync: the untitled event is the one found. *)
Lemma untitled_event_matches_every_query_witness :
  resolveEvent (-300) (Some "dentist") [Samples.untitled; Samples.teamSync]
  = found "evt_none" EmptyString.
Proof.
  apply (untitled_event_matches_every_query (-300) "dentist"
           [Samples.untitled; Samples.teamSync] Samples.untitled);
    try reflexivity; try discriminate.
  now left.
Defined.

(** ** What a new event needs *)

Section CreationFacts.



End CreationFacts.





(** ** The periods of the conflict finder and of the event list *)

Section PeriodFacts.
Variables tz now : Z.

(** The instants of the local day that opens [k] days after today's
    midnight. *)
Lemma same_day_bounds (x k : Z) :
  localTime tz x / msPerDay
  = localTime tz (localMidnight tz now + k * msPerDay) / msPerDay
  <-> localMidnight tz now + k * msPerDay <= x
      < localMidnight tz now + (k + 1) * msPerDay.
Proof.
  assert (E : localTime tz (localMidnight tz now + k * msPerDay)
              = (localTime tz now / msPerDay + k) * msPerDay).
  { pose proof (localMidnight_day tz now) as M. unfold localTime in *. lia. }
  rewrite E. rewrite Z.div_mul by discriminate.
  assert (L : localMidnight tz now
              = localTime tz now / msPerDay * msPerDay - tz * msPerMinute).
  { pose proof (localMidnight_day tz now) as M. unfold localTime in *. lia. }
  rewrite L. clear E L. set (D := localTime tz now / msPerDay).
  unfold localTime. set (l := x + tz * msPerMinute).
  replace x with (l - tz * msPerMinute) by (unfold l; lia).
  unfold msPerDay, msPerHour, msPerMinute.
  change (24 * (60 * (60 * 1000))) with 86400000.
  change (60 * 1000) with 60000.
  pose proof (Z.div_mod l 86400000).
  pose proof (Z.mod_pos_bound l 86400000 eq_refl).
  split; intro H1; [lia|].
  symmetry.
  apply (Z.div_unique l 86400000 (D + k) (l - (D + k) * 86400000)); lia.
Qed.

Lemma inTimeframe_today (period : string) (event : CalendarEvent) :
  toLowerCase period = "today" ->
  inTimeframe tz now period event = true
  <-> localMidnight tz now <= getLocalEventTime now (start event)
      < localMidnight tz now + msPerDay.
Proof.
  intro P. unfold inTimeframe. rewrite P.
  change (String.eqb "today" "today") with true. cbv iota.
  unfold sameLocalDay. rewrite Z.eqb_eq.
  pose proof (same_day_bounds (getLocalEventTime now (start event)) 0) as B.
  replace (localMidnight tz now + 0 * msPerDay) with (localMidnight tz now) in B by lia.
  replace (localMidnight tz now + (0 + 1) * msPerDay)
    with (localMidnight tz now + msPerDay) in B by lia.
  exact B.
Qed.

Lemma inTimeframe_tomorrow (period : string) (event : CalendarEvent) :
  toLowerCase period = "tomorrow" ->
  inTimeframe tz now period event = true
  <-> localMidnight tz now + msPerDay <= getLocalEventTime now (start event)
      < localMidnight tz now + 2 * msPerDay.
Proof.
  intro P. unfold inTimeframe. rewrite P.
  change (String.eqb "tomorrow" "today") with false.
  change (String.eqb "tomorrow" "tomorrow") with true. cbv iota.
  unfold sameLocalDay. rewrite Z.eqb_eq.
  pose proof (same_day_bounds (getLocalEventTime now (start event)) 1) as B.
  replace (localMidnight tz now + 1 * msPerDay)
    with (localMidnight tz now + msPerDay) in B by lia.
  replace (localMidnight tz now + (1 + 1) * msPerDay)
    with (localMidnight tz now + 2 * msPerDay) in B by lia.
  exact B.
Qed.

Lemma inTimeframe_week (period : string) (event : CalendarEvent) :
  toLowerCase period = "week" \/ toLowerCase period = "this week" ->
  inTimeframe tz now period event = true
  <-> localMidnight tz now <= getLocalEventTime now (start event)
      <= localMidnight tz now + 7 * msPerDay.
Proof.
  intro P. unfold inTimeframe.
  destruct P as [P|P]; rewrite P;
    cbn [String.eqb Ascii.eqb Bool.eqb orb];
    rewrite andb_true_iff, !Z.leb_le; reflexivity.
Qed.

Lemma inTimeframe_month (period : string) (event : CalendarEvent) :
  toLowerCase period = "month" ->
  inTimeframe tz now period event = true
  <-> localMidnight tz now <= getLocalEventTime now (start event)
      <= endOfMonth tz now.
Proof.
  intro P. unfold inTimeframe. rewrite P.
  cbn [String.eqb Ascii.eqb Bool.eqb orb].
  rewrite andb_true_iff, !Z.leb_le. reflexivity.
Qed.

End PeriodFacts.

(** X26: the week holds today and tomorrow: an event that falls in the
    period today or tomorrow falls in the period week (or this week) as
    well, whatever the clock reads. *)
Theorem week_holds_today_and_tomorrow
        (tz now : Z) (day week : string) (event : CalendarEvent) :
  toLowerCase day = "today" \/ toLowerCase day = "tomorrow" ->
  toLowerCase week = "week" \/ toLowerCase week = "this week" ->
  inTimeframe tz now day event = true ->
  inTimeframe tz now week event = true.
Proof.
  intros Hd Hw H. apply (inTimeframe_week tz now week event Hw).
  assert (P : 0 < msPerDay) by reflexivity.
  destruct Hd as [Hd|Hd].
  - apply (inTimeframe_today tz now day event Hd) in H. lia.
  - apply (inTimeframe_tomorrow tz now day event Hd) in H. lia.
Qed.

(** The 13:00 meeting of today is in the week. *)
Lemma week_holds_today_and_tomorrow_witness :
  inTimeframe (-300) Samples.now "This Week" Samples.syncWithBob = true.
Proof.
  apply (week_holds_today_and_tomorrow (-300) Samples.now "Today" "This Week"
           Samples.syncWithBob (or_introl eq_refl) (or_intror eq_refl)).
  reflexivity.
Defined.

(** X27: the period month ends at the midnight that opens the last
    day of the month: an event in it starts no later than that
    midnight, so what happens during the last day is left out.  On the
    last day of a month the period holds nothing but what starts at
    today's midnight sharp, and a meeting later that day is in the
    period today but not in the period month. *)
Theorem month_period_stops_at_last_midnight
        (tz now : Z) (period : string) (event : CalendarEvent) (y m d : Z) :
  toLowerCase period = "month" ->
  civil_from_days (localTime tz now / msPerDay) = (y, m, d) ->
  (inTimeframe tz now period event = true ->
   localMidnight tz now <= getLocalEventTime now (start event)
   <= localMidnight tz now + (daysInMonth y m - d) * msPerDay)
  /\ (d = daysInMonth y m ->
      (inTimeframe tz now period event = true
       <-> getLocalEventTime now (start event) = localMidnight tz now)
      /\ (localMidnight tz now < getLocalEventTime now (start event)
          < localMidnight tz now + msPerDay ->
          inTimeframe tz now "today" event = true
          /\ inTimeframe tz now period event = false)).
Proof.
  intros P C.
  assert (E : endOfMonth tz now
              = localMidnight tz now + (daysInMonth y m - d) * msPerDay)
    by (unfold endOfMonth; now rewrite C).
  pose proof (inTimeframe_month tz now period event P) as M. rewrite E in M.
  split; [apply M|].
  intros ->. replace (daysInMonth y m - daysInMonth y m) with 0 in M by lia.
  split.
  - rewrite M. lia.
  - intro B. split.
    + apply (inTimeframe_today tz now "today" event eq_refl). lia.
    + destruct (inTimeframe tz now period event); [|reflexivity].
      assert (T : true = true) by reflexivity. apply M in T. lia.
Qed.

(** On 2024-01-31 at 10:00 the review of 14:00 is in today and not in
    the month. *)
Lemma month_period_stops_at_last_midnight_witness :
  inTimeframe (-300) Samples.jan31 "today" Samples.monthEndReview = true
  /\ inTimeframe (-300) Samples.jan31 "month" Samples.monthEndReview = false.
Proof.
  apply (proj2 (month_period_stops_at_last_midnight (-300) Samples.jan31 "month"
                  Samples.monthEndReview 2024 1 31 eq_refl eq_refl) eq_refl).
  split; reflexivity.
Defined.


(** X28: a whole-day event, whose date denotes a midnight of UTC, is
    filed by the period today under the local day of that instant: east
    of Greenwich (and at it) that is the day of the event, west of it
    the day before, so that today holds the whole-day events of
    tomorrow and not those of today. *)
Theorem wholeDay_event_day
        (tz now : Z) (event : CalendarEvent) (day : Z) :
  dateTime (start event) = None ->
  date (start event) = Some (day * msPerDay) ->
  (0 <= tz < 1440 ->
   (inTimeframe tz now "today" event = true
    <-> day = localTime tz now / msPerDay))
  /\ (-1440 < tz < 0 ->
      (inTimeframe tz now "today" event = true
       <-> day = localTime tz now / msPerDay + 1)).
Proof.
  intros Ht Hd.
  pose proof (inTimeframe_today tz now "today" event eq_refl) as T.
  unfold getLocalEventTime in T. rewrite Ht, Hd in T.
  assert (L : localMidnight tz now
              = localTime tz now / msPerDay * msPerDay - tz * msPerMinute).
  { pose proof (localMidnight_day tz now) as M. unfold localTime in *. lia. }
  rewrite L in T. revert T. generalize (localTime tz now / msPerDay). intro today.
  unfold msPerDay, msPerHour, msPerMinute.
  change (24 * (60 * (60 * 1000))) with 86400000.
  change (60 * 1000) with 60000.
  intro T. split; intro B; rewrite T; lia.
Qed.

(** Five hours behind UTC the holiday of 2024-01-15 is not among the
    events of that day. *)
Lemma wholeDay_event_day_witness :
  inTimeframe (-300) Samples.now "today" Samples.holiday = false.
Proof.
  destruct (inTimeframe (-300) Samples.now "today" Samples.holiday) eqn:E;
    [|reflexivity].
  apply (proj2 (wholeDay_event_day (-300) Samples.now Samples.holiday 19737
                  eq_refl eq_refl)) in E.
  - discriminate E.
  - split; reflexivity.
Defined.


(** ** Numbers that the duration parser passes over *)

Section SkippedNumberFacts.

(** A star whose continuation fails wherever it stops fails. *)
Lemma star_none {A} (p : ascii -> bool) (l rest : string)
      (k : string -> option A) :
  (forall l1 l2, l = l1 ++ l2 -> k (l2 ++ rest) = None) ->
  match rest with String a _ => p a = false | EmptyString => True end ->
  star p (l ++ rest) k = None.
Proof.
  induction l as [|a l IH]; intros K R.
  - cbn [append star]. destruct rest as [|b rest]; cbn [star].
    + exact (K "" "" eq_refl).
    + rewrite R. exact (K "" "" eq_refl).
  - cbn [append star].
    rewrite IH; [|intros l1 l2 E; apply (K (String a l1) l2); now rewrite E|exact R].
    pose proof (K "" (String a l) eq_refl) as N. cbn [append] in N.
    destruct (p a); exact N.
Qed.

Lemma digit_is_no_unit (a : ascii) :
  is_digit a = true -> lower_ascii a <> "m"%char /\ lower_ascii a <> "h"%char.
Proof.
  destruct a as [[] [] [] [] [] [] [] []]; vm_compute; intro H;
    try discriminate H; split; discriminate.
Qed.

Lemma m_group {A} (n : nat) (r : re) (s : string) (c : caps)
      (k : string -> caps -> option A) :
  m (Group n r) s c k
  = m r s c (fun s1 c1 => k s1 (set_cap n (consumed s s1) c1)).
Proof. reflexivity. Qed.

(** The unit does not match at a character that is neither m nor h. *)
Lemma unit_fails {A} (s : string) (c : caps) (k : string -> caps -> option A) :
  match s with
  | String a _ => lower_ascii a <> "m"%char /\ lower_ascii a <> "h"%char
  | EmptyString => True
  end ->
  m (seq [ Group 2 (alt [ Seq (word "minute") (Opt (ci "s"));
                          Seq (word "hour") (Opt (ci "s"));
                          Seq (word "min") (Opt (ci "s"));
                          Seq (word "hr") (Opt (ci "s"));
                          ci "h";
                          ci "m" ]) ]) s c k = None.
Proof.
  destruct s as [|a s]; [reflexivity|]. intros [Hm Hh].
  unfold seq, alt, word, ci. cbn [fold_right m].
  change (lower_ascii "m") with "m"%char.
  change (lower_ascii "h") with "h"%char.
  apply Ascii.eqb_neq in Hm, Hh. now rewrite Hm, Hh.
Qed.

Lemma number_fails (d : ascii) (ds : string) (c : ascii) (rest : string) :
  is_digit d = true -> allOf is_digit ds -> breaksNumber c ->
  match_here durationPattern (String d ds ++ String c rest) = None.
Proof.
  intros Hd Hds (C1 & C2 & C3 & C4).
  unfold match_here, durationPattern. unfold seq at 1. cbn [fold_right].
  rewrite m_seq, m_group, m_seq. unfold digit. cbn [append].
  rewrite m_chr_hit by exact Hd. rewrite m_star.
  apply star_none; [|exact C1].
  intros l1 l2 E. rewrite m_seq. unfold spaces. rewrite m_star.
  assert (H : match l2 ++ String c rest with
              | String a _ =>
                  is_space a = false
                  /\ lower_ascii a <> "m"%char /\ lower_ascii a <> "h"%char
              | EmptyString => True
              end).
  { destruct l2 as [|b l2]; cbn [append]; [tauto|].
    assert (B : is_digit b = true).
    { apply Hds. rewrite E, list_ascii_app. apply in_or_app. right. now left. }
    split; [now apply digit_is_no_space|now apply digit_is_no_unit]. }
  destruct (l2 ++ String c rest) as [|b s] eqn:S.
  - cbn [star]. now apply (unit_fails "").
  - cbn [star]. destruct H as (H1 & H2). rewrite H1.
    now apply (unit_fails (String b s)).
Qed.

(** The search for a duration passes over a number that a breaking
    character follows. *)
Lemma exec_skips_number (ds : string) (c : ascii) (rest : string) :
  allOf is_digit ds -> breaksNumber c ->
  exec durationPattern (ds ++ String c rest)
  = exec durationPattern (String c rest).
Proof.
  intros Hds Hc. induction ds as [|d ds IH]; [reflexivity|].
  apply allOf_inv in Hds. destruct Hds as [Hd Hds].
  change (exec durationPattern (String d ds ++ String c rest))
    with (match match_here durationPattern (String d ds ++ String c rest) with
          | Some caps => Some caps
          | None => exec durationPattern (ds ++ String c rest)
          end).
  rewrite (number_fails d ds c rest Hd Hds Hc). now apply IH.
Qed.

End SkippedNumberFacts.

(** X29: the duration parser knows no fractions and no ranges: a number
    that is followed by anything but a digit, white space or the start
    of a unit is passed over, and the number that stands before the
    unit is the one read.  So "1.5 hours" is read as 5 hours, 300
    minutes, and "2-3 hours" as 3 hours.  The number read is one whose
    sixtyfold is at most [MAX_SAFE_INTEGER], so that the doubles of the
    code hold it and the product exactly; the number passed over is
    any. *)
Theorem parseDurationToMinutes_skips_broken_number
        (prefix middle ws rest : string) (first n : nat) (c a : ascii) :
  Z.of_nat n * 60 <= MAX_SAFE_INTEGER ->
  digitless prefix ->
  is_digit c = false -> is_space c = false ->
  lower_ascii c <> "m"%char -> lower_ascii c <> "h"%char ->
  digitless middle ->
  allOf is_space ws ->
  In a ["h"; "H"; "m"; "M"]%char ->
  parseDurationToMinutes
    (prefix ++ decimal first ++ String c (middle ++ decimal n ++ ws ++ String a rest))
  = Ok (Some (if Ascii.eqb (lower_ascii a) "h"
              then Z.of_nat n * 60 else Z.of_nat n)).
Proof.
  intros Hn Hp C1 C2 C3 C4 Hm Hws Ha. unfold parseDurationToMinutes.
  rewrite exec_skips_digitless by (try exact Hp; cbv; tauto).
  rewrite exec_skips_number;
    [|apply string_of_uint_digits|repeat split; assumption].
  change (String c (middle ++ decimal n ++ ws ++ String a rest))
    with (String c middle ++ decimal n ++ ws ++ String a rest).
  rewrite exec_skips_digitless;
    [|cbv; tauto|intros b [<-|Hb]; [exact C1|now apply Hm]].
  destruct (duration_match ws rest n a Hws Ha) as (u & E).
  rewrite (exec_here _ _ _ E).
  cbn [set_cap Nat.eqb].
  rewrite parseInt_decimal by lia.
  unfold startsWith. cbn [toLowerCase String.prefix option_map].
  rewrite (toNumber_exact (Z.of_nat n * 60)) by lia.
  destruct Ha as [<-|[<-|[<-|[<-|[]]]]];
    match goal with
    | |- context [lower_ascii ?c] =>
        let v := eval vm_compute in (lower_ascii c) in
        change (lower_ascii c) with v
    end;
    match goal with
    | |- context [ascii_dec ?x ?y] =>
        destruct (ascii_dec x y) as [e|ne];
        try discriminate e; try (exfalso; apply ne; reflexivity)
    end; try reflexivity; destruct (toLowerCase u); reflexivity.
Qed.

(** "1.5 hours" is read as 300 minutes. *)
Lemma parseDurationToMinutes_skips_broken_number_witness :
  parseDurationToMinutes "1.5 hours" = Ok (Some 300).
Proof.
  apply (parseDurationToMinutes_skips_broken_number "" "" " " "ours" 1 5 "." "h");
    try reflexivity; try discriminate.
  - intros a [].
  - intros a [].
  - intros a [<-|[]]. reflexivity.
  - simpl. tauto.
Defined.


(** ** The first number of a text is its hour *)

Section FirstNumberFacts.

Lemma star_fail_mono {A B} (p : ascii -> bool) (s : string)
      (k' : string -> option A) (k : string -> option B) :
  (forall s1, k' s1 = None -> k s1 = None) ->
  star p s k' = None -> star p s k = None.
Proof.
  intro K. induction s as [|a s IH]; cbn [star]; [apply K|].
  destruct (p a); [|apply K].
  destruct (star p s k') eqn:E; [discriminate|].
  intro H. rewrite (IH eq_refl). now apply K.
Qed.

(** A failure of the matcher does not depend on the captures, and a
    continuation that fails wherever another one does fails with it. *)
Lemma m_fail_mono {A B} (r : re) :
  forall (s : string) (c c2 : caps)
         (k' : string -> caps -> option A) (k : string -> caps -> option B),
    (forall s1 c1 c3, k' s1 c1 = None -> k s1 c3 = None) ->
    m r s c k' = None -> m r s c2 k = None.
Proof.
  induction r as [| |p|r1 IH1 r2 IH2|r1 IH1 r2 IH2|r1 IH1|p|n r1 IH1];
    intros s c c2 k' k K; cbn [m].
  - apply K.
  - destruct s; [apply K|reflexivity].
  - destruct s as [|a s]; [reflexivity|]. destruct (p a); [apply K|reflexivity].
  - apply IH1. intros s1 c1 c3. apply IH2. exact K.
  - destruct (m r1 s c k') eqn:E; [discriminate|]. intro H.
    rewrite (IH1 s c c2 k' k K E). now apply (IH2 s c c2 k' k K).
  - destruct (m r1 s c k') eqn:E; [discriminate|]. intro H.
    rewrite (IH1 s c c2 k' k K E). now apply (K s c c2).
  - apply star_fail_mono. intro s1. apply K.
  - apply IH1. intros s1 c1 c3. apply K.
Qed.

(** An optional group that has no match where the matcher stands is
    passed. *)
Lemma opt_group_absent {A} (g : nat) (r : re) (s : string) (c : caps)
      (k : string -> caps -> option A) :
  match_here r s = None ->
  m (Opt (Group g r)) s c k = k s c.
Proof.
  intro N. cbn [m].
  rewrite (m_fail_mono r s no_caps c (fun _ c1 => Some c1)
             (fun s1 c1 => k s1 (set_cap g (consumed s s1) c1)));
    [reflexivity|discriminate|exact N].
Qed.

Lemma decimal_clock_hour (h : Z) : 0 <= h <= 23 -> hourDigits (decimal (Z.to_nat h)).
Proof.
  intro B.
  assert (C : In h [0; 1; 2; 3; 4; 5; 6; 7; 8; 9; 10; 11; 12; 13; 14; 15; 16;
                    17; 18; 19; 20; 21; 22; 23]) by (simpl; lia).
  simpl in C.
  repeat (destruct C as [<-|C];
          [eexists; split;
           [|first [left; reflexivity
                   |right; eexists; split; [|reflexivity]; reflexivity]];
           reflexivity|]).
  contradiction.
Qed.

(** The clock pattern on an hour that neither minutes nor a period
    follow. *)
Lemma clock_match_bare (hd ws tail : string) :
  hourDigits hd ->
  allOf is_space ws ->
  match tail with
  | String c _ => is_digit c = false /\ c <> ":"%char /\ is_space c = false
  | EmptyString => True
  end ->
  match_here (Alt (word "am") (word "pm")) tail = None ->
  match_here timePattern (hd ++ ws ++ tail) = Some (set_cap 1 hd no_caps).
Proof.
  intros Hh Hws Ht Hp.
  assert (N : match ws ++ tail with
              | String a _ => is_digit a = false /\ a <> ":"%char
              | EmptyString => True
              end).
  { destruct ws as [|b ws]; cbn [append].
    - destruct tail; tauto.
    - assert (S : is_space b = true) by (apply Hws; now left). split.
      + now apply space_is_no_digit.
      + intros ->. discriminate S. }
  unfold match_here, timePattern, clock, seq. cbn [fold_right Nat.add].
  rewrite m_seq. apply hour_group; [exact Hh| |].
  { destruct (ws ++ tail); tauto. }
  rewrite m_seq, minute_group_absent by (destruct (ws ++ tail); tauto).
  rewrite m_seq. unfold spaces at 1. rewrite m_star.
  apply star_greedy; [exact Hws| |].
  { destruct tail; tauto. }
  rewrite m_seq, opt_group_absent by exact Hp. reflexivity.
Qed.

End FirstNumberFacts.

(** X30: the first number of a text is taken as its hour, whatever the
    text says later.  When, after any text without digits, an hour from
    0 to 23 is followed (after optional white space) by something that
    is neither a digit, a colon, nor am or pm, the text is read as that
    hour sharp on the local day of the base date; and so does the
    date/time parser for a text that names neither today nor tomorrow
    and that the host does not read as a date: "Jan 16 at 3pm" is
    16:00 of today. *)
Theorem first_number_is_the_hour
        (host : Host) (now : Z) (prefix ws tail : string) (h base : Z) :
  digitless prefix ->
  0 <= h <= 23 ->
  allOf is_space ws ->
  match tail with
  | String c _ => is_digit c = false /\ c <> ":"%char /\ is_space c = false
  | EmptyString => True
  end ->
  match_here (Alt (word "am") (word "pm")) tail = None ->
  (exists t,
      parseTimeForDate host (prefix ++ decimal (Z.to_nat h) ++ ws ++ tail)
                       (Some base) = Some t
      /\ getHours (tz host) t = h
      /\ getMinutes (tz host) t = 0
      /\ localTime (tz host) t / msPerDay = localTime (tz host) base / msPerDay)
  /\ (includes (toLowerCase (prefix ++ decimal (Z.to_nat h) ++ ws ++ tail)) "today"
      = false ->
      includes (toLowerCase (prefix ++ decimal (Z.to_nat h) ++ ws ++ tail)) "tomorrow"
      = false ->
      Date_parse host (prefix ++ decimal (Z.to_nat h) ++ ws ++ tail) = None ->
      exists t,
        parseDateTime host now (prefix ++ decimal (Z.to_nat h) ++ ws ++ tail) = Some t
        /\ getHours (tz host) t = h
        /\ getMinutes (tz host) t = 0
        /\ localTime (tz host) t / msPerDay = localTime (tz host) now / msPerDay).
Proof.
  intros Hp Hh Hws Ht Hn.
  assert (X : exec timePattern (prefix ++ decimal (Z.to_nat h) ++ ws ++ tail)
              = Some (set_cap 1 (decimal (Z.to_nat h)) no_caps)).
  { rewrite exec_skips_digitless by (try exact Hp; reflexivity).
    apply exec_here, clock_match_bare; try assumption.
    now apply decimal_clock_hour. }
  assert (R : forall date,
             parseTimeForDate host (prefix ++ decimal (Z.to_nat h) ++ ws ++ tail)
                              (Some date)
             = setHours (tz host) (Some date) (Some h) (Some 0)).
  { intro date. unfold parseTimeForDate. rewrite X. cbn [set_cap Nat.eqb no_caps].
    rewrite hour_value by lia. reflexivity. }
  assert (B : 0 <= h < 24) by lia.
  split.
  - rewrite R. eexists. split; [reflexivity|].
    apply (setHours_clock (tz host) base); [exact B|lia|reflexivity].
  - intros T1 T2 D. unfold parseDateTime. rewrite T1, T2, D, X, R.
    eexists. split; [reflexivity|].
    apply (setHours_clock (tz host) now); [exact B|lia|reflexivity].
Qed.

(** "Jan 16 at 3pm" is read as 16:00 of the day of the clock reading. *)
Lemma first_number_is_the_hour_witness :
  exists t,
    parseDateTime Samples.host Samples.now "Jan 16 at 3pm" = Some t
    /\ getHours (tz Samples.host) t = 16
    /\ localTime (tz Samples.host) t / msPerDay
       = localTime (tz Samples.host) Samples.now / msPerDay.
Proof.
  assert (D : digitless "Jan ").
  { intros a Ha. simpl in Ha.
    repeat (destruct Ha as [<-|Ha]; [reflexivity|]). contradiction. }
  assert (W : allOf is_space " ").
  { intros a Ha. simpl in Ha. destruct Ha as [<-|[]]. reflexivity. }
  destruct (first_number_is_the_hour Samples.host Samples.now
              "Jan " " " "at 3pm" 16 Samples.now D
              (conj (proj1 (Z.leb_le 0 16) eq_refl) (proj1 (Z.leb_le 16 23) eq_refl))
              W) as [_ H].
  - repeat split; discriminate.
  - reflexivity.
  - destruct (H eq_refl eq_refl eq_refl) as (t & E & H1 & _ & H3).
    exists t. exact (conj E (conj H1 H3)).
Defined.
